(** * yasa/staging.py: automatic sleep staging, feature pipeline

    A shallow embedding of [SleepStaging] (constructor, [fit],
    [_validate_predict], [_load_model], [predict], [predict_proba],
    [get_features], and [plot_predict_proba] up to the drawing) and
    the properties of it that the specification states, followed by
    further properties read off the source.

    Conventions.
    - Python exceptions are the [Raise] case of [result]; code that both
      mutates objects and raises runs in the monad [M].
    - Objects that are shared by reference (the caller's metadata dict,
      the data frames cached on the instance) live in a [heap]; a
      reference is an index into it.
    - float64 values are elements of an abstract type with the numpy
      operations the source applies to them ([Numeric]); library routines
      (mne, scipy, pandas, scikit-learn, entropy, yasa.others,
      yasa.spectral) are the fields of [Lib] and may raise. *)

From Stdlib Require Import ZArith QArith Qcanon Qround Lia.
From stdpp Require Import base option list strings sorting.


(** ** Exceptions and results *)

Inductive exn : Type :=
| AssertionError (msg : string)
| ValueError (msg : string) (names : list string)
| IndexError (msg : string)
| KeyError (key : string)
| AttributeError (attr : string)
| LibraryError (origin : string).

Inductive result (A : Type) : Type :=
| Ok (a : A)
| Raise (e : exn).
Arguments Ok {A} a.
Arguments Raise {A} e.

Global Instance result_ret : MRet result := fun _ a => Ok a.
Global Instance result_bind : MBind result := fun _ _ f r =>
  match r with
  | Ok a => f a
  | Raise e => Raise e
  end.
Global Instance result_fmap : FMap result := fun _ _ f r =>
  match r with
  | Ok a => Ok (f a)
  | Raise e => Raise e
  end.

Definition is_ok {A} (r : result A) : bool :=
  match r with Ok _ => true | Raise _ => false end.

(** [assert cond, msg] *)
Definition assert (cond : bool) (msg : string) : result unit :=
  if cond then Ok tt else Raise (AssertionError msg).

(** A loop body run over a list, stopping at the first exception. *)
Fixpoint mapR {A B} (f : A -> result B) (l : list A) : result (list B) :=
  match l with
  | [] => Ok []
  | a :: l' => b ← f a; bs ← mapR f l'; Ok (b :: bs)
  end.

(** ** Python values and dicts *)

(** The values a metadata dict holds: [bool], [int] and (finite) [float]. *)
Inductive pyval : Type :=
| PBool (b : bool)
| PInt (z : Z)
| PFloat (q : Q).

(** The number a value stands for in a comparison ([True] is 1). *)
Definition py_num (v : pyval) : Q :=
  match v with
  | PBool b => inject_Z (Z.b2z b)
  | PInt z => inject_Z z
  | PFloat q => q
  end.

(** [int(v)]: truncation toward zero on a float. *)
Definition py_int (v : pyval) : Z :=
  match v with
  | PBool b => Z.b2z b
  | PInt z => z
  | PFloat q => Z.quot (Qnum q) (Z.pos (Qden q))
  end.

Definition Qltb (x y : Q) : bool := negb (Qle_bool y x).

(** A dict keeps its keys in insertion order; assigning to a key that is
    present replaces the value in place. *)
Definition dict (V : Type) : Type := list (string * V).

Definition dict_keys {V} (d : dict V) : list string := d.*1.

Fixpoint dict_get {V} (k : string) (d : dict V) : option V :=
  match d with
  | [] => None
  | (k', v) :: d' => if decide (k = k') then Some v else dict_get k d'
  end.

Fixpoint dict_set {V} (k : string) (v : V) (d : dict V) : dict V :=
  match d with
  | [] => [(k, v)]
  | (k', v') :: d' =>
      if decide (k = k') then (k, v) :: d' else (k', v') :: dict_set k v d'
  end.

Definition dict_mem {V} (k : string) (d : dict V) : bool :=
  bool_decide (k ∈ dict_keys d).

(** [d[k]] *)
Definition dict_item {V} (k : string) (d : dict V) : result V :=
  match dict_get k d with
  | Some v => Ok v
  | None => Raise (KeyError k)
  end.

(** ** float64 arrays: the numpy operations of the source *)

Class Numeric (F : Type) : Type := {
  fadd : F → F → F;
  fsub : F → F → F;
  fmul : F → F → F;
  fdiv : F → F → F;
  fsqrt : F → F;                (* np.sqrt *)
  flog10 : F → F;               (* np.log10 *)
  fltb : F → F → bool;          (* < *)
  fleb : F → F → bool;          (* <= *)
  of_Z : Z → F;                 (* an integer used as a float *)
  of_Q : Q → F;                 (* a float literal *)
  fnan : F;                     (* the value pandas pads with *)
  fvar : list F → F;            (* ndarray.var *)
  fstd : nat → list F → F;      (* np.std with ddof *)
  trapz : list F → F → F;       (* np.trapz(y, dx=dx) *)
  to_float32 : F → F;           (* astype(np.float32) *)
  to_int : F → option Z;        (* astype(int); undefined on non-finite *)
}.

(** ** pandas: series and data frames *)

Inductive series (F : Type) : Type :=
| Float64 (xs : list F)
| Float32 (xs : list F)
| Int64 (xs : list Z)
| Bool_ (xs : list bool).
Arguments Float64 {F} xs.
Arguments Float32 {F} xs.
Arguments Int64 {F} xs.
Arguments Bool_ {F} xs.

(** A frame: the length of its (range) index and its named columns, in
    order. *)
Record DataFrame (F : Type) : Type := mkFrame {
  nrows : nat;
  columns : list (string * series F);
}.
Arguments mkFrame {F} nrows columns.
Arguments nrows {F} d.
Arguments columns {F} d.

Section Pandas.
Context {F : Type} {num : Numeric F}.

Definition series_len (s : series F) : nat :=
  match s with
  | Float64 xs | Float32 xs => length xs
  | Int64 xs => length xs
  | Bool_ xs => length xs
  end.

(** The values of a column as float64. *)
Definition as_float (s : series F) : list F :=
  match s with
  | Float64 xs | Float32 xs => xs
  | Int64 xs => of_Z <$> xs
  | Bool_ xs => (fun b : bool => of_Z (Z.b2z b)) <$> xs
  end.

(** [df.columns.tolist()] *)
Definition column_names (df : DataFrame F) : list string := (columns df).*1.

(** [df[name]] *)
Definition get_column (name : string) (df : DataFrame F) : option (series F) :=
  dict_get name (columns df).

(** [pd.DataFrame(feat)] for a dict of arrays: they must have one
    length, which becomes the length of the index. *)
Definition frame_of_dict (feat : dict (series F)) : result (DataFrame F) :=
  match feat with
  | [] => Ok (mkFrame 0 [])
  | (_, s) :: _ =>
      let n := series_len s in
      if forallb (fun c => series_len c.2 =? n)%nat feat
      then Ok (mkFrame n feat)
      else Raise (ValueError "All arrays must be of the same length" [])
  end.

Definition add_prefix (p : string) (df : DataFrame F) : DataFrame F :=
  mkFrame (nrows df) (prod_map (fun c => p +:+ c) id <$> columns df).

Definition add_suffix (sfx : string) (df : DataFrame F) : DataFrame F :=
  mkFrame (nrows df) (prod_map (fun c => c +:+ sfx) id <$> columns df).

(** Alignment of a column on a range index of length [n]: rows beyond
    [n] are dropped, missing rows are NaN (which makes the column
    float64). *)
Definition reindex (n : nat) (s : series F) : series F :=
  if (series_len s =? n)%nat then s
  else
    let pad xs := take n xs ++ replicate (n - length xs) fnan in
    match s with
    | Float32 xs => Float32 (pad xs)
    | _ => Float64 (pad (as_float s))
    end.

(** [pd.concat(frames, axis=1)]: the index is the union of the frames'
    indexes, every column is aligned on it. *)
Definition concat (frames : list (DataFrame F)) : result (DataFrame F) :=
  match frames with
  | [] => Raise (ValueError "No objects to concatenate" [])
  | _ =>
      let n := foldr Nat.max 0%nat (nrows <$> frames) in
      Ok (mkFrame n (prod_map id (reindex n) <$> (frames ≫= columns)))
  end.

(** [left.join(right)]: the left index is kept; a column name on both
    sides is an error. *)
Definition join (left right : DataFrame F) : result (DataFrame F) :=
  let overlap := filter (fun c => c ∈ column_names right) (column_names left) in
  match overlap with
  | [] => Ok (mkFrame (nrows left)
                (columns left ++ (prod_map id (reindex (nrows left)) <$> columns right)))
  | _ => Raise (ValueError "columns overlap but no suffix specified" overlap)
  end.

(** [df[name] = values] for an array of values. *)
Definition set_column (name : string) (s : series F) (df : DataFrame F)
  : result (DataFrame F) :=
  if (series_len s =? nrows df)%nat
  then Ok (mkFrame (nrows df) (dict_set name s (columns df)))
  else Raise (ValueError "Length of values does not match length of index" [name]).

(** The column a scalar is broadcast to. *)
Definition broadcast (n : nat) (v : pyval) : series F :=
  match v with
  | PBool b => Bool_ (replicate n b)
  | PInt z => Int64 (replicate n z)
  | PFloat q => Float64 (replicate n (of_Q q))
  end.

(** [df[name] = v] for a scalar. *)
Definition set_scalar (name : string) (v : pyval) (df : DataFrame F) : DataFrame F :=
  mkFrame (nrows df) (dict_set name (broadcast (nrows df) v) (columns df)).

(** [s.astype(np.float32)] for a float64 column; other columns are not
    selected by [select_dtypes(np.float64)]. *)
Definition downcast_series (s : series F) : series F :=
  match s with
  | Float64 xs => Float32 (to_float32 <$> xs)
  | _ => s
  end.

(** [features[cols_float] = features[cols_float].astype(np.float32)] with
    [cols_float] the float64 columns. *)
Definition downcast (df : DataFrame F) : DataFrame F :=
  mkFrame (nrows df) (prod_map id downcast_series <$> columns df).

(** [s.astype(int)] *)
Definition astype_int (s : series F) : result (series F) :=
  match s with
  | Float64 xs | Float32 xs =>
      Int64 <$> mapR (fun x => match to_int x with
                               | Some z => Ok z
                               | None => Raise (ValueError
                                   "Cannot convert non-finite values (NA or inf) to integer" [])
                               end) xs
  | Int64 xs => Ok (Int64 xs)
  | Bool_ xs => Ok (Int64 (Z.b2z <$> xs))
  end.

(** [if name in features.columns: features[name] = features[name].astype(int)] *)
Definition encode_int (name : string) (df : DataFrame F) : result (DataFrame F) :=
  match get_column name df with
  | Some s => s' ← astype_int s; set_column name s' df
  | None => Ok df
  end.

Definition name_le (c1 c2 : string * series F) : Prop := String.le c1.1 c2.1.

Global Instance name_le_dec : RelDecision name_le.
Proof. intros c1 c2. unfold name_le. apply _. Defined.

(** [df.sort_index(axis=1)] *)
Definition sort_index (df : DataFrame F) : DataFrame F :=
  mkFrame (nrows df) (merge_sort name_le (columns df)).

(** [df[names]]: the listed columns, in the order listed. *)
Definition select_columns (names : list string) (df : DataFrame F)
  : result (DataFrame F) :=
  cols ← mapR (fun c => match get_column c df with
                        | Some s => Ok (c, s)
                        | None => Raise (KeyError c)
                        end) names;
  Ok (mkFrame (nrows df) cols).

(** [pd.DataFrame(rows, columns=names)] for a 2-D array. *)
Definition frame_of_rows (rows : list (list F)) (names : list string)
  : result (DataFrame F) :=
  if forallb (fun r => length r =? length names)%nat rows
  then Ok (mkFrame (length rows)
             (imap (fun j c => (c, Float64 ((fun r => default fnan (r !! j)) <$> rows)))
                   names))
  else Raise (ValueError "Shape of passed values does not match the columns" names).

End Pandas.

(** ** numpy.setdiff1d and the classifier check *)

(** [np.unique]: the sorted distinct values. *)
Definition unique (ar : list string) : list string :=
  merge_sort String.le (remove_dups ar).

(** [np.setdiff1d(ar1, ar2)]: the sorted distinct values of [ar1] that are
    not in [ar2]. *)
Definition setdiff1d (ar1 ar2 : list string) : list string :=
  filter (fun x => x ∉ ar2) (unique ar1).

Definition msg_clf_only : string :=
  "The following features are present in the classifier but not in the current features set:".
Definition msg_table_only : string :=
  "The following features are present in the current feature set but not in the classifier:".

(** ** Recordings, classifiers and the libraries the source calls *)

Record Raw (F : Type) : Type := mkRaw {
  info_sfreq : Q;                   (* raw.info['sfreq'] *)
  raw_ch_names : list string;       (* raw.ch_names *)
  raw_data : list (list F);         (* raw.get_data(), one row per channel *)
}.
Arguments mkRaw {F} _ _ _.
Arguments info_sfreq {F} r.
Arguments raw_ch_names {F} r.
Arguments raw_data {F} r.

Record welch_kwargs : Type := mkWelch {
  window : string;
  nperseg : Z;
  average : string;
}.

Record rolling_kwargs : Type := mkRolling {
  roll_window : nat;
  center : bool;
  min_periods : nat;
  win_type : option string;
}.

(** An [LGBMClassifier] as the source uses it. *)
Record Classifier (F : Type) : Type := mkClassifier {
  clf_feature_name_ : list string;
  classes_ : list string;
  clf_predict : DataFrame F → result (list string);
  clf_predict_proba : DataFrame F → result (list (list F));
}.
Arguments mkClassifier {F} _ _ _ _.
Arguments clf_feature_name_ {F} c.
Arguments classes_ {F} c.
Arguments clf_predict {F} c.
Arguments clf_predict_proba {F} c.

(** The library routines [staging.py] calls. None of them is defined in
    the source file; each may raise. *)
Class Lib (F : Type) : Type := {
  (* mne *)
  pick_channels : Raw F → list string → result (Raw F);
  resample : Raw F → Q → result (Raw F);
  filter_data : list F → Q → Q → Q → result (list F);
  (* yasa.others, yasa.spectral *)
  sliding_window : list F → Q → Q → result (list F * list (list F));
  bandpower_from_psd_ndarray :
    list (list F) → list F → list (Q * Q * string) → result (list (list F));
  (* scipy.stats, scipy.signal *)
  iqr : list (list F) → Q * Q → result (list F);
  skew : list (list F) → result (list F);
  kurtosis : list (list F) → result (list F);
  welch : list (list F) → Q → welch_kwargs → result (list F * list (list F));
  (* entropy *)
  perm_entropy : list F → bool → result F;
  higuchi_fd : list F → result F;
  (* pandas, scikit-learn *)
  rolling_mean : rolling_kwargs → list F → result (list F);
  robust_scale : list F → Q * Q → result (list F);
  (* os.path, joblib, the installed package *)
  isfile : string → bool;
  joblib_load : string → result (Classifier F);
  clf_dir : string;
  yasa_version : string;
}.

(** ** The heap and the state monad *)

Definition loc : Type := nat.

Inductive obj (F : Type) : Type :=
| ODict (d : dict pyval)
| OFrame (df : DataFrame F).
Arguments ODict {F} d.
Arguments OFrame {F} df.

(** Computations that read and write a state [S] and may raise; the state
    reached when an exception is raised is kept. *)
Definition M (S A : Type) : Type := S → S * result A.

Global Instance M_ret {S} : MRet (M S) := fun _ a s => (s, Ok a).
Global Instance M_bind {S} : MBind (M S) := fun _ _ f m s =>
  match m s with
  | (s', Ok a) => f a s'
  | (s', Raise e) => (s', Raise e)
  end.

Definition lift {S A} (r : result A) : M S A := fun s => (s, r).
Definition gets {S A} (f : S → A) : M S A := fun s => (s, Ok (f s)).
Definition modify {S} (f : S → S) : M S unit := fun s => (f s, Ok tt).

Inductive ch_type : Type := eeg | eog | emg.

Global Instance ch_type_eq_dec : EqDecision ch_type.
Proof. solve_decision. Defined.

Definition ch_type_str (c : ch_type) : string :=
  match c with eeg => "eeg" | eog => "eog" | emg => "emg" end.

(** The attributes of a [SleepStaging] instance; an attribute that has
    not been set yet is [None]. *)
Record SleepStaging (F : Type) : Type := mkSleepStaging {
  sf : Q;
  ch_names : list string;
  ch_types : list ch_type;
  data : list (list F);
  metadata : option loc;
  _features : option loc;
  feature_name_ : option (list string);
  _predicted : option (list string);
  _proba : option loc;
}.
Arguments mkSleepStaging {F} _ _ _ _ _ _ _ _ _.
Arguments sf {F} s.
Arguments ch_names {F} s.
Arguments ch_types {F} s.
Arguments data {F} s.
Arguments metadata {F} s.
Arguments _features {F} s.
Arguments feature_name_ {F} s.
Arguments _predicted {F} s.
Arguments _proba {F} s.

(** The state a method runs in: the heap and the instance. *)
Record world (F : Type) : Type := mkWorld {
  heap : list (obj F);
  instance : SleepStaging F;
}.
Arguments mkWorld {F} _ _.
Arguments heap {F} w.
Arguments instance {F} w.

Section Heap.
Context {F : Type}.

(** A new object gets the next free reference. *)
Definition new (o : obj F) : M (list (obj F)) loc :=
  fun h => (h ++ [o], Ok (length h)).

Definition store (l : loc) (o : obj F) : M (list (obj F)) unit :=
  modify (fun h => <[l := o]> h).

Definition load_dict (l : loc) : M (list (obj F)) (dict pyval) :=
  fun h => (h, match h !! l with
               | Some (ODict d) => Ok d
               | _ => Raise (AttributeError "keys")
               end).

Definition load_frame (l : loc) : M (list (obj F)) (DataFrame F) :=
  fun h => (h, match h !! l with
               | Some (OFrame df) => Ok df
               | _ => Raise (AttributeError "copy")
               end).

(** [df.copy()] *)
Definition copy_frame (l : loc) : M (list (obj F)) loc :=
  df ← load_frame l; new (OFrame df).

(** A heap computation run by a method. *)
Definition on_heap {A} (m : M (list (obj F)) A) : M (world F) A :=
  fun w => let '(h, r) := m (heap w) in (mkWorld h (instance w), r).

Definition set_self (f : SleepStaging F → SleepStaging F) : M (world F) unit :=
  modify (fun w => mkWorld (heap w) (f (instance w))).

Definition set__features (l : loc) (names : list string) (s : SleepStaging F) :=
  mkSleepStaging (sf s) (ch_names s) (ch_types s) (data s) (metadata s)
    (Some l) (Some names) (_predicted s) (_proba s).

Definition set__predicted (p : list string) (s : SleepStaging F) :=
  mkSleepStaging (sf s) (ch_names s) (ch_types s) (data s) (metadata s)
    (_features s) (feature_name_ s) (Some p) (_proba s).

Definition set__proba (l : loc) (s : SleepStaging F) :=
  mkSleepStaging (sf s) (ch_names s) (ch_types s) (data s) (metadata s)
    (_features s) (feature_name_ s) (_predicted s) (Some l).
End Heap.

(** ** SleepStaging *)

Section SleepStaging.
Context {F : Type} {num : Numeric F} {lib : Lib F}.

(** *** __init__ *)

(** The metadata block of the constructor. [metadata['male'] = int(...)]
    writes into the dict the caller passed. *)
Definition validate_metadata (l : loc) : M (list (obj F)) unit :=
  d ← load_dict l;
  _ ← (if dict_mem "age" d
       then age ← lift (dict_item "age" d);
            lift (assert (Qltb 0 (py_num age) && Qltb (py_num age) 120)
                    "age must be between 0 and 120.")
       else mret tt);
  if dict_mem "male" d
  then male ← lift (dict_item "male" d);
       _ ← store l (ODict (dict_set "male" (PInt (py_int male)) d));
       lift (assert (bool_decide (py_int male ∈ [0; 1]%Z)) "male must be 0 or 1.")
  else mret tt.

(** The loop over [ch_names]: a name that is given must be a channel of
    the recording. *)
Definition keep_channel (raw : Raw F) (c : option string) : result bool :=
  match c with
  | Some c =>
      _ ← assert (bool_decide (c ∈ raw_ch_names raw)) (c +:+ " does not exist");
      Ok true
  | None => Ok false
  end.

(** [arr[keep_chan].tolist()] *)
Definition subset {A} (arr : list A) (keep : list bool) : list A :=
  zip arr keep ≫= (fun p : A * bool => if p.2 then [p.1] else []).

(** [data.shape[1]] *)
Definition shape1 {A} (x : list (list A)) : nat :=
  match x with
  | r :: _ => length r
  | [] => 0
  end.

(** The part of the constructor that follows the metadata block: the
    channels, the sampling frequency, the data and its duration. *)
Definition load_recording (raw : Raw F) (eeg_name : string)
    (eog_name emg_name : option string) (metadata : option loc)
  : result (SleepStaging F) :=
  let sf := info_sfreq raw in
  let ch_names := [Some eeg_name; eog_name; emg_name] in
  let ch_types := [eeg; eog; emg] in
  keep_chan ← mapR (keep_channel raw) ch_names;
  let ch_names := subset ch_names keep_chan ≫= option_list in
  let ch_types := subset ch_types keep_chan in
  raw_pick ← pick_channels raw ch_names;
  _ ← assert (Qltb 80 sf) "Sampling frequency must be at least 80 Hz.";
  '(raw_pick, sf) ← (if negb (Qeq_bool sf 100)
                     then r ← resample raw_pick 100; Ok (r, 100%Q)
                     else Ok (raw_pick, sf));
  let data := (fun row : list F => (fun x => fmul x (of_Q 1000000)) <$> row)
                <$> raw_data raw_pick in
  let duration_minutes := (inject_Z (Z.of_nat (shape1 data)) / sf / 60)%Q in
  _ ← assert (Qle_bool 5 duration_minutes)
        "At least 5 minutes of data is required.";
  Ok (mkSleepStaging sf ch_names ch_types data metadata None None None None).

Definition __init__ (raw : Raw F) (eeg_name : string)
    (eog_name emg_name : option string) (metadata : option loc)
  : M (list (obj F)) (SleepStaging F) :=
  _ ← match metadata with
      | Some l => validate_metadata l
      | None => mret tt
      end;
  lift (load_recording raw eeg_name eog_name emg_name metadata).

(** *** fit: parameters and helper functions *)

Definition freq_broad : Q * Q := (4 # 10, 30)%Q.
Definition win_sec : Q := 5.

(** [int(x)] for a float [x] *)
Definition Qint (x : Q) : Z := Z.quot (Qnum x) (Z.pos (Qden x)).

Definition kwargs_welch (sf : Q) : welch_kwargs :=
  mkWelch "hamming" (Qint (win_sec * sf)) "median".

Definition bands : list (Q * Q * string) :=
  [(4 # 10, 1, "sdelta"); (1, 4, "fdelta"); (4, 8, "theta");
   (8, 12, "alpha"); (12, 16, "sigma"); (16, 30, "beta")]%Q.

(** [x[..., :-1]] and [x[..., 1:]] on one row *)
Definition but_last {A} (r : list A) : list A := take (length r - 1) r.
Definition but_first {A} (r : list A) : list A := drop 1 r.

(** [np.diff(x, axis=1)] on one row *)
Definition diff (r : list F) : list F :=
  zip_with fsub (but_first r) (but_last r).

(** [nzc] on one row: the sum of the booleans
    [(x[:-1] * x[1:]) < 0]. *)
Definition nzc_row (r : list F) : Z :=
  Z.of_nat (sum_list_with (fun p => Nat.b2n (fltb p (of_Z 0)))
              (zip_with fmul (but_last r) (but_first r))).

Definition nzc (x : list (list F)) : list Z := nzc_row <$> x.

Definition mobility (x : list (list F)) : list F :=
  (fun r => fsqrt (fdiv (fvar (diff r)) (fvar r))) <$> x.

Definition petrosian (x : list (list F)) : list F :=
  let n := Z.of_nat (shape1 x) in
  let ln10 := flog10 (of_Z n) in
  let diff := diff <$> x in
  (fun k => fdiv ln10
              (fadd ln10
                 (flog10 (fdiv (of_Z n)
                            (fadd (of_Z n) (fmul (of_Q (4 # 10)) (of_Z k)))))))
    <$> nzc diff.

(** *** fit: the features of one channel *)

(** An arithmetic operation on two 1-D arrays. *)
Definition np_binop (op : F → F → F) (a b : list F) : result (list F) :=
  if (length a =? length b)%nat then Ok (zip_with op a b)
  else match a, b with
       | [x], _ => Ok (op x <$> b)
       | _, [y] => Ok ((fun x => op x y) <$> a)
       | _, _ => Raise (ValueError "operands could not be broadcast together" [])
       end.

(** [a[i]] *)
Definition item {A} (a : list A) (i : nat) : result A :=
  match a !! i with
  | Some x => Ok x
  | None => Raise (IndexError "index out of bounds")
  end.

(** [row[mask]] for a boolean mask *)
Definition mask_select (mask : list bool) (row : list F) : result (list F) :=
  if (length row =? length mask)%nat then Ok (subset row mask)
  else Raise (IndexError "boolean index did not match indexed array").

(** [np.apply_along_axis(f, axis=1, arr=x)] *)
Definition apply_along_axis (f : list F → result F) (x : list (list F))
  : result (list F) :=
  match x with
  | [] => Raise (ValueError
            "Cannot apply_along_axis when any iteration dimensions are 0" [])
  | _ => mapR f x
  end.

(** [feat[name]] as an array *)
Definition feat_item (name : string) (feat : dict (series F)) : result (list F) :=
  as_float <$> dict_item name feat.

(** [for j, (_, _, b) in enumerate(bands): feat[b] = bp[j]] *)
Fixpoint set_bands (bp : list (list F)) (j : nat) (bs : list (Q * Q * string))
    (feat : dict (series F)) : result (dict (series F)) :=
  match bs with
  | [] => Ok feat
  | (_, _, b) :: bs' =>
      row ← item bp j;
      set_bands bp (S j) bs' (dict_set b (Float64 row) feat)
  end.

(** The body of the loop over the channels, after the preprocessing:
    the features of the channel's epochs. *)
Definition epoch_features (sf : Q) (c : ch_type) (epochs : list (list F))
  : result (DataFrame F) :=
  let hmob := mobility epochs in
  let v_std := fstd 1 <$> epochs in
  v_iqr ← iqr epochs (25, 75)%Q;
  v_skew ← skew epochs;
  v_kurt ← kurtosis epochs;
  let feat : dict (series F) :=
    [("std", Float64 v_std); ("iqr", Float64 v_iqr); ("skew", Float64 v_skew);
     ("kurt", Float64 v_kurt); ("nzc", Int64 (nzc epochs)); ("hmob", Float64 hmob);
     ("hcomp", Float64 (zip_with fdiv (mobility (diff <$> epochs)) hmob))] in
  '(freqs, psd) ← welch epochs sf (kwargs_welch sf);
  feat ← (if decide (c ≠ emg)
          then bp ← bandpower_from_psd_ndarray psd freqs bands;
               set_bands bp 0 bands feat
          else Ok feat);
  feat ← (if decide (c = eeg)
          then sdelta ← feat_item "sdelta" feat;
               fdelta ← feat_item "fdelta" feat;
               delta ← np_binop fadd sdelta fdelta;
               theta ← feat_item "theta" feat;
               dt ← np_binop fdiv delta theta;
               let feat := dict_set "dt" (Float64 dt) feat in
               sigma ← feat_item "sigma" feat;
               ds ← np_binop fdiv delta sigma;
               let feat := dict_set "ds" (Float64 ds) feat in
               beta ← feat_item "beta" feat;
               db ← np_binop fdiv delta beta;
               let feat := dict_set "db" (Float64 db) feat in
               alpha ← feat_item "alpha" feat;
               theta ← feat_item "theta" feat;
               at_ ← np_binop fdiv alpha theta;
               Ok (dict_set "at" (Float64 at_) feat)
          else Ok feat);
  let idx_broad :=
    (fun f => fleb (of_Q freq_broad.1) f && fleb f (of_Q freq_broad.2)) <$> freqs in
  f1 ← item freqs 1;
  f0 ← item freqs 0;
  let dx := fsub f1 f0 in
  psd_broad ← mapR (mask_select idx_broad) psd;
  let feat := dict_set "abspow" (Float64 ((fun y => trapz y dx) <$> psd_broad)) feat in
  perm ← apply_along_axis (fun r => perm_entropy r true) epochs;
  let feat := dict_set "perm" (Float64 perm) feat in
  higuchi ← apply_along_axis higuchi_fd epochs;
  let feat := dict_set "higuchi" (Float64 higuchi) feat in
  let feat := dict_set "petrosian" (Float64 (petrosian epochs)) feat in
  df ← frame_of_dict feat;
  Ok (add_prefix (ch_type_str c +:+ "_") df).

(** The body of the loop over the channels: the start times of the
    epochs and the channel's features. *)
Definition channel_features (sf : Q) (c : ch_type) (x : list F)
  : result (list F * DataFrame F) :=
  dt_filt ← filter_data x sf freq_broad.1 freq_broad.2;
  '(times, epochs) ← sliding_window dt_filt sf 30;
  df ← epoch_features sf c epochs;
  Ok (times, df).

(** [for i, c in enumerate(self.ch_types)] *)
Fixpoint channels_loop (sf : Q) (data : list (list F)) (i : nat)
    (cs : list ch_type) : result (list (list F * DataFrame F)) :=
  match cs with
  | [] => Ok []
  | c :: cs' =>
      x ← item data i;
      r ← channel_features sf c x;
      rs ← channels_loop sf data (S i) cs';
      Ok (r :: rs)
  end.

(** *** fit: smoothing and normalization *)

Definition rollc_kwargs : rolling_kwargs := mkRolling 11 true 1 (Some "triang").
Definition rollp_kwargs : rolling_kwargs := mkRolling 10 false 1 None.

(** An array stored as a column of a frame with [n] rows. *)
Definition as_column (n : nat) (r : list F) : result (list F) :=
  if (length r =? n)%nat then Ok r
  else Raise (ValueError "Shape of passed values does not match the index" []).

(** [features.rolling(...).mean()] with the keyword arguments [kw],
    followed by [robust_scale(..., quantile_range=(5, 95))], column by
    column. *)
Definition rolling_norm (kw : rolling_kwargs) (features : DataFrame F)
  : result (DataFrame F) :=
  let n := nrows features in
  cols ← mapR (fun c : string * series F =>
                 r ← rolling_mean kw (as_float c.2);
                 r ← as_column n r;
                 Ok (c.1, r)) (columns features);
  cols ← mapR (fun c : string * list F =>
                 r ← robust_scale c.2 (5, 95)%Q;
                 r ← as_column n r;
                 Ok (c.1, Float64 r)) cols;
  Ok (mkFrame n cols).

(** The table after [features = features.join(rollc).join(rollp)]. *)
Definition smooth (features : DataFrame F) : result (DataFrame F) :=
  rollc ← rolling_norm rollc_kwargs features;
  let rollc := add_suffix "_c5min_norm" rollc in
  rollp ← rolling_norm rollp_kwargs features;
  let rollp := add_suffix "_p5min_norm" rollp in
  features ← join features rollc;
  join features rollp.

(** *** fit: temporal features, metadata and export *)

Definition add_temporal (times : list F) (features : DataFrame F)
  : result (DataFrame F) :=
  features ← set_column "time_hour"
               (Float64 ((fun t => fdiv t (of_Z 3600)) <$> times)) features;
  t_last ← match last times with
           | Some t => Ok t
           | None => Raise (IndexError "index -1 is out of bounds")
           end;
  set_column "time_norm" (Float64 ((fun t => fdiv t t_last) <$> times)) features.

(** [for c in self.metadata.keys(): features[c] = self.metadata[c]] *)
Definition add_metadata (md : dict pyval) (features : DataFrame F) : DataFrame F :=
  foldl (fun df kv => set_scalar kv.1 kv.2 df) features md.

Definition export (features : DataFrame F) : result (DataFrame F) :=
  let features := downcast features in
  features ← encode_int "age" features;
  features ← encode_int "male" features;
  Ok (sort_index features).

(** The table [fit] computes; [md] is the dict [self.metadata] refers
    to, if any. *)
Definition fit_features (self : SleepStaging F) (md : option (dict pyval))
  : result (DataFrame F) :=
  per_channel ← channels_loop (sf self) (data self) 0 (ch_types self);
  features ← concat per_channel.*2;
  features ← smooth features;
  times ← match last per_channel with
          | Some r => Ok r.1
          | None => Raise (ValueError "No objects to concatenate" [])
          end;
  features ← add_temporal times features;
  let features := match md with
                  | Some d => add_metadata d features
                  | None => features
                  end in
  export features.

Definition fit : M (world F) unit :=
  self ← gets instance;
  md ← match metadata self with
       | Some l => d ← on_heap (load_dict l); mret (Some d)
       | None => mret None
       end;
  features ← lift (fit_features self md);
  l ← on_heap (new (OFrame features));
  set_self (set__features l (column_names features)).

(** *** get_features, prediction *)

Definition get_features : M (world F) loc :=
  self ← gets instance;
  _ ← (if _features self is None then fit else mret tt);
  self ← gets instance;
  match _features self with
  | Some l => on_heap (copy_frame l)
  | None => lift (Raise (AttributeError "_features"))
  end.

Definition _validate_predict (self : SleepStaging F) (clf : Classifier F)
  : result unit :=
  match feature_name_ self with
  | None => Raise (AttributeError "feature_name_")
  | Some names =>
      let f_diff := setdiff1d (clf_feature_name_ clf) names in
      if negb (length f_diff =? 0)%nat
      then Raise (ValueError msg_clf_only f_diff)
      else
        let f_diff := setdiff1d names (clf_feature_name_ clf) in
        if negb (length f_diff =? 0)%nat
        then Raise (ValueError msg_table_only f_diff)
        else Ok tt
  end.

Definition model_path (self : SleepStaging F) (path_to_model : string) : string :=
  if decide (path_to_model = "auto")
  then
    let name := "clf_eeg" in
    let name := if bool_decide (eog ∈ ch_types self) then name +:+ "+eog" else name in
    let name := if bool_decide (emg ∈ ch_types self) then name +:+ "+emg" else name in
    let name := if metadata self is Some _ then name +:+ "+demo" else name in
    clf_dir +:+ name +:+ "_lgb_" +:+ yasa_version +:+ ".joblib"
  else path_to_model.

Definition _load_model (path_to_model : string) : M (world F) (Classifier F) :=
  self ← gets instance;
  let path_to_model := model_path self path_to_model in
  _ ← lift (assert (isfile path_to_model) "File does not exist.");
  clf ← lift (joblib_load path_to_model);
  _ ← lift (_validate_predict self clf);
  mret clf.

Definition predict (path_to_model : string) : M (world F) (list string) :=
  self ← gets instance;
  _ ← (if _features self is None then fit else mret tt);
  clf ← _load_model path_to_model;
  self ← gets instance;
  features ← match _features self with
             | Some l => on_heap (load_frame l)
             | None => lift (Raise (AttributeError "_features"))
             end;
  X ← lift (select_columns (clf_feature_name_ clf) features);
  predicted ← lift (clf_predict clf X);
  _ ← set_self (set__predicted predicted);
  p ← lift (clf_predict_proba clf X);
  proba ← lift (frame_of_rows p (classes_ clf));
  l ← on_heap (new (OFrame proba));
  _ ← set_self (set__proba l);
  mret predicted.

Definition predict_proba (path_to_model : string) : M (world F) loc :=
  self ← gets instance;
  _ ← (if _proba self is None
       then _ ← predict path_to_model; mret tt
       else mret tt);
  self ← gets instance;
  match _proba self with
  | Some l => on_heap (copy_frame l)
  | None => lift (Raise (AttributeError "_proba"))
  end.

End SleepStaging.

(** ** Reference routines for the library calls

    scikit-learn's [robust_scale], numpy's percentile and pandas' rolling
    means are not part of the source file, and the theorems about the
    pipeline hold for every implementation of them (the fields of
    [Lib]). The routines below follow their documentation on rationals
    instead of float64; they serve to run the pipeline on examples and
    say nothing of the values the libraries compute on float64. A
    missing value (NaN, or any non-finite float) is [None]. *)

Global Instance Qcle_dec : RelDecision Qcle.
Proof.
  intros x y. destruct (Qle_bool x y) eqn:E; [left|right].
  - by apply Qle_bool_iff.
  - intros Hle. apply Qle_bool_iff in Hle. congruence.
Defined.

Definition Qc_of_nat (n : nat) : Qc := Q2Qc (inject_Z (Z.of_nat n)).

(** [np.percentile(a, q)] with linear interpolation: the value at the
    fractional position [(len(a) - 1) * q / 100] of the sorted array. *)
Definition percentile (a : list Qc) (q : Qc) : Qc :=
  let s := merge_sort Qcle a in
  let h := (Qc_of_nat (length a - 1) * q / Q2Qc 100)%Qc in
  let lo := Z.to_nat (Qfloor h) in
  let hi := Nat.min (S lo) (length a - 1) in
  let x_lo := default 0%Qc (s !! lo) in
  let x_hi := default 0%Qc (s !! hi) in
  (x_lo + (h - Qc_of_nat lo) * (x_hi - x_lo))%Qc.

(** [RobustScaler.fit]: the median and the quantile range of a column; a
    range of zero is replaced by one. *)
Definition robust_center (x : list Qc) : Qc := percentile x (Q2Qc 50).

Definition robust_range (x : list Qc) (quantile_range : Q * Q) : Qc :=
  (percentile x (Q2Qc quantile_range.2) - percentile x (Q2Qc quantile_range.1))%Qc.

Definition handle_zeros_in_scale (scale : Qc) : Qc :=
  if decide (scale = 0%Qc) then 1%Qc else scale.

Definition valid_quantile_range (quantile_range : Q * Q) : bool :=
  Qle_bool 0 quantile_range.1 && Qle_bool quantile_range.1 quantile_range.2
  && Qle_bool quantile_range.2 100.

(** [sklearn.preprocessing.robust_scale(x, quantile_range=...)] on one
    column: missing values are left out of the statistics and stay
    missing in the result. *)
Definition robust_scale_nan (x : list (option Qc)) (quantile_range : Q * Q)
  : result (list (option Qc)) :=
  match x with
  | [] => Raise (ValueError "Found array with 0 sample(s)" [])
  | _ =>
      if valid_quantile_range quantile_range
      then
        match omap id x with
        | [] => Ok x
        | present =>
            let center := robust_center present in
            let scale := handle_zeros_in_scale (robust_range present quantile_range) in
            Ok (fmap (M := option) (fun v => (v - center) / scale)%Qc <$> x)
        end
      else Raise (ValueError "Invalid quantile range" [])
  end.

(** [scipy.signal.windows.triang(m)] *)
Definition triang (m : nat) : list Qc :=
  let half := (fun n => if Nat.even m
                        then Q2Qc (inject_Z (2 * Z.of_nat n - 1) / inject_Z (Z.of_nat m))
                        else Q2Qc (inject_Z (2 * Z.of_nat n) / inject_Z (Z.of_nat m + 1)))
              <$> seq 1 ((m + 1) / 2) in
  half ++ (if Nat.even m then reverse half else drop 1 (reverse half)).

Definition sumQc (l : list Qc) : Qc := foldr Qcplus 0%Qc l.

(** One value of [x.rolling(window, center, min_periods, win_type).mean()]:
    the weighted mean of the observations of the window that exist and
    are not missing, if there are at least [min_periods] of them. *)
Definition rolling_at (kw : rolling_kwargs) (weights : list Qc)
    (x : list (option Qc)) (i : nat) : option Qc :=
  let w := roll_window kw in
  let offset := if center kw then ((w - 1) / 2)%nat else 0%nat in
  let obs :=
    omap (fun kwt : nat * Qc =>
            if (i + offset + kwt.1 <? w - 1)%nat then None
            else v ← mjoin (x !! (i + offset + kwt.1 - (w - 1))%nat); Some (kwt.2, v))
         (zip (seq 0 w) weights) in
  if (length obs <? min_periods kw)%nat || (length obs =? 0)%nat then None
  else Some (sumQc ((fun p : Qc * Qc => p.1 * p.2)%Qc <$> obs) / sumQc obs.*1)%Qc.

Definition rolling_mean_exact (kw : rolling_kwargs) (x : list (option Qc))
  : result (list (option Qc)) :=
  match win_type kw with
  | None => Ok (rolling_at kw (replicate (roll_window kw) 1%Qc) x <$> seq 0 (length x))
  | Some wt =>
      if decide (wt = "triang")
      then Ok (rolling_at kw (triang (roll_window kw)) x <$> seq 0 (length x))
      else Raise (ValueError "Invalid window" [wt])
  end.

(** ** A reference instance, for running the pipeline

    Floats are rationals or missing ([None] stands for NaN and for the
    infinities). Arithmetic is exact; the square root and the logarithm
    are rounded down to a fixed number of decimals. *)

Abbreviation xfloat := (option Qc).

(** An integer as a float. *)
Definition xint (z : Z) : xfloat := Some (Q2Qc (inject_Z z)).

Definition lift2 (op : Qc → Qc → Qc) (x y : xfloat) : xfloat :=
  a ← x; b ← y; Some (op a b).

Definition xdiv (x y : xfloat) : xfloat :=
  a ← x; b ← y; if decide (b = 0%Qc) then None else Some (a / b)%Qc.

Definition xsqrt (x : xfloat) : xfloat :=
  a ← x;
  if Qle_bool 0 (a : Qc)
  then Some (Q2Qc (inject_Z (Z.sqrt (Qfloor (a * 1000000000000))) / 1000000))
  else None.

(** The number of decimal digits of a positive integer. *)
Fixpoint digits10 (fuel : nat) (z : Z) : Z :=
  match fuel with
  | O => 1
  | S fuel' => if (z <? 10)%Z then 1 else (1 + digits10 fuel' (z / 10))%Z
  end.

Definition xlog10 (x : xfloat) : xfloat :=
  a ← x;
  if Qle_bool (a : Qc) 0 then None
  else
    let floor_log (b : Qc) : Z :=
      let z := Qfloor (b ^ 100)%Qc in (digits10 (Z.to_nat (Z.log2 z)) z - 1)%Z in
    if Qle_bool 1 a
    then Some (Q2Qc (inject_Z (floor_log a) / 100))
    else Some (Q2Qc (- inject_Z (floor_log (/ a)%Qc) / 100)).

Definition mean (l : list Qc) : xfloat :=
  match l with
  | [] => None
  | _ => Some (sumQc l / Qc_of_nat (length l))%Qc
  end.

(** The values of an array if none is missing. *)
Definition all_present (x : list xfloat) : option (list Qc) := mapM id x.

Definition sum_sq_dev (l : list Qc) (m : Qc) : Qc :=
  sumQc ((fun v => (v - m) * (v - m))%Qc <$> l).

Definition xvar (ddof : nat) (x : list xfloat) : xfloat :=
  l ← all_present x;
  m ← mean l;
  if (length l <=? ddof)%nat then None
  else Some (sum_sq_dev l m / Qc_of_nat (length l - ddof))%Qc.

Definition xtrapz (y : list xfloat) (dx : xfloat) : xfloat :=
  l ← all_present y;
  d ← dx;
  Some (d * sumQc (zip_with (fun a b => (a + b) / Q2Qc 2)%Qc (but_last l) (but_first l)))%Qc.

(** Rounding to a multiple of [2^-16], in place of the rounding to 24
    significant bits. *)
Definition xfloat32 (x : xfloat) : xfloat :=
  a ← x; Some (Q2Qc (inject_Z (Qfloor ((a : Qc) * 65536)) / 65536)).

Global Instance xfloat_numeric : Numeric xfloat := {|
  fadd := lift2 Qcplus;
  fsub := lift2 Qcminus;
  fmul := lift2 Qcmult;
  fdiv := xdiv;
  fsqrt := xsqrt;
  flog10 := xlog10;
  fltb x y := match x, y with Some a, Some b => Qltb a b | _, _ => false end;
  fleb x y := match x, y with Some a, Some b => Qle_bool a b | _, _ => false end;
  of_Z := xint;
  of_Q q := Some (Q2Qc q);
  fnan := None;
  fvar := xvar 0;
  fstd ddof x := xsqrt (xvar ddof x);
  trapz := xtrapz;
  to_float32 := xfloat32;
  to_int x := (fun a : Qc => Qint a) <$> x;
|}.

(** [raw.copy().pick_channels(names, ordered=True)] *)
Definition pick_rows (raw : Raw xfloat) (names : list string) : result (Raw xfloat) :=
  rows ← mapR (fun c => match dict_get c (zip (raw_ch_names raw) (raw_data raw)) with
                        | Some r => Ok r
                        | None => Raise (ValueError "Missing channels" [c])
                        end) names;
  Ok (mkRaw (info_sfreq raw) names rows).

(** Resampling by taking the nearest earlier sample (mne resamples in the
    frequency domain). *)
Definition resample_nearest (raw : Raw xfloat) (sfreq : Q) : result (Raw xfloat) :=
  let pick (r : list xfloat) : list xfloat :=
    let n := Z.to_nat (Qfloor (inject_Z (Z.of_nat (length r)) * sfreq / info_sfreq raw)) in
    (fun i => default None
                (r !! Z.to_nat (Qfloor (inject_Z (Z.of_nat i) * info_sfreq raw / sfreq))))
      <$> seq 0 n in
  Ok (mkRaw sfreq (raw_ch_names raw) (pick <$> raw_data raw)).

(** The epochs of [window] seconds and their start times. *)
Fixpoint chunks {A} (size : nat) (count : nat) (l : list A) : list (list A) :=
  match count with
  | O => []
  | S count' => take size l :: chunks size count' (drop size l)
  end.

Definition sliding_window_exact (x : list xfloat) (sf window : Q)
  : result (list xfloat * list (list xfloat)) :=
  let size := Z.to_nat (Qint (window * sf)) in
  if (size =? 0)%nat then Raise (ValueError "window is empty" [])
  else
    let count := (length x / size)%nat in
    Ok ((fun i => Some (Q2Qc (inject_Z (Z.of_nat i) * window))) <$> seq 0 count,
        chunks size count x).

(** A spectrum of the right shape: the frequencies are scipy's, the
    power at the k-th frequency is the square of the k-th sample. *)
Definition welch_shape (x : list (list xfloat)) (sf : Q) (kw : welch_kwargs)
  : result (list xfloat * list (list xfloat)) :=
  let nfreq := Z.to_nat (nperseg kw / 2 + 1) in
  if (nperseg kw <=? 0)%Z then Raise (ValueError "nperseg must be a positive integer" [])
  else Ok ((fun k => Some (Q2Qc (inject_Z (Z.of_nat k) * sf / inject_Z (nperseg kw))))
             <$> seq 0 nfreq,
           (fun r => (fun v : xfloat => lift2 Qcmult v v) <$> take nfreq r) <$> x).

(** Relative power of each band: the sum of the spectrum over the band by
    the sum over all bands. *)
Definition bandpower_sum (psd : list (list xfloat)) (freqs : list xfloat)
    (bs : list (Q * Q * string)) : result (list (list xfloat)) :=
  let in_band (lo hi : Q) (f : xfloat) : bool :=
    match f with
    | Some a => Qle_bool lo a && Qltb a hi
    | None => false
    end in
  let power (lo hi : Q) (row : list xfloat) : xfloat :=
    foldr (lift2 Qcplus) (Some 0%Qc)
      (zip row freqs ≫= (fun p : xfloat * xfloat => if in_band lo hi p.2 then [p.1] else [])) in
  let total (row : list xfloat) : xfloat :=
    foldr (lift2 Qcplus) (Some 0%Qc) ((fun b : Q * Q * string => power b.1.1 b.1.2 row) <$> bs) in
  Ok ((fun b : Q * Q * string =>
         (fun row => xdiv (power b.1.1 b.1.2 row) (total row)) <$> psd) <$> bs).

(** Moment statistics of an epoch. *)
Definition central_moment (k : nat) (x : list xfloat) : xfloat :=
  l ← all_present x;
  m ← mean l;
  mean ((fun v => (v - m) ^ k)%Qc <$> l).

Definition skew_row (x : list xfloat) : xfloat :=
  let m2 := central_moment 2 x in
  xdiv (central_moment 3 x) (lift2 Qcmult m2 (xsqrt m2)).

Definition kurtosis_row (x : list xfloat) : xfloat :=
  let m2 := central_moment 2 x in
  lift2 Qcminus (xdiv (central_moment 4 x) (lift2 Qcmult m2 m2)) (Some (Q2Qc 3)).

Definition iqr_row (rng : Q * Q) (x : list xfloat) : xfloat :=
  l ← all_present x;
  match l with
  | [] => None
  | _ => Some (percentile l (Q2Qc rng.2) - percentile l (Q2Qc rng.1))%Qc
  end.

(** In place of the entropy and the fractal dimension: the share of
    ascents among the steps of the epoch, and the mean absolute step. *)
Definition ascent_share (x : list xfloat) (normalize : bool) : result xfloat :=
  Ok (l ← all_present x;
      mean ((fun d : Qc => if Qltb 0 d then 1%Qc else 0%Qc)
              <$> zip_with Qcminus (but_first l) (but_last l))).

Definition mean_abs_step (x : list xfloat) : result xfloat :=
  Ok (l ← all_present x;
      mean ((fun d : Qc => if Qltb d 0 then (- d)%Qc else d)
              <$> zip_with Qcminus (but_first l) (but_last l))).

(** A classifier that labels every epoch with its first class. *)
Definition stub_classifier (names classes : list string) : Classifier xfloat :=
  mkClassifier names classes
    (fun X => Ok (replicate (nrows X) (default "" (head classes))))
    (fun X => Ok (replicate (nrows X)
                    (imap (fun j _ => if (j =? 0)%nat then Some 1%Qc else Some 0%Qc) classes))).

(** A filter that returns the signal as it is, and one that refuses a
    signal with a missing value. *)
Definition filter_identity (x : list xfloat) (sf l_freq h_freq : Q)
  : result (list xfloat) := Ok x.

Definition filter_checked (x : list xfloat) (sf l_freq h_freq : Q)
  : result (list xfloat) :=
  match all_present x with
  | Some _ => Ok x
  | None => Raise (LibraryError "filter_data")
  end.

Section ReferenceLib.
(** The filter in use and the model files that exist. *)
Variable filter : list xfloat → Q → Q → Q → result (list xfloat).
Variable files : list (string * Classifier xfloat).

Definition reference_lib_with : Lib xfloat := {|
  pick_channels := pick_rows;
  resample := resample_nearest;
  filter_data := filter;
  sliding_window := sliding_window_exact;
  bandpower_from_psd_ndarray := bandpower_sum;
  iqr x rng := Ok (iqr_row rng <$> x);
  skew x := Ok (skew_row <$> x);
  kurtosis x := Ok (kurtosis_row <$> x);
  welch := welch_shape;
  perm_entropy := ascent_share;
  higuchi_fd := mean_abs_step;
  rolling_mean := rolling_mean_exact;
  robust_scale := robust_scale_nan;
  isfile path := dict_mem path files;
  joblib_load path := dict_item path files;
  clf_dir := "yasa/classifiers/";
  yasa_version := "0.4.0";
|}.
End ReferenceLib.

Definition reference_lib (files : list (string * Classifier xfloat)) : Lib xfloat :=
  reference_lib_with filter_identity files.

(** The reference libraries without any model file. *)
Global Instance reference_lib_no_files : Lib xfloat := reference_lib [].

(** Two channels of silence: [minutes] minutes at [sfreq] Hz. *)
Definition silent_recording (sfreq : Q) (minutes : Z) : Raw xfloat :=
  let n := Z.to_nat (Qint (sfreq * 60 * inject_Z minutes)) in
  mkRaw sfreq ["C4"; "LOC"] [replicate n (xint 0); replicate n (xint 0)].

(** A short two-channel example at 1 Hz: three epochs of 30 samples, and
    the start of a fourth. *)
Definition example_eeg : list xfloat :=
  (fun i => xint (Z.of_nat i * Z.of_nat i mod 7 - 3)) <$> seq 0 95.
Definition example_eog : list xfloat :=
  (fun i => xint (Z.of_nat i * 5 mod 11 - 4)) <$> seq 0 95.

Definition example_instance (metadata : option loc) : SleepStaging xfloat :=
  mkSleepStaging 1 ["C4"; "LOC"] [eeg; eog] [example_eeg; example_eog]
    metadata None None None None.

(** The same recording with a missing value in the EEG channel. *)
Definition example_nan_instance : SleepStaging xfloat :=
  mkSleepStaging 1 ["C4"; "LOC"] [eeg; eog] [<[40%nat := None]> example_eeg; example_eog]
    None None None None None.

(** A model file for the example: a classifier that requires the columns
    of the example's feature table. *)
Definition example_files : list (string * Classifier xfloat) :=
  [("yasa/classifiers/clf_eeg+eog_lgb_0.4.0.joblib",
    stub_classifier
      match fit_features (example_instance None) None with
      | Ok t => column_names t
      | Raise _ => []
      end
      ["N1"; "N2"; "N3"; "R"; "W"])].

(** A table of two base columns, three epochs. *)
Definition example_base_table : DataFrame xfloat :=
  mkFrame 3 [("eeg_std", Float64 (xint <$> [1; 2; 4]%Z));
             ("eeg_nzc", Int64 [16; 15; 17]%Z)].

(** The metadata dict of a caller. *)
Definition caller_metadata : dict pyval :=
  [("age", PFloat (18 # 10)); ("male", PBool false); ("site", PInt 7)].

(** An instance that has cached a probability table. *)
Definition example_proba : DataFrame xfloat :=
  mkFrame 2 [("N2", Float64 [Some 1%Qc; Some 0%Qc]); ("W", Float64 [Some 0%Qc; Some 1%Qc])].

Definition example_predicted : world xfloat :=
  mkWorld [OFrame example_proba]
    (mkSleepStaging 1 ["C4"; "LOC"] [eeg; eog] [example_eeg; example_eog]
       None None None (Some ["N2"; "W"]) (Some 0%nat)).

(** ** plot_predict_proba: the table that is drawn

    The method up to its call of [proba.plot]; the drawing itself
    (matplotlib) is not part of the model. [row_max] is pandas'
    [Series.max] and [feqb] the comparison [==] of two floats. *)

Section Plot.
Context {F : Type} {num : Numeric F}.
Variable row_max : list F → F.
Variable feqb : F → F → bool.

(** The [i]-th row of a frame, as floats. *)
Definition frame_row (df : DataFrame F) (i : nat) : list F :=
  (fun c : string * series F => default fnan (as_float c.2 !! i)) <$> columns df.

(** [proba.where(proba.apply(lambda x: x == x.max(), axis=1), other=0)] *)
Definition majority (df : DataFrame F) : DataFrame F :=
  mkFrame (nrows df)
    ((fun c : string * series F =>
        (c.1, Float64 (imap (fun i x => if feqb x (row_max (frame_row df i))
                                        then x else of_Z 0)
                         (as_float c.2))))
       <$> columns df).

(** [assert isinstance(proba, pd.DataFrame), 'proba must be a dataframe'] *)
Definition given_frame (l : loc) : M (world F) (DataFrame F) :=
  fun w => (w, match heap w !! l with
               | Some (OFrame df) => Ok df
               | _ => Raise (AssertionError "proba must be a dataframe")
               end).

Definition plot_predict_proba (proba : option loc) (majority_only : bool)
  : M (world F) (DataFrame F) :=
  self ← gets instance;
  _ ← lift (if bool_decide (proba = None) && bool_decide (_features self = None)
            then Raise (ValueError "Must call .predict_proba before this function" [])
            else Ok tt);
  df ← match proba with
       | None =>
           match _proba self with
           | Some l => l' ← on_heap (copy_frame l); on_heap (load_frame l')
           | None => lift (Raise (AttributeError "_proba"))
           end
       | Some l => given_frame l
       end;
  mret (if majority_only then majority df else df).
End Plot.

(** * Properties *)

(** ** The result and state monads *)

Lemma bind_Ok {A B} (m : result A) (f : A → result B) (b : B) :
  m ≫= f = Ok b ↔ ∃ a, m = Ok a ∧ f a = Ok b.
Proof.
  destruct m as [a|e]; simpl; split.
  - intros Hf. by exists a.
  - by intros (a' & [= ->] & Hf).
  - done.
  - by intros (a' & ? & _).
Qed.

Lemma bind_Raise {A B} (m : result A) (f : A → result B) (e : exn) :
  m = Raise e → m ≫= f = Raise e.
Proof. by intros ->. Qed.

Lemma fmap_Ok {A B} (g : A → B) (m : result A) (b : B) :
  g <$> m = Ok b ↔ ∃ a, m = Ok a ∧ b = g a.
Proof.
  destruct m as [a|e]; simpl; split.
  - intros [= <-]. by exists a.
  - by intros (a' & [= ->] & ->).
  - done.
  - by intros (a' & ? & _).
Qed.

(** Inversion of a computation that returned: every step returned. *)
Ltac inv_ok H :=
  repeat match type of H with
    | _ ≫= _ = Ok _ =>
        let a := fresh "a" in
        let E := fresh "E" in
        apply bind_Ok in H as (a & E & H)
    | (let '(_, _) := ?p in _) = Ok _ => destruct p
    | (if ?b then _ else _) = Ok _ =>
        let E := fresh "E" in destruct b eqn:E; [|try discriminate H]
    | Ok _ = Ok _ => injection H as H
    end.

Lemma mapR_Ok {A B} (f : A → result B) (l : list A) (bs : list B) :
  mapR f l = Ok bs ↔ Forall2 (fun a b => f a = Ok b) l bs.
Proof.
  revert bs. induction l as [|a l IH]; intros bs; simpl.
  - split; [intros [= <-]; constructor | by inversion 1].
  - split.
    + intros Hm. inv_ok Hm. subst bs.
      constructor; [done|]. by apply IH.
    + inversion 1 as [|? b ? bs' Hf Hl]; subst.
      rewrite Hf. simpl. apply IH in Hl. by rewrite Hl.
Qed.

Lemma mapR_length {A B} (f : A → result B) (l : list A) (bs : list B) :
  mapR f l = Ok bs → length bs = length l.
Proof. intros Hm%mapR_Ok. symmetry. by eapply Forall2_length. Qed.

(** ** Dicts *)

(** The keys after an assignment to [k]. *)
Definition key_set (k : string) (keys : list string) : list string :=
  if decide (k ∈ keys) then keys else keys ++ [k].

Lemma dict_set_keys {V} (k : string) (v : V) (d : dict V) :
  dict_keys (dict_set k v d) = key_set k (dict_keys d).
Proof.
  unfold key_set, dict_keys. induction d as [|[k' v'] d IH].
  - simpl. destruct (decide (k ∈ [])) as [Hin|_]; [|done].
    by apply elem_of_nil in Hin.
  - cbn [dict_set]. rewrite fmap_cons. cbn [fst].
    destruct (decide (k = k')) as [->|Hne].
    + destruct (decide (k' ∈ k' :: d.*1)) as [_|Hn]; [done|].
      destruct Hn. left.
    + rewrite fmap_cons, IH. cbn [fst].
      destruct (decide (k ∈ d.*1)) as [Hin|Hnin].
      * destruct (decide (k ∈ k' :: d.*1)) as [_|Hn]; [done|].
        destruct Hn. by right.
      * destruct (decide (k ∈ k' :: d.*1)) as [[?|?]%elem_of_cons|_]; done.
Qed.

Lemma dict_get_set_eq {V} (k : string) (v : V) (d : dict V) :
  dict_get k (dict_set k v d) = Some v.
Proof.
  induction d as [|[k' v'] d IH]; simpl.
  - by rewrite decide_True.
  - destruct (decide (k = k')) as [->|Hne]; simpl.
    + by rewrite decide_True.
    + by rewrite decide_False.
Qed.

Lemma dict_get_set_ne {V} (k k0 : string) (v : V) (d : dict V) :
  k0 ≠ k → dict_get k0 (dict_set k v d) = dict_get k0 d.
Proof.
  intros Hne. induction d as [|[k' v'] d IH]; simpl.
  - by rewrite decide_False.
  - destruct (decide (k = k')) as [->|Hne']; simpl.
    + by rewrite !decide_False.
    + destruct (decide (k0 = k')); [done|apply IH].
Qed.

Lemma dict_get_Some_elem {V} (k : string) (v : V) (d : dict V) :
  dict_get k d = Some v → (k, v) ∈ d.
Proof.
  induction d as [|[k' v'] d IH]; simpl; [done|].
  destruct (decide (k = k')) as [->|Hne].
  - intros [= ->]. left.
  - intros Hg. right. by apply IH.
Qed.

Lemma dict_get_None {V} (k : string) (d : dict V) :
  dict_get k d = None ↔ k ∉ dict_keys d.
Proof.
  unfold dict_keys. induction d as [|[k' v'] d IH]; simpl.
  - split; [intros _; apply not_elem_of_nil | done].
  - destruct (decide (k = k')) as [->|Hne].
    + split; [done|]. intros []. left.
    + rewrite IH. split.
      * by intros Hn [?|?]%elem_of_cons.
      * intros Hn Hin. apply Hn. by right.
Qed.

Lemma dict_get_NoDup {V} (k : string) (v : V) (d : dict V) :
  NoDup (dict_keys d) → (k, v) ∈ d → dict_get k d = Some v.
Proof.
  unfold dict_keys. induction d as [|[k' v'] d IH]; simpl.
  - by intros _ ?%elem_of_nil.
  - intros [Hk' Hnd]%NoDup_cons [[= -> ->]|Hin]%elem_of_cons.
    + by rewrite decide_True.
    + rewrite decide_False; [by apply IH|].
      intros ->. apply Hk'. apply list_elem_of_fmap. by exists (k', v).
Qed.

Lemma dict_mem_true {V} (k : string) (d : dict V) :
  dict_mem k d = true ↔ is_Some (dict_get k d).
Proof.
  unfold dict_mem. rewrite bool_decide_eq_true.
  destruct (dict_get k d) eqn:E.
  - split; [by eauto|]. intros _.
    destruct (decide (k ∈ dict_keys d)) as [|Hn]; [done|].
    apply dict_get_None in Hn. congruence.
  - apply dict_get_None in E. split; [done|]. by intros [? [=]].
Qed.

Lemma key_set_NoDup (k : string) (keys : list string) :
  NoDup keys → NoDup (key_set k keys).
Proof.
  intros Hnd. unfold key_set. case_decide; [done|].
  apply NoDup_app. split_and!; [done| |apply NoDup_singleton].
  intros x Hx ->%list_elem_of_singleton. done.
Qed.

Lemma elem_of_key_set (x k : string) (keys : list string) :
  x ∈ key_set k keys ↔ x = k ∨ x ∈ keys.
Proof.
  unfold key_set. case_decide.
  - split; [by right|]. by intros [->|?].
  - rewrite elem_of_app, list_elem_of_singleton. tauto.
Qed.

(** ** numpy.setdiff1d *)

Lemma elem_of_unique x ar : x ∈ unique ar ↔ x ∈ ar.
Proof.
  unfold unique. rewrite merge_sort_Permutation. apply elem_of_remove_dups.
Qed.

Lemma NoDup_unique ar : NoDup (unique ar).
Proof.
  unfold unique. rewrite merge_sort_Permutation. apply NoDup_remove_dups.
Qed.

Lemma elem_of_setdiff1d x ar1 ar2 :
  x ∈ setdiff1d ar1 ar2 ↔ x ∈ ar1 ∧ x ∉ ar2.
Proof.
  unfold setdiff1d. rewrite list_elem_of_filter, elem_of_unique. tauto.
Qed.

Lemma NoDup_setdiff1d ar1 ar2 : NoDup (setdiff1d ar1 ar2).
Proof. apply NoDup_filter, NoDup_unique. Qed.

Lemma StronglySorted_filter {A} (R : relation A) (P : A → Prop)
    `{∀ x, Decision (P x)} (l : list A) :
  StronglySorted R l → StronglySorted R (filter P l).
Proof.
  induction 1 as [|a l Hs IH Hall]; [constructor|].
  rewrite filter_cons. case_decide; [|done].
  constructor; [done|].
  apply Forall_forall. intros y [_ Hy]%list_elem_of_filter.
  by eapply Forall_forall in Hall.
Qed.

Lemma Sorted_setdiff1d ar1 ar2 : StronglySorted String.le (setdiff1d ar1 ar2).
Proof.
  unfold setdiff1d, unique.
  apply StronglySorted_filter, StronglySorted_merge_sort; apply _.
Qed.

Lemma setdiff1d_nil ar1 ar2 :
  setdiff1d ar1 ar2 = [] ↔ ∀ x, x ∈ ar1 → x ∈ ar2.
Proof.
  split.
  - intros E x Hx. destruct (decide (x ∈ ar2)) as [|Hn]; [done|].
    assert (x ∈ setdiff1d ar1 ar2) as Hd by (by apply elem_of_setdiff1d).
    rewrite E in Hd. by apply elem_of_nil in Hd.
  - intros Hsub. destruct (setdiff1d ar1 ar2) as [|y l] eqn:E; [done|].
    assert (y ∈ setdiff1d ar1 ar2) as Hd by (rewrite E; left).
    apply elem_of_setdiff1d in Hd as [H1 H2]. destruct H2. by apply Hsub.
Qed.

Lemma length_zero_nil {A} (l : list A) : (length l =? 0)%nat = true ↔ l = [].
Proof. rewrite Nat.eqb_eq. apply length_zero_iff_nil. Qed.

(** ** The classifier check *)

Section ValidatePredict.
Context {F : Type}.
Implicit Types (self : SleepStaging F) (clf : Classifier F).

Lemma _validate_predict_Ok self clf names :
  feature_name_ self = Some names →
  _validate_predict self clf = Ok tt ↔
  ∀ x, x ∈ clf_feature_name_ clf ↔ x ∈ names.
Proof.
  intros Hn. unfold _validate_predict. rewrite Hn.
  destruct (length (setdiff1d (clf_feature_name_ clf) names) =? 0)%nat eqn:E1;
    simpl.
  - destruct (length (setdiff1d names (clf_feature_name_ clf)) =? 0)%nat eqn:E2;
      simpl.
    + apply length_zero_nil in E1. apply length_zero_nil in E2.
      rewrite setdiff1d_nil in E1. rewrite setdiff1d_nil in E2.
      split; [intros _ x; split; auto | done].
    + split; [done|]. intros Heq.
      assert (setdiff1d names (clf_feature_name_ clf) = []) as E
        by (apply setdiff1d_nil; intros x; apply Heq).
      apply length_zero_nil in E. congruence.
  - split; [done|]. intros Heq.
    assert (setdiff1d (clf_feature_name_ clf) names = []) as E
      by (apply setdiff1d_nil; intros x; apply Heq).
    apply length_zero_nil in E. congruence.
Qed.

(** C1 (as the code has it). The check fails exactly when the two name
    sets differ. When the classifier requires names the table lacks,
    the error lists those names (sorted, each once) and nothing else;
    only when there is no such name and the table has names the
    classifier lacks, the error lists these. *)
Theorem C1_validate_predict_reports_one_side self clf names :
  feature_name_ self = Some names →
  let only_clf := setdiff1d (clf_feature_name_ clf) names in
  let only_table := setdiff1d names (clf_feature_name_ clf) in
  (∀ x, x ∈ only_clf ↔ x ∈ clf_feature_name_ clf ∧ x ∉ names) ∧
  (∀ x, x ∈ only_table ↔ x ∈ names ∧ x ∉ clf_feature_name_ clf) ∧
  NoDup only_clf ∧ NoDup only_table ∧
  StronglySorted String.le only_clf ∧ StronglySorted String.le only_table ∧
  (only_clf ≠ [] →
   _validate_predict self clf = Raise (ValueError msg_clf_only only_clf)) ∧
  (only_clf = [] → only_table ≠ [] →
   _validate_predict self clf = Raise (ValueError msg_table_only only_table)) ∧
  (only_clf = [] → only_table = [] → _validate_predict self clf = Ok tt) ∧
  (_validate_predict self clf = Ok tt ↔
   ∀ x, x ∈ clf_feature_name_ clf ↔ x ∈ names).
Proof.
  intros Hn only_clf only_table.
  split_and!; try (intros x; apply elem_of_setdiff1d);
    try apply NoDup_setdiff1d; try apply Sorted_setdiff1d.
  - intros Hne. unfold _validate_predict. rewrite Hn. fold only_clf.
    destruct (length only_clf =? 0)%nat eqn:E; [|done].
    by apply length_zero_nil in E.
  - intros He Hne. unfold _validate_predict. rewrite Hn.
    fold only_clf only_table. rewrite He. simpl.
    destruct (length only_table =? 0)%nat eqn:E; [|done].
    by apply length_zero_nil in E.
  - intros He1 He2. unfold _validate_predict. rewrite Hn.
    fold only_clf only_table. by rewrite He1, He2.
  - by apply _validate_predict_Ok.
Qed.
End ValidatePredict.

(** An instance that has been fitted, with the given feature names. *)
Definition fitted (names : list string) : SleepStaging xfloat :=
  mkSleepStaging 100 ["C4"] [eeg] [] None (Some 0%nat) (Some names) None None.

Lemma C1_validate_predict_reports_one_side_witness :
  feature_name_ (fitted ["eeg_iqr"; "eeg_std"]) = Some ["eeg_iqr"; "eeg_std"] ∧
  _validate_predict (fitted ["eeg_iqr"; "eeg_std"])
    (stub_classifier ["eeg_std"; "eeg_iqr"] ["W"]) = Ok tt.
Proof.
  split; [reflexivity|].
  pose proof (C1_validate_predict_reports_one_side
                (fitted ["eeg_iqr"; "eeg_std"])
                (stub_classifier ["eeg_std"; "eeg_iqr"] ["W"])
                ["eeg_iqr"; "eeg_std"] eq_refl)
    as (_ & _ & _ & _ & _ & _ & _ & _ & Hok & _).
  apply Hok; vm_compute; reflexivity.
Defined.

(** C1 (as stated) fails: with one unmatched name on each side the error
    names the classifier's one only; the table's unmatched name is not
    in the message. *)
Lemma C1_counterexample :
  ¬ (∀ msg reported,
       _validate_predict (fitted ["eeg_std"; "eeg_iqr"])
         (stub_classifier ["eeg_std"; "eeg_kurt"] ["W"])
       = Raise (ValueError msg reported) →
       ∀ x, x ∈ reported ↔
            (x ∈ ["eeg_std"; "eeg_kurt"] ∧ x ∉ ["eeg_std"; "eeg_iqr"]) ∨
            (x ∈ ["eeg_std"; "eeg_iqr"] ∧ x ∉ ["eeg_std"; "eeg_kurt"])).
Proof.
  intros Hclaim.
  specialize (Hclaim msg_clf_only ["eeg_kurt"] eq_refl "eeg_iqr").
  assert ("eeg_iqr" ∈ ["eeg_kurt"]) as Hin.
  { apply Hclaim. right. split; [by right; left|].
    intros [?|[?|[]%elem_of_nil]%elem_of_cons]%elem_of_cons; discriminate. }
  apply list_elem_of_singleton in Hin. discriminate.
Qed.

(** ** Zero crossings and the Petrosian fractal dimension *)

Section Petrosian.
Context {F : Type} {num : Numeric F}.

(** The sample at position [i] (positions start at 0). *)
Definition sample (r : list F) (i : nat) : F := default fnan (r !! i).

(** The first difference of an epoch, sample by sample. *)
Definition first_difference (r : list F) : list F :=
  (fun i => fsub (sample r (S i)) (sample r i)) <$> seq 0 (length r - 1).

(** The number of positions at which the product of two adjacent
    samples is negative. *)
Definition sign_changes (d : list F) : nat :=
  length (filter (fun i => fltb (fmul (sample d i) (sample d (S i))) (of_Z 0) = true)
            (seq 0 (length d - 1))).

Lemma zip_adjacent {B} (f : F → F → B) (r : list F) :
  zip_with f (but_last r) (but_first r)
  = (fun i => f (sample r i) (sample r (S i))) <$> seq 0 (length r - 1).
Proof.
  unfold but_last, but_first, sample. apply list_eq. intros i.
  rewrite lookup_zip_with, list_lookup_fmap, lookup_drop.
  destruct (decide (i < length r - 1)) as [Hlt|Hge].
  - rewrite lookup_take_lt; [|done]. rewrite lookup_seq_lt; [|done]. simpl.
    destruct (lookup_lt_is_Some_2 r i) as [a Ha]; [lia|].
    destruct (lookup_lt_is_Some_2 r (S i)) as [b Hb]; [lia|].
    by rewrite Ha, Hb.
  - rewrite lookup_take_ge; [|lia]. rewrite lookup_seq_ge; [|lia]. done.
Qed.

Lemma diff_first_difference (r : list F) : diff r = first_difference r.
Proof.
  unfold diff, first_difference.
  rewrite <- (zip_adjacent (fun a b => fsub b a)).
  generalize (but_first r) (but_last r). intros l1.
  induction l1 as [|a l1 IH]; intros [|b l2]; simpl; f_equal; auto.
Qed.

Lemma sum_b2n_filter {A} (g : A → bool) (l : list A) :
  sum_list_with (fun a => Nat.b2n (g a)) l = length (filter (fun a => g a = true) l).
Proof.
  induction l as [|a l IH]; [done|].
  rewrite filter_cons.
  destruct (decide (g a = true)) as [E|E]; simpl; rewrite IH.
  - by rewrite E.
  - by destruct (g a).
Qed.

Lemma nzc_row_sign_changes (d : list F) :
  nzc_row d = Z.of_nat (sign_changes d).
Proof.
  unfold nzc_row, sign_changes. f_equal.
  rewrite (zip_adjacent fmul), sum_b2n_filter.
  generalize (seq 0 (length d - 1)). intros l.
  induction l as [|i l IH]; [done|].
  rewrite fmap_cons, !filter_cons.
  destruct (decide _); simpl; by rewrite IH.
Qed.

(** C6. On epochs of [n] samples, the Petrosian feature of an epoch is
    log10(n) / (log10(n) + log10(n / (n + 0.4 k))), where [k] is the
    number of adjacent pairs of the epoch's first difference whose
    product is negative. *)
Theorem C6_petrosian_closed_form (x : list (list F)) (n i : nat) (r : list F) :
  Forall (fun r => length r = n) x →
  x !! i = Some r →
  let k := sign_changes (first_difference r) in
  let log10_n := flog10 (of_Z (Z.of_nat n)) in
  petrosian x !! i
  = Some (fdiv log10_n
            (fadd log10_n
               (flog10 (fdiv (of_Z (Z.of_nat n))
                          (fadd (of_Z (Z.of_nat n))
                             (fmul (of_Q (4 # 10)) (of_Z (Z.of_nat k)))))))).
Proof.
  intros Hn Hi k log10_n. unfold petrosian, nzc.
  assert (shape1 x = n) as ->.
  { destruct x as [|r0 x]; [done|]. simpl. by inversion Hn. }
  rewrite !list_lookup_fmap, Hi. simpl.
  by rewrite diff_first_difference, nzc_row_sign_changes.
Qed.
End Petrosian.

Lemma C6_petrosian_closed_form_witness :
  let r : list xfloat := xint <$> [1; 3; 2; 5]%Z in
  Forall (fun r => length r = 4%nat) [r; r] ∧
  [r; r] !! 1%nat = Some r ∧
  sign_changes (first_difference r) = 2%nat ∧
  let k := sign_changes (first_difference r) in
  let log10_n := flog10 (of_Z (Z.of_nat 4)) in
  petrosian [r; r] !! 1%nat
  = Some (fdiv log10_n
            (fadd log10_n
               (flog10 (fdiv (of_Z (Z.of_nat 4))
                          (fadd (of_Z (Z.of_nat 4))
                             (fmul (of_Q (4 # 10)) (of_Z (Z.of_nat k)))))))).
Proof.
  intros r.
  assert (Forall (fun r => length r = 4%nat) [r; r]) as Hn by (repeat constructor).
  split_and!; [exact Hn|reflexivity|vm_compute; reflexivity|].
  exact (C6_petrosian_closed_form [r; r] 4 1 r Hn eq_refl).
Defined.

(** ** The constructor *)

Section Init.
Context {F : Type} {num : Numeric F} {lib : Lib F}.
Implicit Types (h : list (obj F)) (d : dict pyval) (raw : Raw F).

(** The age check of the metadata block. *)
Definition age_ok (d : dict pyval) : bool :=
  match dict_get "age" d with
  | Some age => Qltb 0 (py_num age) && Qltb (py_num age) 120
  | None => true
  end.

Lemma dict_mem_get {V} (k : string) (dd : dict V) :
  dict_mem k dd = bool_decide (is_Some (dict_get k dd)).
Proof.
  destruct (dict_mem k dd) eqn:E; symmetry.
  - apply bool_decide_eq_true. by apply dict_mem_true.
  - apply bool_decide_eq_false. intros Hs. apply dict_mem_true in Hs. congruence.
Qed.

Lemma validate_metadata_spec l h d :
  h !! l = Some (ODict d) →
  validate_metadata l h =
    if age_ok d
    then match dict_get "male" d with
         | Some male =>
             (<[l := ODict (dict_set "male" (PInt (py_int male)) d)]> h,
              assert (bool_decide (py_int male ∈ [0; 1]%Z)) "male must be 0 or 1.")
         | None => (h, Ok tt)
         end
    else (h, Raise (AssertionError "age must be between 0 and 120.")).
Proof.
  intros Hl. unfold validate_metadata, age_ok, load_dict, mbind, M_bind.
  rewrite Hl. rewrite !dict_mem_get. unfold dict_item.
  destruct (dict_get "age" d) as [age|] eqn:Ea.
  - rewrite bool_decide_eq_true_2 by eauto. unfold lift at 1 2. simpl.
    destruct (Qltb 0 (py_num age) && Qltb (py_num age) 120); simpl; [|done].
    destruct (dict_get "male" d) as [male|] eqn:Em.
    + rewrite bool_decide_eq_true_2 by eauto. done.
    + rewrite bool_decide_eq_false_2 by (by intros [? [=]]). done.
  - rewrite bool_decide_eq_false_2 by (by intros [? [=]]). simpl.
    destruct (dict_get "male" d) as [male|] eqn:Em.
    + rewrite bool_decide_eq_true_2 by eauto. done.
    + rewrite bool_decide_eq_false_2 by (by intros [? [=]]). done.
Qed.

Lemma init_metadata_spec raw eeg_name eog_name emg_name l h d :
  h !! l = Some (ODict d) →
  __init__ raw eeg_name eog_name emg_name (Some l) h =
    match validate_metadata l h with
    | (h', Ok _) => (h', load_recording raw eeg_name eog_name emg_name (Some l))
    | (h', Raise e) => (h', Raise e)
    end.
Proof. intros _. unfold __init__, mbind, M_bind. by destruct (validate_metadata l h) as [? []]. Qed.

(** C2. A recording sampled at exactly 80 Hz is rejected, whatever its
    duration: the assertion [sf > 80] fails, with the message that the
    sampling frequency must be at least 80 Hz. *)
Theorem C2_init_rejects_exactly_80Hz raw eeg_name raw_pick h :
  (info_sfreq raw == 80)%Q →
  eeg_name ∈ raw_ch_names raw →
  pick_channels raw [eeg_name] = Ok raw_pick →
  __init__ raw eeg_name None None None h
  = (h, Raise (AssertionError "Sampling frequency must be at least 80 Hz.")).
Proof.
  intros Hsf Hin Hpick. unfold __init__, mbind, M_bind, mret, M_ret, lift.
  f_equal. unfold load_recording. simpl.
  rewrite bool_decide_eq_true_2 by done. simpl.
  rewrite Hpick. simpl.
  assert (Qltb 80 (info_sfreq raw) = false) as ->; [|done].
  unfold Qltb. apply negb_false_iff, Qle_bool_iff. by rewrite Hsf.
Qed.

(** C10. When the metadata dict has a ['male'] entry and the age check
    passes, the constructor stores [int(metadata['male'])] in the dict
    the caller passed, whether or not construction then succeeds; when
    it succeeds, the stored value is 0 or 1 and the instance refers to
    that same dict. *)
Theorem C10_init_coerces_male_in_place raw eeg_name eog_name emg_name l h d male :
  h !! l = Some (ODict d) →
  dict_get "male" d = Some male →
  age_ok d = true →
  let out := __init__ raw eeg_name eog_name emg_name (Some l) h in
  out.1 = <[l := ODict (dict_set "male" (PInt (py_int male)) d)]> h ∧
  out.1 !! l = Some (ODict (dict_set "male" (PInt (py_int male)) d)) ∧
  dict_get "male" (dict_set "male" (PInt (py_int male)) d) = Some (PInt (py_int male)) ∧
  (∀ k, k ≠ "male" →
        dict_get k (dict_set "male" (PInt (py_int male)) d) = dict_get k d) ∧
  (∀ self, out.2 = Ok self →
           metadata self = Some l ∧ (py_int male = 0 ∨ py_int male = 1)%Z).
Proof.
  intros Hl Hm Ha out.
  assert (l < length h)%nat as Hlt by (by eapply lookup_lt_Some).
  assert (out = match assert (bool_decide (py_int male ∈ [0; 1]%Z)) "male must be 0 or 1." with
                | Ok _ => (<[l := ODict (dict_set "male" (PInt (py_int male)) d)]> h,
                           load_recording raw eeg_name eog_name emg_name (Some l))
                | Raise e => (<[l := ODict (dict_set "male" (PInt (py_int male)) d)]> h,
                              Raise e)
                end) as Hout.
  { unfold out. rewrite (init_metadata_spec _ _ _ _ _ _ d Hl).
    rewrite (validate_metadata_spec _ _ d Hl), Ha, Hm. done. }
  split_and!.
  - rewrite Hout. by destruct (assert _ _).
  - rewrite Hout. destruct (assert _ _); simpl; by apply list_lookup_insert_eq.
  - apply dict_get_set_eq.
  - intros k Hk. by apply dict_get_set_ne.
  - intros self. rewrite Hout. unfold assert.
    destruct (bool_decide (py_int male ∈ [0; 1]%Z)) eqn:E; simpl; [|done].
    apply bool_decide_eq_true in E. intros Hload. split.
    + unfold load_recording in Hload. inv_ok Hload. by subst self.
    + apply elem_of_cons in E as [?|E]; [by left|].
      apply list_elem_of_singleton in E. by right.
Qed.

(** The constructor's outcome does not depend on metadata entries other
    than ['age'] and ['male']. *)
Lemma init_ignores_other_keys raw eeg_name eog_name emg_name l h d k v :
  h !! l = Some (ODict d) →
  k ≠ "age" → k ≠ "male" →
  (__init__ raw eeg_name eog_name emg_name (Some l)
     (<[l := ODict (dict_set k v d)]> h)).2
  = (__init__ raw eeg_name eog_name emg_name (Some l) h).2.
Proof.
  intros Hl Hage Hmale.
  assert (l < length h)%nat as Hlt by (by eapply lookup_lt_Some).
  assert (<[l := ODict (dict_set k v d)]> h !! l = Some (ODict (dict_set k v d)))
    as Hl' by (by apply list_lookup_insert_eq).
  rewrite (init_metadata_spec _ _ _ _ _ _ _ Hl), (init_metadata_spec _ _ _ _ _ _ _ Hl').
  rewrite (validate_metadata_spec _ _ _ Hl), (validate_metadata_spec _ _ _ Hl').
  unfold age_ok. rewrite !dict_get_set_ne by done.
  destruct (match dict_get "age" d with Some _ => _ | None => _ end); [|done].
  destruct (dict_get "male" d); [|done].
  by destruct (assert _ _).
Qed.
End Init.

Lemma C2_init_rejects_exactly_80Hz_witness :
  (info_sfreq (silent_recording 80 5) == 80)%Q ∧
  "C4" ∈ raw_ch_names (silent_recording 80 5) ∧
  is_ok (pick_channels (silent_recording 80 5) ["C4"]) = true ∧
  (fun row => Z.of_nat (length row)) <$> raw_data (silent_recording 80 5)
  = [24000; 24000]%Z ∧
  __init__ (silent_recording 80 5) "C4" None None None []
  = ([], Raise (AssertionError "Sampling frequency must be at least 80 Hz.")).
Proof.
  split_and!; [reflexivity|left|reflexivity|vm_compute; reflexivity|].
  destruct (pick_channels (silent_recording 80 5) ["C4"]) as [raw_pick|e] eqn:E;
    [|discriminate E].
  apply (C2_init_rejects_exactly_80Hz (silent_recording 80 5) "C4" raw_pick []);
    [reflexivity|left|exact E].
Defined.

(** Exactly five minutes at 100 Hz are accepted, four are not. *)
Example init_accepts_100Hz_5min :
  is_ok (__init__ (silent_recording 100 5) "C4" (Some "LOC") None None []).2 = true.
Proof. vm_compute. reflexivity. Qed.

Example init_rejects_short_recording :
  (__init__ (silent_recording 100 4) "C4" None None None []).2
  = Raise (AssertionError "At least 5 minutes of data is required.").
Proof. vm_compute. reflexivity. Qed.

Lemma C10_init_coerces_male_in_place_witness :
  let h : list (obj xfloat) := [ODict caller_metadata] in
  let out := __init__ (silent_recording 100 5) "C4" None None (Some 0%nat) h in
  h !! 0%nat = Some (ODict caller_metadata) ∧
  dict_get "male" caller_metadata = Some (PBool false) ∧
  age_ok caller_metadata = true ∧
  is_ok out.2 = true ∧
  out.1 = [ODict [("age", PFloat (18 # 10)); ("male", PInt 0); ("site", PInt 7)]].
Proof.
  intros h out. split_and!; [reflexivity|reflexivity|reflexivity|by vm_compute|].
  pose proof (C10_init_coerces_male_in_place (silent_recording 100 5) "C4" None None
                0%nat h caller_metadata (PBool false) eq_refl eq_refl eq_refl)
    as (Hheap & _).
  exact Hheap.
Defined.

(** ** The feature table: its columns *)

(** The features of a channel, in the order [fit] computes them. *)
Definition base_features (c : ch_type) : list string :=
  ["std"; "iqr"; "skew"; "kurt"; "nzc"; "hmob"; "hcomp"]
  ++ (if decide (c ≠ emg)
      then ["sdelta"; "fdelta"; "theta"; "alpha"; "sigma"; "beta"] else [])
  ++ (if decide (c = eeg) then ["dt"; "ds"; "db"; "at"] else [])
  ++ ["abspow"; "perm"; "higuchi"; "petrosian"].

Definition channel_columns (c : ch_type) : list string :=
  (fun f => ch_type_str c +:+ "_" +:+ f) <$> base_features c.

(** The columns after smoothing: the base columns and their two
    normalized rolling means. *)
Definition smoothed_columns (names : list string) : list string :=
  names ++ ((fun c => c +:+ "_c5min_norm") <$> names)
        ++ ((fun c => c +:+ "_p5min_norm") <$> names).

(** The columns of the finalized table for the given channel roles and
    metadata keys. *)
Definition feature_names (cs : list ch_type) (md_keys : option (list string))
  : list string :=
  merge_sort String.le
    (foldl (fun names k => key_set k names)
       (key_set "time_norm"
          (key_set "time_hour" (smoothed_columns (cs ≫= channel_columns))))
       (default [] md_keys)).

Section Frames.
Context {F : Type} {num : Numeric F}.
Implicit Types (df : DataFrame F) (s : series F).

Lemma frame_of_dict_Ok (feat : dict (series F)) df :
  frame_of_dict feat = Ok df →
  columns df = feat ∧ Forall (fun c => series_len c.2 = nrows df) feat ∧
  nrows df = match feat with c :: _ => series_len c.2 | [] => 0%nat end.
Proof.
  unfold frame_of_dict. destruct feat as [|[k s] feat]; [by intros [= <-]|].
  destruct (forallb _ _) eqn:E; [|done]. intros [= <-]. simpl.
  split_and!; [done| |done].
  rewrite forallb_forall in E. apply Forall_forall.
  intros c Hc%list_elem_of_In. apply E in Hc. by apply Nat.eqb_eq.
Qed.

Lemma prod_map_fst {A B C} (g : B → C) (l : list (A * B)) :
  (prod_map id g <$> l).*1 = l.*1.
Proof. induction l as [|[??] l IH]; simpl; by f_equal. Qed.

Lemma column_names_add_prefix p df :
  column_names (add_prefix p df) = (fun c => p +:+ c) <$> column_names df.
Proof.
  unfold column_names, add_prefix. simpl.
  induction (columns df) as [|[??] l IH]; simpl; by f_equal.
Qed.

Lemma column_names_add_suffix sfx df :
  column_names (add_suffix sfx df) = (fun c => c +:+ sfx) <$> column_names df.
Proof.
  unfold column_names, add_suffix. simpl.
  induction (columns df) as [|[??] l IH]; simpl; by f_equal.
Qed.

Lemma get_column_add_prefix p c df :
  get_column (p +:+ c) (add_prefix p df) = get_column c df.
Proof.
  unfold get_column, add_prefix. simpl.
  induction (columns df) as [|[k s] l IH]; simpl; [done|].
  destruct (decide (c = k)) as [->|Hne].
  - by rewrite decide_True.
  - rewrite decide_False; [done|]. by intros ?%(inj (String.app p)).
Qed.

Lemma reindex_id n s : series_len s = n → reindex n s = s.
Proof. intros <-. unfold reindex. by rewrite Nat.eqb_refl. Qed.

Lemma column_names_mkFrame n (cols : list (string * series F)) :
  column_names (mkFrame n cols) = cols.*1.
Proof. done. Qed.

Lemma bind_column_names (frames : list (DataFrame F)) :
  (frames ≫= columns).*1 = frames ≫= column_names.
Proof.
  induction frames as [|g l IH]; [reflexivity|].
  rewrite !bind_cons, fmap_app. by f_equal.
Qed.

Lemma concat_Ok (frames : list (DataFrame F)) df :
  concat frames = Ok df →
  frames ≠ [] ∧ column_names df = frames ≫= column_names ∧
  nrows df = foldr Nat.max 0%nat (nrows <$> frames).
Proof.
  unfold concat. destruct frames as [|f frames]; [done|].
  intros [= <-]. split_and!; [done| |done].
  rewrite column_names_mkFrame, prod_map_fst, fmap_app, bind_cons.
  f_equal. apply bind_column_names.
Qed.

Lemma join_Ok (left right : DataFrame F) df :
  join left right = Ok df →
  Forall (fun c => series_len c.2 = nrows left) (columns right) →
  nrows df = nrows left ∧
  columns df = columns left ++ columns right ∧
  (∀ c, c ∈ column_names left → c ∉ column_names right).
Proof.
  unfold join. intros Hj Hlen.
  destruct (filter _ _) as [|c0 l] eqn:E; [|done].
  injection Hj as <-. simpl. split_and!; [done| |].
  - f_equal. induction Hlen as [|[k s] l Hs Hl IH]; [done|].
    rewrite fmap_cons, IH. f_equal. unfold prod_map. simpl. f_equal.
    by apply reindex_id.
  - intros c Hc Hr.
    assert (c ∈ filter (fun c => c ∈ column_names right) (column_names left))
      as Hin by (by apply list_elem_of_filter).
    rewrite E in Hin. by apply elem_of_nil in Hin.
Qed.

Lemma set_column_Ok name s df df' :
  set_column name s df = Ok df' →
  series_len s = nrows df ∧ nrows df' = nrows df ∧
  columns df' = dict_set name s (columns df).
Proof.
  unfold set_column. destruct (series_len s =? nrows df)%nat eqn:E; [|done].
  intros [= <-]. by apply Nat.eqb_eq in E.
Qed.

Lemma name_le_fst (c1 c2 : string * series F) :
  name_le c1 c2 ↔ String.le c1.1 c2.1.
Proof. done. Qed.

Global Instance name_le_trans : Transitive (name_le (F := F)).
Proof. intros c1 c2 c3. unfold name_le. apply transitivity. Qed.
Global Instance name_le_total : Total (name_le (F := F)).
Proof. intros c1 c2. unfold name_le. apply String.le_total. Qed.

Lemma column_names_sort_index df :
  column_names (sort_index df) = merge_sort String.le (column_names df).
Proof.
  unfold column_names, sort_index. simpl.
  apply (StronglySorted_unique String.le).
  - apply (StronglySorted_fmap _ name_le String.le); [done|].
    apply StronglySorted_merge_sort; apply _.
  - apply StronglySorted_merge_sort; apply _.
  - by rewrite !merge_sort_Permutation.
Qed.

Lemma dict_keys_downcast df : column_names (downcast df) = column_names df.
Proof. unfold column_names, downcast. simpl. apply prod_map_fst. Qed.

Lemma key_set_present k keys : k ∈ keys → key_set k keys = keys.
Proof. intros Hin. unfold key_set. by rewrite decide_True. Qed.

Lemma encode_int_Ok name df df' :
  encode_int name df = Ok df' →
  nrows df' = nrows df ∧ column_names df' = column_names df ∧
  ∀ k, k ≠ name → get_column k df' = get_column k df.
Proof.
  unfold encode_int. destruct (get_column name df) as [s|] eqn:E.
  - intros Hb. inv_ok Hb. apply set_column_Ok in Hb as (_ & Hn & Hc).
    split_and!; [done| |].
    + unfold column_names. rewrite Hc.
      change ((dict_set name a (columns df)).*1)
        with (dict_keys (dict_set name a (columns df))).
      rewrite dict_set_keys. apply key_set_present.
      apply dict_get_Some_elem in E. apply list_elem_of_fmap.
      by exists (name, s).
    + intros k Hk. unfold get_column. rewrite Hc. by apply dict_get_set_ne.
  - by intros [= <-].
Qed.
End Frames.

(** Inversion of a computation that returned, in every hypothesis. *)
Ltac inv_all :=
  repeat match goal with
    | H : _ ≫= _ = Ok _ |- _ =>
        let a := fresh "a" in
        let E := fresh "E" in
        apply bind_Ok in H as (a & E & H)
    | H : (let '(_, _) := ?p in _) = Ok _ |- _ => destruct p
    end.

Section EpochFeatures.
Context {F : Type} {num : Numeric F} {lib : Lib F}.

(** The name of a feature of channel [c] in the table. *)
Definition column_of (c : ch_type) (feature : string) : string :=
  ch_type_str c +:+ "_" +:+ feature.

Local Opaque frame_of_dict petrosian mobility nzc diff np_binop mask_select
  apply_along_axis mapR.

Lemma epoch_features_Ok sf c epochs df :
  epoch_features sf c epochs = Ok df →
  column_names df = channel_columns c ∧
  nrows df = length epochs ∧
  Forall (fun col => series_len col.2 = nrows df) (columns df) ∧
  get_column (column_of c "std") df = Some (Float64 (fstd 1 <$> epochs)) ∧
  get_column (column_of c "nzc") df = Some (Int64 (nzc epochs)) ∧
  get_column (column_of c "hmob") df = Some (Float64 (mobility epochs)) ∧
  get_column (column_of c "hcomp") df
  = Some (Float64 (zip_with fdiv (mobility (diff <$> epochs)) (mobility epochs))) ∧
  get_column (column_of c "petrosian") df = Some (Float64 (petrosian epochs)).
Proof.
  intros Hf. unfold epoch_features in Hf.
  destruct c; simpl in Hf; inv_all; simplify_eq;
    match goal with
    | H : frame_of_dict _ = Ok _ |- _ =>
        apply frame_of_dict_Ok in H as (Hc & Hlen & Hn)
    end;
    (split_and!;
     [ rewrite column_names_add_prefix; unfold column_names; rewrite Hc;
       reflexivity
     | simpl in Hn; rewrite length_fmap in Hn; exact Hn
     | unfold add_prefix; simpl; rewrite Forall_fmap, Hc; exact Hlen
     | unfold get_column, add_prefix; simpl; rewrite Hc; reflexivity .. ]).
Qed.
End EpochFeatures.

(** ** The feature table: the loop over the channels and the smoothing *)

Section FitStages.
Context {F : Type} {num : Numeric F} {lib : Lib F}.
Implicit Types (df : DataFrame F) (s : series F).

Lemma channel_features_Ok sf c x times df :
  channel_features sf c x = Ok (times, df) →
  ∃ dt epochs,
    filter_data x sf freq_broad.1 freq_broad.2 = Ok dt ∧
    sliding_window dt sf 30 = Ok (times, epochs) ∧
    epoch_features sf c epochs = Ok df.
Proof.
  unfold channel_features. intros Hf. inv_all. simplify_eq. eauto.
Qed.

Lemma channels_loop_Ok sf data i cs rs :
  channels_loop sf data i cs = Ok rs →
  Forall2 (fun c r => ∃ j x, data !! j = Some x ∧
                             channel_features sf c x = Ok r) cs rs.
Proof.
  revert i rs. induction cs as [|c cs IH]; intros i rs Hl; simpl in Hl.
  - simplify_eq. constructor.
  - inv_all. simplify_eq. constructor; [|by eapply IH].
    exists i, a. split; [|done].
    unfold item in E. by destruct (data !! i); simplify_eq.
Qed.

Lemma channels_loop_columns sf data i cs rs :
  channels_loop sf data i cs = Ok rs →
  rs.*2 ≫= column_names = cs ≫= channel_columns.
Proof.
  intros Hl%channels_loop_Ok.
  induction Hl as [|c [times df] cs rs (j & x & _ & Hc) _ IH]; [done|].
  rewrite fmap_cons, !bind_cons, IH. f_equal. simpl.
  apply channel_features_Ok in Hc as (dt & epochs & _ & _ & He).
  by apply epoch_features_Ok in He as (-> & _).
Qed.

(** What the two calls [rolling(...).mean()] and [robust_scale] make of
    one column of a frame with [n] rows. *)
Definition smoothed_by (kw : rolling_kwargs) (n : nat)
    (c c' : string * series F) : Prop :=
  c'.1 = c.1 ∧
  ∃ m y, rolling_mean kw (as_float c.2) = Ok m ∧
         robust_scale m (5, 95)%Q = Ok y ∧
         length y = n ∧ c'.2 = Float64 y.

Lemma as_column_Ok n (r r' : list F) :
  as_column n r = Ok r' → r' = r ∧ length r = n.
Proof.
  unfold as_column. destruct (length r =? n)%nat eqn:E; [|done].
  intros [= <-]. by apply Nat.eqb_eq in E.
Qed.

Lemma rolling_norm_Ok kw df r :
  rolling_norm kw df = Ok r →
  nrows r = nrows df ∧ Forall2 (smoothed_by kw (nrows df)) (columns df) (columns r).
Proof.
  unfold rolling_norm. intros Hr. inv_all. simplify_eq. simpl.
  split; [done|]. apply mapR_Ok in E, E0.
  revert a0 E0. induction E as [|c m cs ms Hc Hcs IH]; intros a0 E0.
  - inversion E0. constructor.
  - inversion E0 as [|? c' ? cs' Hc' Hcs']; subst. constructor; [|by apply IH].
    inv_all. simplify_eq.
    repeat match goal with
           | H : as_column _ _ = Ok _ |- _ => apply as_column_Ok in H as [-> ?]
           end.
    split; [done|]. simpl in *. eexists _, _. by split_and!.
Qed.

Lemma smoothed_by_names kw n (cs cs' : list (string * series F)) :
  Forall2 (smoothed_by kw n) cs cs' → cs'.*1 = cs.*1.
Proof. induction 1 as [|c c' cs cs' [Hn _] _ IH]; simpl; by f_equal. Qed.

Lemma smoothed_by_len kw n (cs cs' : list (string * series F)) :
  Forall2 (smoothed_by kw n) cs cs' → Forall (fun c => series_len c.2 = n) cs'.
Proof.
  induction 1 as [|c c' cs cs' (_ & m & y & _ & _ & Hl & Hy) _ IH]; constructor;
    [|done].
  by rewrite Hy.
Qed.

Lemma smooth_Ok df t :
  smooth df = Ok t →
  ∃ rc rp,
    Forall2 (smoothed_by rollc_kwargs (nrows df)) (columns df) rc ∧
    Forall2 (smoothed_by rollp_kwargs (nrows df)) (columns df) rp ∧
    nrows t = nrows df ∧
    columns t = columns df
                ++ (prod_map (fun c => c +:+ "_c5min_norm") id <$> rc)
                ++ (prod_map (fun c => c +:+ "_p5min_norm") id <$> rp) ∧
    (∀ c, c ∈ column_names df →
          c ∉ (fun c => c +:+ "_c5min_norm") <$> column_names df) ∧
    (∀ c, c ∈ column_names df ++ ((fun c => c +:+ "_c5min_norm") <$> column_names df) →
          c ∉ (fun c => c +:+ "_p5min_norm") <$> column_names df).
Proof.
  unfold smooth. intros Hs. inv_all.
  apply rolling_norm_Ok in E as [Hnc Hc]. apply rolling_norm_Ok in E0 as [Hnp Hp].
  pose proof (smoothed_by_names _ _ _ _ Hc) as Hcn.
  pose proof (smoothed_by_names _ _ _ _ Hp) as Hpn.
  apply join_Ok in E1 as (Hn1 & Hc1 & Hd1).
  2:{ unfold add_suffix. simpl. rewrite Forall_fmap.
      eapply Forall_impl; [by eapply smoothed_by_len|]. by intros [??]. }
  apply join_Ok in Hs as (Hn2 & Hc2 & Hd2).
  2:{ unfold add_suffix. simpl. rewrite Forall_fmap, Hn1.
      eapply Forall_impl; [by eapply smoothed_by_len|]. by intros [??]. }
  exists (columns a), (columns a0). split_and!; [done|done|congruence| | |].
  - by rewrite Hc2, Hc1, <- app_assoc.
  - intros c Hin. specialize (Hd1 c Hin).
    rewrite column_names_add_suffix in Hd1. unfold column_names in Hd1 at 1.
    by rewrite Hcn in Hd1.
  - intros c Hin. specialize (Hd2 c).
    rewrite column_names_add_suffix in Hd2. unfold column_names in Hd2 at 2.
    rewrite Hpn in Hd2. apply Hd2.
    unfold column_names at 1. rewrite Hc1, fmap_app.
    replace ((columns (add_suffix "_c5min_norm" a)).*1)
      with ((fun c => c +:+ "_c5min_norm") <$> column_names df); [done|].
    change ((columns (add_suffix "_c5min_norm" a)).*1)
      with (column_names (add_suffix "_c5min_norm" a)).
    rewrite column_names_add_suffix. unfold column_names at 2. by rewrite Hcn.
Qed.

Lemma prod_map_names {A} (g : string → string) (l : list (string * A)) :
  (prod_map g id <$> l).*1 = g <$> l.*1.
Proof. induction l as [|[??] l IH]; simpl; by f_equal. Qed.

Lemma smooth_columns df t :
  smooth df = Ok t → column_names t = smoothed_columns (column_names df).
Proof.
  intros (rc & rp & Hc & Hp & _ & Hcols & _)%smooth_Ok.
  unfold column_names, smoothed_columns. rewrite Hcols, !fmap_app, !prod_map_names.
  by rewrite (smoothed_by_names _ _ _ _ Hc), (smoothed_by_names _ _ _ _ Hp).
Qed.

(** C4. Smoothing keeps every base column where it is and appends, for
    each of them, the robust-scaled (5th to 95th percentile) mean over
    a centered triangular window of 11 epochs and the robust-scaled
    mean over the window of the last 10 epochs, both with
    [min_periods=1], under the name of the column followed by
    ['_c5min_norm'] and ['_p5min_norm']. *)
Theorem C4_smoothing_appends_both_rolling_means df t :
  smooth df = Ok t →
  nrows t = nrows df ∧
  length (columns t) = (3 * length (columns df))%nat ∧
  ∀ i c s,
    columns df !! i = Some (c, s) →
    columns t !! i = Some (c, s) ∧
    (∃ m y,
       rolling_mean (mkRolling 11 true 1 (Some "triang")) (as_float s) = Ok m ∧
       robust_scale m (5, 95)%Q = Ok y ∧
       columns t !! (length (columns df) + i)%nat
       = Some (c +:+ "_c5min_norm", Float64 y)) ∧
    (∃ m y,
       rolling_mean (mkRolling 10 false 1 None) (as_float s) = Ok m ∧
       robust_scale m (5, 95)%Q = Ok y ∧
       columns t !! (2 * length (columns df) + i)%nat
       = Some (c +:+ "_p5min_norm", Float64 y)).
Proof.
  intros (rc & rp & Hc & Hp & Hn & Hcols & _)%smooth_Ok.
  pose proof (Forall2_length _ _ _ Hc) as Hlc.
  pose proof (Forall2_length _ _ _ Hp) as Hlp.
  split_and!; [done| |].
  - rewrite Hcols, !length_app, !length_fmap. lia.
  - intros i c s Hi.
    assert (i < length (columns df))%nat as Hlt by (by eapply lookup_lt_Some).
    split_and!.
    + rewrite Hcols. by rewrite lookup_app_l.
    + destruct (Forall2_lookup_l _ _ _ _ _ Hc Hi)
        as ([c' s'] & Hi' & Hname & m & y & Hm & Hy & _ & Hs').
      simpl in *. subst c' s'. exists m, y. split_and!; [done|done|].
      rewrite Hcols, lookup_app_r by lia.
      rewrite lookup_app_l by (rewrite length_fmap; lia).
      match goal with
      | |- _ !! ?j = _ => replace j with i by lia
      end.
      by rewrite list_lookup_fmap, Hi'.
    + destruct (Forall2_lookup_l _ _ _ _ _ Hp Hi)
        as ([c' s'] & Hi' & Hname & m & y & Hm & Hy & _ & Hs').
      simpl in *. subst c' s'. exists m, y. split_and!; [done|done|].
      rewrite Hcols, lookup_app_r by lia.
      rewrite lookup_app_r by (rewrite length_fmap; lia).
      match goal with
      | |- _ !! ?j = _ => replace j with i by (rewrite length_fmap; lia)
      end.
      by rewrite list_lookup_fmap, Hi'.
Qed.
End FitStages.

(** ** The feature table: temporal features, metadata, export *)

Lemma string_length_app (s1 s2 : string) :
  String.length (s1 +:+ s2) = (String.length s1 + String.length s2)%nat.
Proof. induction s1 as [|a s1 IH]; simpl; [done|]. by rewrite IH. Qed.

Global Instance string_app_inj_r (sfx : string) : Inj (=) (=) (fun s => s +:+ sfx).
Proof.
  intros s1. induction s1 as [|a s1 IH]; intros [|b s2] Heq; simpl in *.
  - done.
  - apply (f_equal String.length) in Heq.
    rewrite !string_length_app in Heq. simpl in Heq. lia.
  - apply (f_equal String.length) in Heq.
    rewrite !string_length_app in Heq. simpl in Heq. lia.
  - injection Heq as -> Heq. f_equal. by apply IH.
Qed.

Lemma channel_columns_NoDup (c : ch_type) : NoDup (channel_columns c).
Proof. destruct c; apply (bool_decide_unpack _); by vm_compute. Qed.

Lemma channel_columns_disjoint (c1 c2 : ch_type) (y : string) :
  y ∈ channel_columns c1 → y ∈ channel_columns c2 → c1 = c2.
Proof.
  intros H1 H2.
  assert (∀ c c', c ≠ c' →
            Forall (fun y => y ∉ channel_columns c') (channel_columns c)) as Hd.
  { intros c c' Hne.
    destruct c, c'; try done; apply (bool_decide_unpack _); by vm_compute. }
  destruct (decide (c1 = c2)) as [|Hne]; [done|].
  specialize (Hd c1 c2 Hne). rewrite Forall_forall in Hd. by destruct (Hd y H1).
Qed.

Lemma base_columns_NoDup (cs : list ch_type) :
  NoDup cs → NoDup (cs ≫= channel_columns).
Proof.
  intros Hnd. apply NoDup_bind; [|intros; apply channel_columns_NoDup|done].
  intros c1 c2 y _ _. apply channel_columns_disjoint.
Qed.

Lemma smoothed_columns_NoDup (names : list string) :
  NoDup names →
  (∀ c, c ∈ names → c ∉ (fun c => c +:+ "_c5min_norm") <$> names) →
  (∀ c, c ∈ names ++ ((fun c => c +:+ "_c5min_norm") <$> names) →
        c ∉ (fun c => c +:+ "_p5min_norm") <$> names) →
  NoDup (smoothed_columns names).
Proof.
  intros Hnd H1 H2. unfold smoothed_columns. rewrite app_assoc.
  apply NoDup_app. split_and!.
  - apply NoDup_app. split_and!; [done|done|]. by apply (NoDup_fmap_2 _).
  - done.
  - by apply (NoDup_fmap_2 _).
Qed.

Lemma foldl_key_set_NoDup (keys names : list string) :
  NoDup names → NoDup (foldl (fun names k => key_set k names) names keys).
Proof.
  revert names. induction keys as [|k keys IH]; intros names Hnd; [done|].
  simpl. apply IH. by apply key_set_NoDup.
Qed.

Lemma elem_of_foldl_key_set (x : string) (keys names : list string) :
  x ∈ foldl (fun names k => key_set k names) names keys ↔ x ∈ keys ∨ x ∈ names.
Proof.
  revert names. induction keys as [|k keys IH]; intros names; simpl.
  - split; [by right|]. by intros [?%elem_of_nil|?].
  - rewrite IH, elem_of_key_set, elem_of_cons. tauto.
Qed.

Lemma dict_get_Permutation {V} (k : string) (d d' : dict V) :
  NoDup (dict_keys d) → d ≡ₚ d' → dict_get k d = dict_get k d'.
Proof.
  intros Hnd Hp.
  assert (NoDup (dict_keys d')) as Hnd' by (unfold dict_keys; by rewrite <- Hp).
  destruct (dict_get k d) as [v|] eqn:E; symmetry.
  - apply dict_get_NoDup; [done|]. rewrite <- Hp. by apply dict_get_Some_elem.
  - apply dict_get_None. apply dict_get_None in E.
    unfold dict_keys in *. by rewrite <- Hp.
Qed.

Section FitTable.
Context {F : Type} {num : Numeric F} {lib : Lib F}.
Implicit Types (df : DataFrame F) (s : series F) (d : dict pyval).

Lemma column_names_set_column name s df df' :
  set_column name s df = Ok df' →
  nrows df' = nrows df ∧ column_names df' = key_set name (column_names df).
Proof.
  intros (_ & Hn & Hc)%set_column_Ok. split; [done|].
  unfold column_names. rewrite Hc. apply dict_set_keys.
Qed.

Lemma add_temporal_Ok times df df' :
  add_temporal times df = Ok df' →
  nrows df' = nrows df ∧
  column_names df'
  = key_set "time_norm" (key_set "time_hour" (column_names df)).
Proof.
  unfold add_temporal. intros Ht. inv_all.
  apply column_names_set_column in E as [Hn1 Hc1].
  apply column_names_set_column in Ht as [Hn2 Hc2].
  split; [congruence|]. by rewrite Hc2, Hc1.
Qed.

Lemma add_metadata_nrows d df : nrows (add_metadata d df) = nrows df.
Proof.
  unfold add_metadata. revert df.
  induction d as [|[k v] d IH]; intros df; [done|]. simpl. by rewrite IH.
Qed.

Lemma add_metadata_names d df :
  column_names (add_metadata d df)
  = foldl (fun names k => key_set k names) (column_names df) (dict_keys d).
Proof.
  unfold add_metadata. revert df.
  induction d as [|[k v] d IH]; intros df; [done|].
  simpl. rewrite IH. f_equal. apply dict_set_keys.
Qed.

Lemma add_metadata_get_other d df k :
  k ∉ dict_keys d → get_column k (add_metadata d df) = get_column k df.
Proof.
  unfold add_metadata. revert df.
  induction d as [|[k' v'] d IH]; intros df Hk; [done|].
  simpl. apply not_elem_of_cons in Hk as [Hne Hk]. rewrite IH by done.
  unfold get_column, set_scalar. simpl. by apply dict_get_set_ne.
Qed.

Lemma add_metadata_get d df k v :
  NoDup (dict_keys d) → dict_get k d = Some v →
  get_column k (add_metadata d df) = Some (broadcast (nrows df) v).
Proof.
  revert df. induction d as [|[k' v'] d IH]; intros df Hnd Hg; [done|].
  apply NoDup_cons in Hnd as [Hk' Hnd]. simpl in Hg.
  change (add_metadata ((k', v') :: d) df)
    with (add_metadata d (set_scalar k' v' df)).
  destruct (decide (k = k')) as [->|Hne].
  - injection Hg as ->. rewrite add_metadata_get_other by done.
    unfold get_column, set_scalar. simpl. apply dict_get_set_eq.
  - by rewrite (IH _ Hnd Hg).
Qed.

Lemma get_column_downcast k df :
  get_column k (downcast df) = downcast_series <$> get_column k df.
Proof.
  unfold get_column, downcast. simpl.
  induction (columns df) as [|[k' s] l IH]; [done|].
  simpl. by destruct (decide (k = k')).
Qed.

Lemma get_column_sort_index k df :
  NoDup (column_names df) → get_column k (sort_index df) = get_column k df.
Proof.
  intros Hnd. unfold get_column, sort_index. simpl. symmetry.
  apply dict_get_Permutation; [done|]. by rewrite merge_sort_Permutation.
Qed.

Lemma export_Ok df t :
  export df = Ok t →
  nrows t = nrows df ∧
  column_names t = merge_sort String.le (column_names df) ∧
  (NoDup (column_names df) →
   ∀ k, k ≠ "age" → k ≠ "male" →
        get_column k t = downcast_series <$> get_column k df).
Proof.
  unfold export. intros He. inv_all. simplify_eq.
  apply encode_int_Ok in E as (Hn1 & Hc1 & Hg1).
  apply encode_int_Ok in E0 as (Hn2 & Hc2 & Hg2).
  split_and!.
  - simpl in *. congruence.
  - by rewrite column_names_sort_index, Hc2, Hc1, dict_keys_downcast.
  - intros Hnd k Hage Hmale.
    rewrite get_column_sort_index by (by rewrite Hc2, Hc1, dict_keys_downcast).
    by rewrite Hg2, Hg1, get_column_downcast.
Qed.

(** The stages of [fit_features]. *)
Lemma fit_features_Ok (self : SleepStaging F) (md : option (dict pyval)) t :
  fit_features self md = Ok t →
  ∃ per_channel base smoothed temporal,
    channels_loop (sf self) (data self) 0 (ch_types self) = Ok per_channel ∧
    concat per_channel.*2 = Ok base ∧
    smooth base = Ok smoothed ∧
    (∃ r, last per_channel = Some r ∧ add_temporal r.1 smoothed = Ok temporal) ∧
    export (match md with
            | Some d => add_metadata d temporal
            | None => temporal
            end) = Ok t.
Proof.
  unfold fit_features. intros Hf. inv_all.
  destruct (last a) as [r|] eqn:El; simplify_eq.
  eexists _, _, _, _. split_and!; eauto.
Qed.

Lemma fit_features_names (self : SleepStaging F) md t :
  fit_features self md = Ok t →
  ∃ unsorted,
    unsorted = foldl (fun names k => key_set k names)
                 (key_set "time_norm"
                    (key_set "time_hour"
                       (smoothed_columns (ch_types self ≫= channel_columns))))
                 (default [] (dict_keys <$> md)) ∧
    column_names t = merge_sort String.le unsorted ∧
    (NoDup (ch_types self) → NoDup unsorted).
Proof.
  intros (pc & base & sm & tp & Hloop & Hcat & Hsm & (r & _ & Htp) & Hex)%fit_features_Ok.
  apply channels_loop_columns in Hloop.
  apply concat_Ok in Hcat as (_ & Hbase & _). rewrite Hloop in Hbase.
  pose proof (smooth_columns _ _ Hsm) as Hsmn.
  apply smooth_Ok in Hsm as (_ & _ & _ & _ & _ & _ & Hd1 & Hd2).
  rewrite Hbase in Hsmn, Hd1, Hd2.
  apply add_temporal_Ok in Htp as [_ Htpn]. rewrite Hsmn in Htpn.
  apply export_Ok in Hex as (_ & Hexn & _).
  eexists. split; [reflexivity|]. split.
  - rewrite Hexn. destruct md as [d|]; simpl.
    + by rewrite add_metadata_names, Htpn.
    + by rewrite Htpn.
  - intros Hnd. apply foldl_key_set_NoDup. do 2 apply key_set_NoDup.
    apply smoothed_columns_NoDup; [by apply base_columns_NoDup|done|done].
Qed.

(** C3. The columns of the finalized table are in lexicographic order,
    and they are the sorted list of names that the channel roles and
    the metadata keys determine: two runs with the same roles and keys
    give the same columns in the same order, whatever the signals. *)
Theorem C3_columns_sorted_and_determined (self : SleepStaging F) md t :
  fit_features self md = Ok t →
  StronglySorted String.le (column_names t) ∧
  column_names t = feature_names (ch_types self) (dict_keys <$> md) ∧
  ∀ (self' : SleepStaging F) md' t',
    fit_features self' md' = Ok t' →
    ch_types self' = ch_types self →
    dict_keys <$> md' = dict_keys <$> md →
    column_names t' = column_names t.
Proof.
  intros Hf.
  assert (∀ (s : SleepStaging F) m u,
            fit_features s m = Ok u →
            column_names u = feature_names (ch_types s) (dict_keys <$> m)) as Hn.
  { intros s m u (unsorted & -> & Hs & _)%fit_features_names. done. }
  split_and!.
  - rewrite (Hn _ _ _ Hf). apply StronglySorted_merge_sort; apply _.
  - by apply Hn.
  - intros self' md' t' Hf' Hc Hk.
    by rewrite (Hn _ _ _ Hf), (Hn _ _ _ Hf'), Hc, Hk.
Qed.
End FitTable.

(** ** Prediction and the cached probabilities *)

Lemma M_bind_Ok {S A B} (m : M S A) (f : A → M S B) (s s' : S) (b : B) :
  (m ≫= f) s = (s', Ok b) ↔ ∃ a s1, m s = (s1, Ok a) ∧ f a s1 = (s', Ok b).
Proof.
  unfold mbind, M_bind. destruct (m s) as [s1 [a|e]]; split.
  - intros Hf. by exists a, s1.
  - by intros (a' & s1' & [= -> ->] & Hf).
  - done.
  - by intros (a' & s1' & [=] & _).
Qed.

Section Predict.
Context {F : Type} {num : Numeric F} {lib : Lib F}.
Implicit Types (w : world F) (df : DataFrame F).

Lemma copy_frame_spec w l df :
  heap w !! l = Some (OFrame df) →
  on_heap (copy_frame l) w
  = (mkWorld (heap w ++ [OFrame df]) (instance w), Ok (length (heap w))).
Proof.
  intros Hl. unfold on_heap, copy_frame, load_frame, new, mbind, M_bind.
  by rewrite Hl.
Qed.

(** A successful [predict] leaves its probability table in a new
    object, which [self._proba] refers to. *)
Lemma predict_sets_proba path w w' labels :
  predict path w = (w', Ok labels) →
  ∃ l df, _proba (instance w') = Some l ∧ heap w' !! l = Some (OFrame df).
Proof.
  unfold predict. intros Hp.
  do 10 (apply M_bind_Ok in Hp as (? & ? & _ & Hp)).
  apply M_bind_Ok in Hp as (l & w1 & Hnew & Hp).
  apply M_bind_Ok in Hp as ([] & w2 & Hset & Hp).
  injection Hp as -> _.
  unfold on_heap, new in Hnew. injection Hnew as <- <-.
  unfold set_self, modify in Hset. injection Hset as <-. simpl.
  eexists _, _. split; [done|].
  rewrite lookup_app_r by done. by rewrite Nat.sub_diag.
Qed.

(** C8. When a probability table is cached, [predict_proba] returns a
    new object holding the same table — whatever [path_to_model] is,
    without calling [predict] and leaving the instance as it was — so
    that nothing written through the returned reference reaches the
    cached table. When none is cached, [predict] runs first: its
    exception is passed on, and on success the table it cached is
    returned in the same way. *)
Theorem C8_predict_proba_copy_of_cache path w :
  (∀ l df,
     _proba (instance w) = Some l → heap w !! l = Some (OFrame df) →
     predict_proba path w
     = (mkWorld (heap w ++ [OFrame df]) (instance w), Ok (length (heap w))) ∧
     length (heap w) ≠ l ∧
     ∀ o, <[length (heap w) := o]> (heap w ++ [OFrame df]) !! l = Some (OFrame df)) ∧
  (_proba (instance w) = None →
   (∀ w' e, predict path w = (w', Raise e) →
            predict_proba path w = (w', Raise e)) ∧
   (∀ w' labels, predict path w = (w', Ok labels) →
      ∃ l df, _proba (instance w') = Some l ∧
              heap w' !! l = Some (OFrame df) ∧
              predict_proba path w
              = (mkWorld (heap w' ++ [OFrame df]) (instance w'),
                 Ok (length (heap w'))))).
Proof.
  split.
  - intros l df Hc Hl.
    assert (l < length (heap w))%nat as Hlt by (by eapply lookup_lt_Some).
    split_and!.
    + unfold predict_proba, mbind, M_bind, gets, mret, M_ret. simpl.
      rewrite Hc. simpl. rewrite Hc. by apply copy_frame_spec.
    + lia.
    + intros o. rewrite list_lookup_insert_ne by lia.
      by rewrite lookup_app_l.
  - intros Hnone. split.
    + intros w' e Hp.
      unfold predict_proba, mbind, M_bind, gets. simpl.
      rewrite Hnone. fold (@mbind (M (world F)) _). unfold mbind, M_bind.
      by rewrite Hp.
    + intros w' labels Hp.
      destruct (predict_sets_proba _ _ _ _ Hp) as (l & df & Hc & Hl).
      exists l, df. split_and!; [done|done|].
      unfold predict_proba, mbind, M_bind, gets, mret, M_ret. simpl.
      rewrite Hnone. fold (@mbind (M (world F)) _). unfold mbind, M_bind.
      rewrite Hp. simpl. rewrite Hc. by apply copy_frame_spec.
Qed.
End Predict.

(** ** fit as a method; metadata columns; the filtered signal *)

Section FitMethod.
Context {F : Type} {num : Numeric F} {lib : Lib F}.
Implicit Types (w : world F) (d : dict pyval).

(** The table before [export], that is with the metadata columns. *)
Lemma fit_features_pre_export (self : SleepStaging F) md t :
  fit_features self md = Ok t →
  ∃ temporal,
    export (match md with
            | Some d => add_metadata d temporal
            | None => temporal
            end) = Ok t ∧
    (NoDup (ch_types self) →
     NoDup (column_names (match md with
                          | Some d => add_metadata d temporal
                          | None => temporal
                          end))).
Proof.
  intros (pc & base & sm & tp & Hloop & Hcat & Hsm & (r & _ & Htp) & Hex)%fit_features_Ok.
  exists tp. split; [done|]. intros Hnd.
  apply channels_loop_columns in Hloop.
  apply concat_Ok in Hcat as (_ & Hbase & _). rewrite Hloop in Hbase.
  pose proof (smooth_columns _ _ Hsm) as Hsmn.
  apply smooth_Ok in Hsm as (_ & _ & _ & _ & _ & _ & Hd1 & Hd2).
  rewrite Hbase in Hsmn, Hd1, Hd2.
  apply add_temporal_Ok in Htp as [_ Htpn]. rewrite Hsmn in Htpn.
  assert (NoDup (column_names tp)) as Hndtp.
  { rewrite Htpn. do 2 apply key_set_NoDup.
    apply smoothed_columns_NoDup; [by apply base_columns_NoDup|done|done]. }
  destruct md as [d|]; [|done].
  rewrite add_metadata_names. by apply foldl_key_set_NoDup.
Qed.

(** The dict [self.metadata] refers to, as [fit] reads it. *)
Definition metadata_of w (md : option (dict pyval)) : Prop :=
  match metadata (instance w) with
  | Some l => ∃ d, heap w !! l = Some (ODict d) ∧ md = Some d
  | None => md = None
  end.

Lemma fit_Ok w w' :
  fit w = (w', Ok tt) →
  ∃ md t,
    metadata_of w md ∧
    fit_features (instance w) md = Ok t ∧
    w' = mkWorld (heap w ++ [OFrame t])
           (set__features (length (heap w)) (column_names t) (instance w)).
Proof.
  unfold fit. intros Hf.
  apply M_bind_Ok in Hf as (self & w1 & Hg & Hf). injection Hg as <- <-.
  apply M_bind_Ok in Hf as (md & w2 & Hmd & Hf).
  apply M_bind_Ok in Hf as (t & w3 & Ht & Hf).
  apply M_bind_Ok in Hf as (l & w4 & Hnew & Hf).
  unfold lift in Ht. injection Ht as <- Ht.
  unfold on_heap, new in Hnew. injection Hnew as <- <-.
  unfold set_self, modify in Hf. injection Hf as <-.
  assert (w2 = w ∧ metadata_of w md) as [-> Hm].
  { unfold metadata_of. destruct (metadata (instance w)) as [l|].
    - apply M_bind_Ok in Hmd as (d & w5 & Hl & Hr). injection Hr as <- <-.
      unfold on_heap, load_dict in Hl.
      destruct (heap w !! l) as [[d'|?]|] eqn:E; simplify_eq.
      destruct w. eauto.
    - by injection Hmd as <- <-. }
  exists md, t. by destruct w.
Qed.

(** The male check of the metadata block. *)
Definition male_ok d : bool :=
  match dict_get "male" d with
  | Some male => bool_decide (py_int male ∈ [0; 1]%Z)
  | None => true
  end.

(** C9. A metadata dict is accepted by the constructor whatever keys
    it has besides ['age'] and ['male'] (only these two are checked);
    and [fit] puts every other key into the finalized table as a
    column that holds the key's value at every epoch. *)
Theorem C9_metadata_keys_become_columns :
  (∀ (raw : Raw F) eeg_name eog_name emg_name l (h : list (obj F)) d,
     h !! l = Some (ODict d) → age_ok d = true → male_ok d = true →
     (__init__ raw eeg_name eog_name emg_name (Some l) h).2
     = load_recording raw eeg_name eog_name emg_name (Some l)) ∧
  (∀ w w' l d,
     metadata (instance w) = Some l → heap w !! l = Some (ODict d) →
     NoDup (dict_keys d) → NoDup (ch_types (instance w)) →
     fit w = (w', Ok tt) →
     ∃ t, _features (instance w') = Some (length (heap w)) ∧
          heap w' !! length (heap w) = Some (OFrame t) ∧
          ∀ k v, dict_get k d = Some v → k ≠ "age" → k ≠ "male" →
                 k ∈ column_names t ∧
                 get_column k t
                 = Some (downcast_series (broadcast (nrows t) v))).
Proof.
  split.
  - intros raw eeg_name eog_name emg_name l h d Hl Ha Hm.
    rewrite (init_metadata_spec _ _ _ _ _ _ d Hl).
    rewrite (validate_metadata_spec _ _ d Hl), Ha.
    unfold male_ok in Hm. destruct (dict_get "male" d); [|done].
    by rewrite Hm.
  - intros w w' l d Hml Hl Hndk Hndc (md & t & Hmd & Hf & ->)%fit_Ok.
    unfold metadata_of in Hmd. rewrite Hml in Hmd.
    destruct Hmd as (d' & Hl' & ->). rewrite Hl in Hl'. injection Hl' as <-.
    exists t. split_and!; [done| |].
    { simpl. rewrite lookup_app_r by done. by rewrite Nat.sub_diag. }
    intros k v Hk Hage Hmale.
    apply fit_features_pre_export in Hf as (tp & Hex & Hnd).
    apply export_Ok in Hex as (Hnt & _ & Hget).
    rewrite add_metadata_nrows in Hnt.
    assert (get_column k t = Some (downcast_series (broadcast (nrows t) v))) as Hg.
    { rewrite (Hget (Hnd Hndc) k Hage Hmale).
      by rewrite (add_metadata_get d tp k v Hndk Hk), Hnt. }
    split; [|done].
    apply dict_get_Some_elem in Hg. apply list_elem_of_fmap.
    by eexists (k, _).
Qed.
End FitMethod.

(** ** Runs of the reference instance *)

Lemma C3_columns_sorted_and_determined_witness :
  ∃ t, fit_features (example_instance None) (Some caller_metadata) = Ok t ∧
       StronglySorted String.le (column_names t) ∧
       column_names t
       = feature_names (ch_types (example_instance None))
           (dict_keys <$> Some caller_metadata).
Proof.
  destruct (fit_features (example_instance None) (Some caller_metadata))
    as [t|e] eqn:E.
  - exists t. split; [reflexivity|].
    destruct (C3_columns_sorted_and_determined _ _ _ E) as (Hs & Hn & _).
    exact (conj Hs Hn).
  - exfalso.
    assert (is_ok (fit_features (example_instance None) (Some caller_metadata)) = true)
      as Hok by (vm_compute; reflexivity).
    rewrite E in Hok. discriminate Hok.
Defined.

Lemma C4_smoothing_appends_both_rolling_means_witness :
  ∃ t, smooth example_base_table = Ok t ∧
       nrows t = nrows example_base_table ∧
       length (columns t) = (3 * length (columns example_base_table))%nat.
Proof.
  destruct (smooth example_base_table) as [t|e] eqn:E.
  - exists t. split; [reflexivity|].
    destruct (C4_smoothing_appends_both_rolling_means _ _ E) as (Hn & Hl & _).
    exact (conj Hn Hl).
  - exfalso.
    assert (is_ok (smooth example_base_table) = true) as Hok
      by (vm_compute; reflexivity).
    rewrite E in Hok. discriminate Hok.
Defined.

Lemma C8_predict_proba_copy_of_cache_witness :
  (predict_proba "no_such_file.joblib" example_predicted
   = (mkWorld [OFrame example_proba; OFrame example_proba] (instance example_predicted),
      Ok 1%nat)) ∧
  ∃ w' labels l df,
    predict (lib := reference_lib example_files) "auto" (mkWorld [] (example_instance None))
    = (w', Ok labels) ∧
    _proba (instance w') = Some l ∧
    heap w' !! l = Some (OFrame df) ∧
    predict_proba (lib := reference_lib example_files) "auto"
      (mkWorld [] (example_instance None))
    = (mkWorld (heap w' ++ [OFrame df]) (instance w'), Ok (length (heap w'))).
Proof.
  split.
  - destruct (C8_predict_proba_copy_of_cache "no_such_file.joblib" example_predicted)
      as [Hcached _].
    destruct (Hcached 0%nat example_proba eq_refl eq_refl) as [Hp _].
    exact Hp.
  - destruct (predict (lib := reference_lib example_files) "auto"
                (mkWorld [] (example_instance None))) as [w' [labels|e]] eqn:E.
    + destruct (C8_predict_proba_copy_of_cache (lib := reference_lib example_files)
                  "auto" (mkWorld [] (example_instance None))) as [_ Hnone].
      destruct (Hnone eq_refl) as [_ Hok].
      destruct (Hok w' labels E) as (l & df & Hl & Hdf & Hp).
      exists w', labels, l, df. split_and!; [reflexivity|exact Hl|exact Hdf|exact Hp].
    + exfalso.
      assert (is_ok (predict (lib := reference_lib example_files) "auto"
                       (mkWorld [] (example_instance None))).2 = true) as Hok
        by (vm_compute; reflexivity).
      rewrite E in Hok. discriminate Hok.
Defined.

Lemma C9_metadata_keys_become_columns_witness :
  ((__init__ (silent_recording 100 5) "C4" None None (Some 0%nat)
      [ODict caller_metadata]).2
   = load_recording (silent_recording 100 5) "C4" None None (Some 0%nat)) ∧
  ∃ w' t,
    fit (mkWorld [ODict caller_metadata] (example_instance (Some 0%nat))) = (w', Ok tt) ∧
    heap w' !! 1%nat = Some (OFrame t) ∧
    get_column "site" t = Some (downcast_series (broadcast (nrows t) (PInt 7))).
Proof.
  destruct (C9_metadata_keys_become_columns (F := xfloat)) as [Hinit Hfit].
  split.
  - exact (Hinit (silent_recording 100 5) "C4" None None 0%nat
             [ODict caller_metadata] caller_metadata eq_refl eq_refl eq_refl).
  - destruct (fit (mkWorld [ODict caller_metadata] (example_instance (Some 0%nat))))
      as [w' [[]|e]] eqn:E.
    + assert (NoDup (dict_keys caller_metadata)) as Hk
        by (apply (bool_decide_unpack _); by vm_compute).
      assert (NoDup [eeg; eog]) as Hc
        by (apply (bool_decide_unpack _); by vm_compute).
      destruct (Hfit (mkWorld [ODict caller_metadata] (example_instance (Some 0%nat)))
                  w' 0%nat caller_metadata eq_refl eq_refl Hk Hc E)
        as (t & _ & Ht & Hcols).
      exists w', t. split_and!; [reflexivity|exact Ht|].
      destruct (Hcols "site" (PInt 7) eq_refl) as [_ Hg]; [discriminate|discriminate|].
      exact Hg.
    + exfalso.
      assert (is_ok (fit (mkWorld [ODict caller_metadata]
                            (example_instance (Some 0%nat)))).2 = true) as Hok
        by (vm_compute; reflexivity).
      rewrite E in Hok. discriminate Hok.
Defined.

(** * Further properties of the source *)

(** ** Caching: fit, get_features, predict *)

Lemma M_bind_Raise {S A B} (m : M S A) (f : A → M S B) (s s' : S) (e : exn) :
  (m ≫= f) s = (s', Raise e) ↔
  m s = (s', Raise e) ∨ ∃ a s1, m s = (s1, Ok a) ∧ f a s1 = (s', Raise e).
Proof.
  unfold mbind, M_bind. destruct (m s) as [s1 [a|e']]; split.
  - intros Hf. right. by exists a, s1.
  - intros [[=]|(a' & s1' & [= -> ->] & Hf)]. done.
  - intros [= -> ->]. by left.
  - intros [[= -> ->]|(a' & s1' & [=] & _)]. done.
Qed.

Lemma world_eta {F} (w : world F) : mkWorld (heap w) (instance w) = w.
Proof. by destruct w. Qed.

Section Caching.
Context {F : Type} {num : Numeric F} {lib : Lib F}.
Implicit Types (w : world F) (t : DataFrame F).

(** What [fit] leaves behind when it raises: nothing. *)
Lemma fit_Raise w w' e : fit w = (w', Raise e) → w' = w.
Proof.
  unfold fit. intros Hf.
  apply M_bind_Raise in Hf as [[=]|(self & w1 & Hg & Hf)].
  injection Hg as <- <-.
  apply M_bind_Raise in Hf as [Hf|(md & w2 & Hmd & Hf)].
  { destruct (metadata (instance w)) as [l|]; [|discriminate Hf].
    apply M_bind_Raise in Hf as [Hf|(d & w3 & _ & [=])].
    unfold on_heap, load_dict in Hf. injection Hf as <- _. apply world_eta. }
  assert (w2 = w) as ->.
  { destruct (metadata (instance w)) as [l|]; [|by injection Hmd as <- _].
    apply M_bind_Ok in Hmd as (d & w3 & Hl & [= <- _]).
    unfold on_heap, load_dict in Hl. injection Hl as <- _. apply world_eta. }
  apply M_bind_Raise in Hf as [Hf|(t & w3 & Ht & Hf)].
  { by injection Hf as <- _. }
  apply M_bind_Raise in Hf as [[=]|(l & w4 & _ & [=])].
Qed.

(** X2. When [fit] returns, the table is a new object, [self._features]
    refers to it, [self.feature_name_] lists its (sorted) columns, and
    neither an object that existed nor another attribute has changed;
    when [fit] raises, nothing has changed at all. *)
Theorem X2_fit_caches_table_and_names w w' (r : result unit) :
  fit w = (w', r) →
  match r with
  | Ok _ =>
      ∃ t, heap w' = heap w ++ [OFrame t] ∧
           _features (instance w') = Some (length (heap w)) ∧
           feature_name_ (instance w') = Some (column_names t) ∧
           StronglySorted String.le (column_names t) ∧
           sf (instance w') = sf (instance w) ∧
           ch_names (instance w') = ch_names (instance w) ∧
           ch_types (instance w') = ch_types (instance w) ∧
           data (instance w') = data (instance w) ∧
           metadata (instance w') = metadata (instance w) ∧
           _predicted (instance w') = _predicted (instance w) ∧
           _proba (instance w') = _proba (instance w)
  | Raise _ => w' = w
  end.
Proof.
  destruct r as [[]|e]; [|apply fit_Raise].
  intros (md & t & _ & Hf & ->)%fit_Ok. exists t. simpl. split_and!; try done.
  apply fit_features_names in Hf as (unsorted & _ & -> & _).
  apply StronglySorted_merge_sort; apply _.
Qed.

(** The last step of [get_features]: the copy. *)
Lemma get_features_tail w l t :
  _features (instance w) = Some l → heap w !! l = Some (OFrame t) →
  (self ← gets instance;
   match _features self with
   | Some l => on_heap (copy_frame l)
   | None => lift (Raise (AttributeError "_features"))
   end) w
  = (mkWorld (heap w ++ [OFrame t]) (instance w), Ok (length (heap w))).
Proof.
  intros Hf Hl. unfold mbind, M_bind, gets. simpl. rewrite Hf.
  by apply copy_frame_spec.
Qed.

Lemma get_features_unfitted w :
  _features (instance w) = None →
  get_features w
  = match fit w with
    | (w', Ok _) =>
        (self ← gets instance;
         match _features self with
         | Some l => on_heap (copy_frame l)
         | None => lift (Raise (AttributeError "_features"))
         end) w'
    | (w', Raise e) => (w', Raise e)
    end.
Proof.
  intros Hnone. unfold get_features.
  unfold mbind at 1, M_bind at 1, gets at 1. rewrite Hnone.
  unfold mbind at 1, M_bind at 1. by destruct (fit w) as [w' [[]|e]].
Qed.

Lemma get_features_fitted w l t :
  _features (instance w) = Some l → heap w !! l = Some (OFrame t) →
  get_features w = (mkWorld (heap w ++ [OFrame t]) (instance w), Ok (length (heap w))).
Proof.
  intros Hf Hl. unfold get_features, mbind, M_bind, gets, mret, M_ret. simpl.
  rewrite Hf. simpl. rewrite Hf. by apply copy_frame_spec.
Qed.

(** X1. On a fitted instance [get_features] returns a new object with
    the cached table and changes nothing else; a second call returns yet
    another object with the same table, also after the caller has
    overwritten the first one. *)
Theorem X1_get_features_returns_independent_copies w l t :
  _features (instance w) = Some l → heap w !! l = Some (OFrame t) →
  get_features w
  = (mkWorld (heap w ++ [OFrame t]) (instance w), Ok (length (heap w))) ∧
  length (heap w) ≠ l ∧
  ∀ o, get_features (mkWorld (<[length (heap w) := o]> (heap w ++ [OFrame t]))
                       (instance w))
       = (mkWorld (<[length (heap w) := o]> (heap w ++ [OFrame t]) ++ [OFrame t])
            (instance w),
          Ok (S (length (heap w)))).
Proof.
  intros Hf Hl.
  assert (l < length (heap w))%nat as Hlt by (by eapply lookup_lt_Some).
  split_and!; [by apply (get_features_fitted _ l)|lia|].
  intros o.
  rewrite (get_features_fitted _ l t); simpl.
  - by rewrite length_insert, length_app, Nat.add_1_r.
  - done.
  - rewrite list_lookup_insert_ne by lia. by rewrite lookup_app_l.
Qed.

(** X6. On an instance that is not fitted [get_features] runs [fit]
    first: it fails with the exception of [fit], without any change, or
    returns a copy of the table that [fit] has just cached. *)
Theorem X6_get_features_fits_first w w' (r : result unit) :
  _features (instance w) = None → fit w = (w', r) →
  match r with
  | Raise e => get_features w = (w, Raise e)
  | Ok _ => ∃ t, heap w' = heap w ++ [OFrame t] ∧
                 get_features w
                 = (mkWorld (heap w ++ [OFrame t; OFrame t]) (instance w'),
                    Ok (S (length (heap w))))
  end.
Proof.
  intros Hnone Hfit. rewrite (get_features_unfitted _ Hnone).
  destruct r as [[]|e].
  - pose proof Hfit as (md & t & _ & _ & Hw)%fit_Ok.
    exists t. split; [by rewrite Hw|]. rewrite Hfit.
    rewrite (get_features_tail w' (length (heap w)) t).
    + rewrite Hw. simpl. by rewrite <- app_assoc, length_app, Nat.add_1_r.
    + by rewrite Hw.
    + rewrite Hw. simpl. rewrite lookup_app_r by done. by rewrite Nat.sub_diag.
  - pose proof (fit_Raise _ _ _ Hfit) as ->. by rewrite Hfit.
Qed.
End Caching.

(** ** Prediction: what the classifier receives, and what a failure leaves *)

Section Prediction.
Context {F : Type} {num : Numeric F} {lib : Lib F}.
Implicit Types (w : world F) (t : DataFrame F) (clf : Classifier F).

(** The classifier [_load_model] returns, or its exception. *)
Definition loaded_model (self : SleepStaging F) (path_to_model : string)
  : result (Classifier F) :=
  _ ← assert (isfile (model_path self path_to_model)) "File does not exist.";
  clf ← joblib_load (model_path self path_to_model);
  _ ← _validate_predict self clf;
  Ok clf.

Lemma _load_model_spec path w :
  _load_model path w = (w, loaded_model (instance w) path).
Proof.
  unfold _load_model, loaded_model, mbind at 1, M_bind at 1, gets at 1.
  unfold mbind at 1, M_bind at 1, lift at 1, assert.
  destruct (isfile _); [|done]. simpl.
  unfold mbind at 1, M_bind at 1, lift at 1.
  destruct (joblib_load _) as [clf|e]; [|done]. simpl.
  unfold mbind at 1, M_bind at 1, lift at 1.
  by destruct (_validate_predict _ clf) as [[]|e].
Qed.

(** [predict] on an instance that has its features. *)
Definition predict_fitted (path_to_model : string) : M (world F) (list string) :=
  clf ← _load_model path_to_model;
  self ← gets instance;
  features ← match _features self with
             | Some l => on_heap (load_frame l)
             | None => lift (Raise (AttributeError "_features"))
             end;
  X ← lift (select_columns (clf_feature_name_ clf) features);
  predicted ← lift (clf_predict clf X);
  _ ← set_self (set__predicted predicted);
  p ← lift (clf_predict_proba clf X);
  proba ← lift (frame_of_rows p (classes_ clf));
  l ← on_heap (new (OFrame proba));
  _ ← set_self (set__proba l);
  mret predicted.

Lemma predict_unfold path w :
  predict path w
  = match _features (instance w) with
    | Some _ => predict_fitted path w
    | None => match fit w with
              | (w', Ok _) => predict_fitted path w'
              | (w', Raise e) => (w', Raise e)
              end
    end.
Proof.
  unfold predict. unfold mbind at 1, M_bind at 1, gets at 1.
  destruct (_features (instance w)).
  - by unfold mbind at 1, M_bind at 1, mret at 1, M_ret at 1.
  - unfold mbind at 1, M_bind at 1. by destruct (fit w) as [w' [[]|e]].
Qed.

Lemma select_columns_Ok names t X :
  select_columns names t = Ok X →
  column_names X = names ∧ nrows X = nrows t ∧
  ∀ c s, (c, s) ∈ columns X → get_column c t = Some s.
Proof.
  unfold select_columns. intros Hs. inv_all. simplify_eq. simpl.
  apply mapR_Ok in E. split_and!; [|done|].
  - unfold column_names, dict_keys. simpl.
    induction E as [|c [c' s] names cols Hc _ IH]; [done|].
    simpl. f_equal; [|exact IH]. destruct (get_column c t); by simplify_eq.
  - intros c s. simpl.
    induction E as [|c0 [c' s'] names cols Hc _ IH]; intros Hin;
      [by inversion Hin|].
    apply elem_of_cons in Hin as [[= -> ->]|Hin]; [|by apply IH].
    destruct (get_column c0 t) eqn:Hg; by simplify_eq.
Qed.

Lemma select_columns_present names t :
  (∀ c, c ∈ names → c ∈ column_names t) → is_ok (select_columns names t) = true.
Proof.
  intros Hin. unfold select_columns.
  assert (∃ cols, mapR (fun c => match get_column c t with
                                 | Some s => Ok (c, s)
                                 | None => Raise (KeyError c)
                                 end) names = Ok cols) as [cols ->]; [|done].
  induction names as [|c names IH]; [by eexists|].
  destruct IH as [cols Hcols]; [intros c' Hc'; apply Hin; by right|].
  assert (c ∈ column_names t) as Hc by (apply Hin; left).
  destruct (get_column c t) as [s|] eqn:E.
  - exists ((c, s) :: cols). simpl. by rewrite E, Hcols.
  - apply dict_get_None in E. done.
Qed.

(** X3. After the check of the classifier, the projection of the table
    on the classifier's columns cannot fail: it yields a table with
    exactly the classifier's column names, in the classifier's order,
    whose columns are those of the feature table. *)
Theorem X3_validated_classifier_gets_its_columns (self : SleepStaging F) clf t :
  feature_name_ self = Some (column_names t) →
  _validate_predict self clf = Ok tt →
  ∃ X, select_columns (clf_feature_name_ clf) t = Ok X ∧
       column_names X = clf_feature_name_ clf ∧
       nrows X = nrows t ∧
       ∀ c s, (c, s) ∈ columns X → get_column c t = Some s.
Proof.
  intros Hn Hv.
  pose proof (proj1 (_validate_predict_Ok self clf _ Hn) Hv) as Heq.
  destruct (select_columns (clf_feature_name_ clf) t) as [X|e] eqn:E.
  - exists X. split; [done|]. by apply select_columns_Ok.
  - assert (is_ok (select_columns (clf_feature_name_ clf) t) = true) as Hok
      by (apply select_columns_present; intros c; apply Heq).
    by rewrite E in Hok.
Qed.

Lemma frame_of_rows_Ok (rows : list (list F)) names t :
  frame_of_rows rows names = Ok t →
  nrows t = length rows ∧ column_names t = names ∧
  Forall (fun r => length r = length names) rows.
Proof.
  unfold frame_of_rows. destruct (forallb _ _) eqn:E; [|done].
  intros [= <-]. split_and!; [done| |].
  - unfold column_names. simpl. apply list_eq. intros j.
    rewrite list_lookup_fmap, list_lookup_imap. by destruct (names !! j).
  - rewrite forallb_forall in E. apply Forall_forall.
    intros r Hr%list_elem_of_In. by apply Nat.eqb_eq, E.
Qed.

(** X4. A [predict] that returns, on an instance with its features:
    the model file existed, the loaded classifier passed the check, it
    was given the feature table projected on its own columns and its
    labels are the result; the probabilities it gave for the same table
    are stored in a new object, one column per class, and the instance
    refers to both results. Nothing else has changed. *)
Theorem X4_predict_success path w w' labels l t :
  _features (instance w) = Some l → heap w !! l = Some (OFrame t) →
  predict path w = (w', Ok labels) →
  ∃ clf X p proba,
    isfile (model_path (instance w) path) = true ∧
    joblib_load (model_path (instance w) path) = Ok clf ∧
    _validate_predict (instance w) clf = Ok tt ∧
    select_columns (clf_feature_name_ clf) t = Ok X ∧
    clf_predict clf X = Ok labels ∧
    clf_predict_proba clf X = Ok p ∧
    frame_of_rows p (classes_ clf) = Ok proba ∧
    column_names proba = classes_ clf ∧ nrows proba = length p ∧
    w' = mkWorld (heap w ++ [OFrame proba])
           (set__proba (length (heap w)) (set__predicted labels (instance w))).
Proof.
  intros Hf Hl. rewrite predict_unfold, Hf. unfold predict_fitted.
  intros Hp.
  apply M_bind_Ok in Hp as (clf & w1 & Hload & Hp).
  rewrite _load_model_spec in Hload. injection Hload as <- Hload.
  unfold loaded_model, assert in Hload.
  destruct (isfile _) eqn:Hfile; [|done]. simpl in Hload.
  destruct (joblib_load _) as [clf'|] eqn:Hjob; [|done]. simpl in Hload.
  destruct (_validate_predict _ clf') as [[]|] eqn:Hval; [|done].
  simpl in Hload. injection Hload as ->.
  apply M_bind_Ok in Hp as (self & w1 & Hg & Hp). injection Hg as <- <-.
  rewrite Hf in Hp.
  apply M_bind_Ok in Hp as (feats & w1 & Hfe & Hp).
  unfold on_heap, load_frame in Hfe. rewrite Hl in Hfe. injection Hfe as <- <-.
  rewrite world_eta in Hp.
  apply M_bind_Ok in Hp as (X & w1 & HX & Hp). injection HX as <- HX.
  apply M_bind_Ok in Hp as (pr & w1 & Hpr & Hp). injection Hpr as <- Hpr.
  apply M_bind_Ok in Hp as ([] & w1 & Hs1 & Hp). injection Hs1 as <-.
  apply M_bind_Ok in Hp as (p & w1 & Hpp & Hp). injection Hpp as <- Hpp.
  apply M_bind_Ok in Hp as (proba & w1 & Hfr & Hp). injection Hfr as <- Hfr.
  apply M_bind_Ok in Hp as (l' & w1 & Hnew & Hp). injection Hnew as <- <-.
  apply M_bind_Ok in Hp as ([] & w1 & Hs2 & Hp). injection Hs2 as <-.
  injection Hp as <- <-.
  pose proof (frame_of_rows_Ok _ _ _ Hfr) as (Hn & Hc & _).
  exists clf, X, p, proba. by split_and!.
Qed.

(** What an exception of [predict_fitted] leaves behind. *)
Lemma predict_fitted_Raise path w w' e :
  predict_fitted path w = (w', Raise e) →
  heap w' = heap w ∧ _proba (instance w') = _proba (instance w) ∧
  _features (instance w') = _features (instance w) ∧
  (loaded_model (instance w) path = Raise e → w' = w).
Proof.
  unfold predict_fitted. intros Hp.
  apply M_bind_Raise in Hp as [Hp|(clf & w1 & Hload & Hp)];
    rewrite _load_model_spec in *.
  { by injection Hp as <- _. }
  injection Hload as <- Hload.
  assert (∀ P : Prop, (loaded_model (instance w) path = Raise e → P)) as Hno
    by (intros P; rewrite Hload; discriminate).
  apply M_bind_Raise in Hp as [[=]|(self & w1 & Hg & Hp)]. injection Hg as <- <-.
  apply M_bind_Raise in Hp as [Hp|(feats & w1 & Hfe & Hp)].
  { destruct (_features (instance w)) as [l|] eqn:Hf.
    - unfold on_heap, load_frame in Hp. injection Hp as <- _.
      rewrite world_eta. simpl; split_and!; try done; apply Hno.
    - injection Hp as <- _. simpl; split_and!; try done; apply Hno. }
  assert (w1 = w) as ->.
  { destruct (_features (instance w)) as [l|]; [|discriminate Hfe].
    unfold on_heap, load_frame in Hfe. injection Hfe as <- _. apply world_eta. }
  apply M_bind_Raise in Hp as [Hp|(X & w1 & HX & Hp)].
  { injection Hp as <- _. simpl; split_and!; try done; apply Hno. }
  injection HX as <- HX.
  apply M_bind_Raise in Hp as [Hp|(pr & w1 & Hpr & Hp)].
  { injection Hp as <- _. simpl; split_and!; try done; apply Hno. }
  injection Hpr as <- Hpr.
  apply M_bind_Raise in Hp as [[=]|([] & w1 & Hs1 & Hp)]. injection Hs1 as <-.
  apply M_bind_Raise in Hp as [Hp|(p & w1 & Hpp & Hp)].
  { injection Hp as <- _. simpl; split_and!; try done; apply Hno. }
  injection Hpp as <- Hpp.
  apply M_bind_Raise in Hp as [Hp|(proba & w1 & Hfr & Hp)].
  { injection Hp as <- _. simpl; split_and!; try done; apply Hno. }
  injection Hfr as <- Hfr.
  apply M_bind_Raise in Hp as [[=]|(l' & w1 & Hnew & Hp)]. injection Hnew as <- <-.
  apply M_bind_Raise in Hp as [[=]|([] & w1 & Hs2 & [=])].
Qed.

(** X5. A [predict] that raises leaves the cached probability table as
    it was and touches no object that existed: [predict_proba] then still
    returns the table of the last successful [predict]. When the failure
    is a missing model file or a rejected classifier, on a fitted
    instance, nothing has changed at all. *)
Theorem X5_failed_predict_keeps_cached_probabilities path w w' e :
  predict path w = (w', Raise e) →
  _proba (instance w') = _proba (instance w) ∧
  (∀ l o, heap w !! l = Some o → heap w' !! l = Some o) ∧
  (is_Some (_features (instance w)) →
   loaded_model (instance w) path = Raise e → w' = w).
Proof.
  rewrite predict_unfold. destruct (_features (instance w)) as [l|] eqn:Hf.
  - intros (Hh & Hp & _ & Hsame)%predict_fitted_Raise.
    split_and!; [done|by rewrite Hh|by intros _].
  - destruct (fit w) as [w1 [[]|e1]] eqn:Hfit.
    + intros (Hh & Hp & _)%predict_fitted_Raise.
      apply fit_Ok in Hfit as (md & t & _ & _ & ->). simpl in *.
      split_and!; [done| |by intros [? [=]]].
      intros l o Hl. rewrite Hh. by apply lookup_app_l_Some.
    + intros [= <- <-]. apply fit_Raise in Hfit as ->.
      split_and!; [done|done|by intros [? [=]]].
Qed.
End Prediction.

(** ** The caching theorems at the example recording *)

(** A fitted instance whose table has the two columns of
    [example_base_table], and a model file for it that lists the columns
    in another order. *)
Definition example_fitted : world xfloat :=
  mkWorld [OFrame example_base_table]
    (set__features 0 (column_names example_base_table) (example_instance None)).

Definition example_model : list (string * Classifier xfloat) :=
  [("model.joblib", stub_classifier ["eeg_nzc"; "eeg_std"] ["N2"; "W"])].

Lemma X1_get_features_returns_independent_copies_witness :
  get_features example_fitted
  = (mkWorld (heap example_fitted ++ [OFrame example_base_table])
       (instance example_fitted), Ok (length (heap example_fitted))) ∧
  length (heap example_fitted) ≠ 0%nat ∧
  ∀ o, get_features
         (mkWorld (<[length (heap example_fitted) := o]>
                     (heap example_fitted ++ [OFrame example_base_table]))
            (instance example_fitted))
       = (mkWorld (<[length (heap example_fitted) := o]>
                     (heap example_fitted ++ [OFrame example_base_table])
                   ++ [OFrame example_base_table])
            (instance example_fitted),
          Ok (S (length (heap example_fitted)))).
Proof.
  exact (X1_get_features_returns_independent_copies example_fitted 0%nat
           example_base_table eq_refl eq_refl).
Defined.

Lemma X2_fit_caches_table_and_names_witness :
  ∃ w' t,
    fit (mkWorld [ODict caller_metadata] (example_instance (Some 0%nat))) = (w', Ok tt) ∧
    heap w' = [ODict caller_metadata; OFrame t] ∧
    _features (instance w') = Some 1%nat ∧
    feature_name_ (instance w') = Some (column_names t) ∧
    StronglySorted String.le (column_names t).
Proof.
  destruct (fit (mkWorld [ODict caller_metadata] (example_instance (Some 0%nat))))
    as [w' [[]|e]] eqn:E.
  - destruct (X2_fit_caches_table_and_names _ _ _ E)
      as (t & Hh & Hf & Hn & Hs & _).
    exists w', t. split_and!; [reflexivity|exact Hh|exact Hf|exact Hn|exact Hs].
  - exfalso.
    assert (is_ok (fit (mkWorld [ODict caller_metadata]
                          (example_instance (Some 0%nat)))).2 = true) as Hok
      by (vm_compute; reflexivity).
    rewrite E in Hok. discriminate Hok.
Defined.

Lemma X6_get_features_fits_first_witness :
  ∃ w' t,
    fit (mkWorld [] (example_instance None)) = (w', Ok tt) ∧
    heap w' = [OFrame t] ∧
    get_features (mkWorld [] (example_instance None))
    = (mkWorld [OFrame t; OFrame t] (instance w'), Ok 1%nat).
Proof.
  destruct (fit (mkWorld [] (example_instance None))) as [w' [[]|e]] eqn:E.
  - destruct (X6_get_features_fits_first (mkWorld [] (example_instance None)) w' (Ok tt)
                eq_refl E) as (t & Hh & Hg).
    exists w', t. split_and!; [reflexivity|exact Hh|exact Hg].
  - exfalso.
    assert (is_ok (fit (mkWorld [] (example_instance None))).2 = true) as Hok
      by (vm_compute; reflexivity).
    rewrite E in Hok. discriminate Hok.
Defined.

Lemma X3_validated_classifier_gets_its_columns_witness :
  ∃ X, select_columns ["eeg_nzc"; "eeg_std"] example_base_table = Ok X ∧
       column_names X = ["eeg_nzc"; "eeg_std"] ∧
       nrows X = nrows example_base_table ∧
       ∀ c s, (c, s) ∈ columns X → get_column c example_base_table = Some s.
Proof.
  exact (X3_validated_classifier_gets_its_columns (instance example_fitted)
           (stub_classifier ["eeg_nzc"; "eeg_std"] ["N2"; "W"]) example_base_table
           eq_refl eq_refl).
Defined.

Lemma X4_predict_success_witness :
  ∃ w' labels clf X p proba,
    predict (lib := reference_lib example_model) "model.joblib" example_fitted
    = (w', Ok labels) ∧
    select_columns (clf_feature_name_ clf) example_base_table = Ok X ∧
    clf_predict clf X = Ok labels ∧
    clf_predict_proba clf X = Ok p ∧
    frame_of_rows p (classes_ clf) = Ok proba ∧
    w' = mkWorld (heap example_fitted ++ [OFrame proba])
           (set__proba (length (heap example_fitted))
              (set__predicted labels (instance example_fitted))).
Proof.
  destruct (predict (lib := reference_lib example_model) "model.joblib" example_fitted)
    as [w' [labels|e]] eqn:E.
  - destruct (X4_predict_success (lib := reference_lib example_model)
                "model.joblib" example_fitted w' labels 0%nat example_base_table
                eq_refl eq_refl E)
      as (clf & X & p & proba & _ & _ & _ & HX & Hl & Hp & Hfr & _ & _ & Hw).
    exists w', labels, clf, X, p, proba.
    split_and!; [reflexivity|exact HX|exact Hl|exact Hp|exact Hfr|exact Hw].
  - exfalso.
    assert (is_ok (predict (lib := reference_lib example_model) "model.joblib"
                     example_fitted).2 = true) as Hok
      by (vm_compute; reflexivity).
    rewrite E in Hok. discriminate Hok.
Defined.

Lemma X5_failed_predict_keeps_cached_probabilities_witness :
  ∃ w' e,
    predict "no_such_file.joblib" example_predicted = (w', Raise e) ∧
    _proba (instance w') = _proba (instance example_predicted) ∧
    ∀ l o, heap example_predicted !! l = Some o → heap w' !! l = Some o.
Proof.
  destruct (predict "no_such_file.joblib" example_predicted) as [w' [labels|e]] eqn:E.
  - exfalso.
    assert (is_ok (predict "no_such_file.joblib" example_predicted).2 = false) as Hok
      by (vm_compute; reflexivity).
    rewrite E in Hok. discriminate Hok.
  - destruct (X5_failed_predict_keeps_cached_probabilities _ _ _ _ E) as (Hp & Hh & _).
    exists w', e. split_and!; [reflexivity|exact Hp|exact Hh].
Defined.

(** ** The constructor: what it guarantees and what it reports *)

Section Constructor.
Context {F : Type} {num : Numeric F} {lib : Lib F}.
Implicit Types (raw : Raw F) (h : list (obj F)) (d : dict pyval).

(** The channel names that were given, in the order of the loop. *)
Definition given_names (eeg_name : string) (eog_name emg_name : option string)
  : list string :=
  eeg_name :: option_list eog_name ++ option_list emg_name.

Definition given_types (eog_name emg_name : option string) : list ch_type :=
  eeg :: (if eog_name is Some _ then [eog] else [])
      ++ (if emg_name is Some _ then [emg] else []).

Lemma init_Ok raw eeg_name eog_name emg_name md h h' self :
  __init__ raw eeg_name eog_name emg_name md h = (h', Ok self) →
  load_recording raw eeg_name eog_name emg_name md = Ok self.
Proof.
  unfold __init__. intros (u & h1 & _ & Hl)%M_bind_Ok. by injection Hl as _ Hl.
Qed.

Lemma keep_channels_Ok raw eeg_name eog_name emg_name keep :
  mapR (keep_channel raw) [Some eeg_name; eog_name; emg_name] = Ok keep →
  keep = [true; bool_decide (is_Some eog_name); bool_decide (is_Some emg_name)] ∧
  Forall (fun c => c ∈ raw_ch_names raw) (given_names eeg_name eog_name emg_name).
Proof.
  unfold given_names. simpl. unfold assert.
  destruct (bool_decide (eeg_name ∈ raw_ch_names raw)) eqn:E1; [|done].
  apply bool_decide_eq_true in E1.
  destruct eog_name as [c2|], emg_name as [c3|]; simpl;
    repeat match goal with
      | |- context [bool_decide (?c ∈ raw_ch_names raw)] =>
          let E := fresh "E" in
          destruct (bool_decide (c ∈ raw_ch_names raw)) eqn:E;
          [apply bool_decide_eq_true in E|done]; simpl
      end;
    intros [= <-]; (split; [done|]); repeat constructor; done.
Qed.

Lemma duration_5min (n : nat) (s : Q) :
  (s == 100)%Q →
  Qle_bool 5 (inject_Z (Z.of_nat n) / s / 60) = true →
  (30000 ≤ Z.of_nat n)%Z.
Proof.
  intros Hs Hd. apply Qle_bool_iff in Hd. rewrite Hs in Hd.
  unfold Qle, Qdiv, Qmult, Qinv in Hd. simpl in Hd. lia.
Qed.

(** X7. An instance the constructor returns: its sampling frequency is
    100 Hz, whatever that of the recording (which was above 80 Hz); its
    channels are the given ones, in the order EEG, EOG, EMG, each with
    its type, and all of them are channels of the recording; it holds at
    least 30000 samples per channel (5 minutes at 100 Hz); and nothing
    is cached on it yet. *)
Theorem X7_init_invariants raw eeg_name eog_name emg_name md h h' self :
  __init__ raw eeg_name eog_name emg_name md h = (h', Ok self) →
  (sf self == 100)%Q ∧
  (80 < info_sfreq raw)%Q ∧
  ch_names self = given_names eeg_name eog_name emg_name ∧
  ch_types self = given_types eog_name emg_name ∧
  NoDup (ch_types self) ∧
  Forall (fun c => c ∈ raw_ch_names raw) (ch_names self) ∧
  (30000 ≤ Z.of_nat (shape1 (data self)))%Z ∧
  metadata self = md ∧
  _features self = None ∧ feature_name_ self = None ∧
  _predicted self = None ∧ _proba self = None.
Proof.
  intros Hl%init_Ok. unfold load_recording in Hl.
  apply bind_Ok in Hl as (keep & Hkeep & Hl).
  apply keep_channels_Ok in Hkeep as [-> Hnames].
  apply bind_Ok in Hl as (raw_pick & _ & Hl).
  apply bind_Ok in Hl as ([] & Hsf & Hl).
  apply bind_Ok in Hl as ([raw' s] & Hre & Hl).
  apply bind_Ok in Hl as ([] & Hdur & Hl).
  injection Hl as <-.
  unfold assert in Hsf, Hdur.
  destruct (Qltb 80 (info_sfreq raw)) eqn:E80; [|done].
  destruct (Qle_bool 5 _) eqn:E5; [|done].
  assert (s == 100)%Q as Hs.
  { destruct (Qeq_bool (info_sfreq raw) 100) eqn:E100; simpl in Hre.
    - injection Hre as _ <-. by apply Qeq_bool_iff.
    - apply bind_Ok in Hre as (r & _ & [= _ <-]). reflexivity. }
  assert (80 < info_sfreq raw)%Q as H80.
  { unfold Qltb in E80. apply negb_true_iff in E80.
    apply Qnot_le_lt. intros Hle. apply Qle_bool_iff in Hle. congruence. }
  simpl. split_and!; try done.
  - by destruct eog_name, emg_name.
  - by destruct eog_name, emg_name.
  - destruct eog_name, emg_name; apply (bool_decide_unpack _); by vm_compute.
  - by destruct eog_name, emg_name.
  - by eapply duration_5min.
Qed.

Lemma keep_channel_loop_Raise raw (given : list (option string)) pre c post :
  given ≫= option_list = pre ++ c :: post →
  Forall (fun c' => c' ∈ raw_ch_names raw) pre →
  c ∉ raw_ch_names raw →
  mapR (keep_channel raw) given = Raise (AssertionError (c +:+ " does not exist")).
Proof.
  intros Hg Hpre Hc. revert pre Hg Hpre.
  induction given as [|[x|] given IH]; intros pre Hg Hpre.
  - by destruct pre.
  - rewrite bind_cons in Hg. simpl in Hg. destruct pre as [|p pre].
    + injection Hg as -> _. simpl. unfold assert.
      by rewrite bool_decide_eq_false_2.
    + injection Hg as -> Hg. apply Forall_cons in Hpre as [Hp Hpre].
      simpl. unfold assert. rewrite bool_decide_eq_true_2 by done. simpl.
      by rewrite (IH pre).
  - rewrite bind_cons in Hg. simpl in Hg. simpl. by rewrite (IH pre).
Qed.

Lemma keep_channels_Raise raw eeg_name eog_name emg_name pre c post :
  given_names eeg_name eog_name emg_name = pre ++ c :: post →
  Forall (fun c' => c' ∈ raw_ch_names raw) pre →
  c ∉ raw_ch_names raw →
  mapR (keep_channel raw) [Some eeg_name; eog_name; emg_name]
  = Raise (AssertionError (c +:+ " does not exist")).
Proof.
  intros Hg. apply keep_channel_loop_Raise with (post := post). rewrite <- Hg.
  by destruct eog_name, emg_name.
Qed.

(** X8. A channel name that the recording does not have is reported by
    name, the first one in the order EEG, EOG, EMG, and before the
    sampling frequency and the duration of the recording are looked
    at. *)
Theorem X8_unknown_channel_reported_first
    raw eeg_name eog_name emg_name md pre c post h :
  given_names eeg_name eog_name emg_name = pre ++ c :: post →
  Forall (fun c' => c' ∈ raw_ch_names raw) pre →
  c ∉ raw_ch_names raw →
  load_recording raw eeg_name eog_name emg_name md
  = Raise (AssertionError (c +:+ " does not exist")) ∧
  __init__ raw eeg_name eog_name emg_name None h
  = (h, Raise (AssertionError (c +:+ " does not exist"))).
Proof.
  intros Hg Hpre Hc.
  assert (∀ md', load_recording raw eeg_name eog_name emg_name md'
                 = Raise (AssertionError (c +:+ " does not exist"))) as Hl.
  { intros md'. unfold load_recording.
    by rewrite (keep_channels_Raise _ _ _ _ _ _ _ Hg Hpre Hc). }
  split; [apply Hl|].
  unfold __init__, mbind, M_bind, mret, M_ret, lift. by rewrite Hl.
Qed.

Lemma py_int_binary (v : pyval) :
  py_int v ∈ [0; 1]%Z ↔ (-1 < py_num v)%Q ∧ (py_num v < 2)%Q.
Proof.
  rewrite !elem_of_cons, elem_of_nil.
  destruct v as [[]|z|[n dn]]; unfold Qlt; simpl.
  - lia.
  - lia.
  - lia.
  - pose proof (Z.quot_rem' n (Z.pos dn)) as Hqr.
    destruct (Z_le_gt_dec 0 n) as [Hn|Hn].
    + pose proof (Z.rem_bound_pos_pos n (Z.pos dn) ltac:(lia) Hn). nia.
    + pose proof (Z.rem_bound_pos_neg n (Z.pos dn) ltac:(lia) ltac:(lia)). nia.
Qed.

(** X9. The value of ['male'] is converted with [int] before it is
    compared with 0 and 1, and [int] truncates toward zero: the metadata
    block accepts every value strictly between -1 and 2 (so 1.9 and
    -0.5 as well as [True]), and no other. *)
Theorem X9_male_is_truncated_then_checked l h d male :
  h !! l = Some (ODict d) → age_ok d = true → dict_get "male" d = Some male →
  (validate_metadata l h).2 = Ok tt ↔ (-1 < py_num male)%Q ∧ (py_num male < 2)%Q.
Proof.
  intros Hl Hage Hmale.
  rewrite (validate_metadata_spec _ _ _ Hl), Hage, Hmale. simpl.
  rewrite <- py_int_binary. unfold assert.
  destruct (bool_decide (py_int male ∈ [0; 1]%Z)) eqn:E.
  - by apply bool_decide_eq_true in E.
  - by apply bool_decide_eq_false in E.
Qed.

(** X10. The metadata is checked before the recording is looked at. An
    age outside ]0, 120[ is reported first, and the dict of the caller
    is as it was; a value of ['male'] that is not accepted is reported
    next, when the dict of the caller already holds the converted
    value. *)
Theorem X10_metadata_is_checked_first raw eeg_name eog_name emg_name l h d :
  h !! l = Some (ODict d) →
  (age_ok d = false →
   __init__ raw eeg_name eog_name emg_name (Some l) h
   = (h, Raise (AssertionError "age must be between 0 and 120."))) ∧
  (∀ male, age_ok d = true → dict_get "male" d = Some male →
           py_int male ∉ [0; 1]%Z →
           __init__ raw eeg_name eog_name emg_name (Some l) h
           = (<[l := ODict (dict_set "male" (PInt (py_int male)) d)]> h,
              Raise (AssertionError "male must be 0 or 1."))).
Proof.
  intros Hl. rewrite (init_metadata_spec _ _ _ _ _ _ _ Hl).
  rewrite (validate_metadata_spec _ _ _ Hl). split.
  - by intros ->.
  - intros male -> -> Hbad. unfold assert.
    by rewrite bool_decide_eq_false_2.
Qed.

(** *** The name of the model file *)

Lemma string_app_inv_head (p s1 s2 : string) : p +:+ s1 = p +:+ s2 → s1 = s2.
Proof. induction p as [|a p IH]; simpl; [done|]. intros [= Heq]. by apply IH. Qed.

(** X11. With ["auto"] the model file is chosen by the channels and the
    metadata: two instances are given the same file only if they agree
    on having an EOG channel, on having an EMG channel and on having
    metadata. *)
Theorem X11_auto_model_by_configuration (self self' : SleepStaging F) :
  model_path self "auto" = model_path self' "auto" →
  (eog ∈ ch_types self ↔ eog ∈ ch_types self') ∧
  (emg ∈ ch_types self ↔ emg ∈ ch_types self') ∧
  (is_Some (metadata self) ↔ is_Some (metadata self')).
Proof.
  unfold model_path. rewrite !decide_True by done.
  intros Heq%string_app_inv_head%(inj (fun s => s +:+ _)).
  destruct (bool_decide (eog ∈ ch_types self)) eqn:E1,
    (bool_decide (emg ∈ ch_types self)) eqn:E2,
    (bool_decide (eog ∈ ch_types self')) eqn:E3,
    (bool_decide (emg ∈ ch_types self')) eqn:E4,
    (metadata self), (metadata self'); simpl in Heq; try discriminate Heq;
    repeat match goal with
      | H : bool_decide _ = true |- _ => apply bool_decide_eq_true in H
      | H : bool_decide _ = false |- _ => apply bool_decide_eq_false in H
      end;
    repeat split; try done; try (by intros [? [=]]); by eexists.
Qed.
End Constructor.

(** ** The constructor theorems at example recordings *)

(** A recording at 80 Hz without data: a constructor that fails on a
    channel name does not get as far as looking at either. *)
Definition empty_recording : Raw xfloat := mkRaw 80 ["C4"; "LOC"] [[]; []].

Lemma X7_init_invariants_witness :
  ∃ h' self,
    __init__ (silent_recording 100 5) "C4" (Some "LOC") None None [] = (h', Ok self) ∧
    (sf self == 100)%Q ∧
    ch_names self = ["C4"; "LOC"] ∧
    ch_types self = [eeg; eog] ∧
    (30000 ≤ Z.of_nat (shape1 (data self)))%Z ∧
    _features self = None.
Proof.
  destruct (__init__ (silent_recording 100 5) "C4" (Some "LOC") None None [])
    as [h' [self|e]] eqn:E.
  - destruct (X7_init_invariants _ _ _ _ _ _ _ _ E)
      as (Hsf & _ & Hn & Ht & _ & _ & Hd & _ & Hf & _).
    exists h', self. split_and!; [reflexivity|exact Hsf|exact Hn|exact Ht|exact Hd|exact Hf].
  - exfalso.
    assert (is_ok (__init__ (silent_recording 100 5) "C4" (Some "LOC") None None []).2
            = true) as Hok by (vm_compute; reflexivity).
    rewrite E in Hok. discriminate Hok.
Defined.

Lemma X8_unknown_channel_reported_first_witness :
  load_recording empty_recording "C4" (Some "EOG1") (Some "EMG1") None
  = Raise (AssertionError "EOG1 does not exist") ∧
  __init__ empty_recording "C4" (Some "EOG1") (Some "EMG1") None []
  = ([], Raise (AssertionError "EOG1 does not exist")).
Proof.
  apply (X8_unknown_channel_reported_first empty_recording "C4" (Some "EOG1")
           (Some "EMG1") None ["C4"] "EOG1" ["EMG1"] []).
  - reflexivity.
  - apply (bool_decide_unpack _). vm_compute. reflexivity.
  - apply (bool_decide_unpack _). vm_compute. reflexivity.
Defined.

Lemma X9_male_is_truncated_then_checked_witness :
  (validate_metadata (F := xfloat) 0 [ODict [("male", PFloat (19 # 10))]]).2 = Ok tt
  ↔ (-1 < 19 # 10)%Q ∧ (19 # 10 < 2)%Q.
Proof.
  exact (X9_male_is_truncated_then_checked (F := xfloat) 0%nat
           [ODict [("male", PFloat (19 # 10))]] [("male", PFloat (19 # 10))]
           (PFloat (19 # 10)) eq_refl eq_refl eq_refl).
Defined.

Lemma X10_metadata_is_checked_first_witness :
  __init__ empty_recording "C4" None None (Some 0%nat)
    [ODict [("age", PInt 0); ("male", PFloat (25 # 10))]]
  = ([ODict [("age", PInt 0); ("male", PFloat (25 # 10))]],
     Raise (AssertionError "age must be between 0 and 120.")) ∧
  __init__ empty_recording "C4" None None (Some 0%nat)
    [ODict [("age", PInt 30); ("male", PFloat (25 # 10))]]
  = ([ODict [("age", PInt 30); ("male", PInt 2)]],
     Raise (AssertionError "male must be 0 or 1.")).
Proof.
  split.
  - destruct (X10_metadata_is_checked_first empty_recording "C4" None None 0%nat
                [ODict [("age", PInt 0); ("male", PFloat (25 # 10))]]
                [("age", PInt 0); ("male", PFloat (25 # 10))] eq_refl) as [Hage _].
    exact (Hage eq_refl).
  - destruct (X10_metadata_is_checked_first empty_recording "C4" None None 0%nat
                [ODict [("age", PInt 30); ("male", PFloat (25 # 10))]]
                [("age", PInt 30); ("male", PFloat (25 # 10))] eq_refl) as [_ Hmale].
    refine (Hmale (PFloat (25 # 10)) eq_refl eq_refl _).
    apply (bool_decide_unpack _). vm_compute. reflexivity.
Defined.

Lemma X11_auto_model_by_configuration_witness :
  (eog ∈ ch_types (example_instance None) ↔ eog ∈ ch_types example_nan_instance) ∧
  (emg ∈ ch_types (example_instance None) ↔ emg ∈ ch_types example_nan_instance) ∧
  (is_Some (metadata (example_instance None))
   ↔ is_Some (metadata example_nan_instance)).
Proof.
  exact (X11_auto_model_by_configuration (example_instance None) example_nan_instance
           eq_refl).
Defined.

(** ** plot_predict_proba *)

Section PlotTable.
Context {F : Type} {num : Numeric F}.
Variable row_max : list F → F.
Variable feqb : F → F → bool.
Implicit Types (w : world F) (t : DataFrame F).

(** The table that is drawn. *)
Definition shown (majority_only : bool) (t : DataFrame F) : DataFrame F :=
  if majority_only then majority row_max feqb t else t.

(** X12. Without a table of its own, [plot_predict_proba] needs the one
    [predict] has cached, but its guard looks at the features: on an
    instance that was never fitted it raises the [ValueError] that asks
    for [predict_proba]; on an instance that was fitted and has not
    predicted, the guard passes and the read of [self._proba] fails with
    an [AttributeError]. Neither changes anything. *)
Theorem X12_plot_guard_tests_the_features w majority_only :
  _proba (instance w) = None →
  plot_predict_proba row_max feqb None majority_only w
  = (w, Raise (match _features (instance w) with
               | None => ValueError "Must call .predict_proba before this function" []
               | Some _ => AttributeError "_proba"
               end)).
Proof.
  intros Hp. unfold plot_predict_proba, mbind, M_bind, gets, lift. simpl.
  destruct (_features (instance w)); simpl; [|done]. by rewrite Hp.
Qed.

Lemma column_names_majority t :
  column_names (majority row_max feqb t) = column_names t.
Proof.
  unfold column_names, majority. simpl. rewrite <- list_fmap_compose.
  by apply list_fmap_ext.
Qed.

(** X13. The table that is drawn is the given one or, without one, a
    copy of the cached one; the cached table itself is left as it is,
    also with [majority_only], which keeps the columns and the number
    of rows and, in every column, at every epoch, either keeps the
    probability or puts 0 in its place. A given table is drawn whether
    the instance has been fitted or not. *)
Theorem X13_plot_draws_a_copy w l t majority_only :
  heap w !! l = Some (OFrame t) →
  plot_predict_proba row_max feqb (Some l) majority_only w
  = (w, Ok (shown majority_only t)) ∧
  (_proba (instance w) = Some l → is_Some (_features (instance w)) →
   plot_predict_proba row_max feqb None majority_only w
   = (mkWorld (heap w ++ [OFrame t]) (instance w), Ok (shown majority_only t))) ∧
  column_names (shown majority_only t) = column_names t ∧
  nrows (shown majority_only t) = nrows t ∧
  ∀ j c s, columns t !! j = Some (c, s) →
    ∃ ys, columns (shown true t) !! j = Some (c, Float64 ys) ∧
          length ys = length (as_float s) ∧
          ∀ i x, as_float s !! i = Some x →
                 ys !! i = Some x ∨ ys !! i = Some (of_Z 0).
Proof.
  intros Hl. split_and!.
  - unfold plot_predict_proba, mbind, M_bind, gets, lift, given_frame, mret, M_ret.
    simpl. by rewrite Hl.
  - intros Hp [lf Hf].
    unfold plot_predict_proba, mbind at 1, M_bind at 1, gets at 1.
    unfold mbind at 1, M_bind at 1, lift at 1. rewrite Hf. simpl.
    rewrite Hp. unfold mbind at 1, M_bind at 1. unfold mbind at 1, M_bind at 1.
    pose proof (copy_frame_spec w l t Hl) as Hc. rewrite Hc.
    unfold on_heap, load_frame, mret, M_ret. simpl.
    rewrite lookup_app_r by done. by rewrite Nat.sub_diag.
  - destruct majority_only; [apply column_names_majority|done].
  - by destruct majority_only.
  - intros j c s Hj. unfold shown, majority. simpl.
    rewrite list_lookup_fmap, Hj. simpl. eexists. split; [done|].
    split; [by rewrite length_imap|].
    intros i x Hx. rewrite list_lookup_imap, Hx. simpl.
    destruct (feqb x _); [by left|by right].
Qed.
End PlotTable.

(** ** The table of [fit]: shape, types and content *)

Section Table.
Context {F : Type} {num : Numeric F} {lib : Lib F}.
Implicit Types (df t : DataFrame F) (s : series F) (d : dict pyval).

(** Every column has one entry per row. *)
Definition rectangular (df : DataFrame F) : Prop :=
  Forall (fun c => series_len c.2 = nrows df) (columns df).

Definition is_float64 (s : series F) : bool :=
  match s with Float64 _ => true | _ => false end.

Lemma series_len_as_float s : length (as_float s) = series_len s.
Proof. destruct s; simpl; by rewrite ?length_fmap. Qed.

Lemma series_len_reindex n s : series_len (reindex n s) = n.
Proof.
  unfold reindex. destruct (series_len s =? n)%nat eqn:E.
  - by apply Nat.eqb_eq.
  - destruct s; simpl;
      rewrite length_app, length_take, length_replicate, ?length_fmap; lia.
Qed.

Lemma series_len_downcast s : series_len (downcast_series s) = series_len s.
Proof. destruct s; simpl; by rewrite ?length_fmap. Qed.

Lemma is_float64_downcast s : is_float64 (downcast_series s) = false.
Proof. by destruct s. Qed.

Lemma series_len_broadcast n (v : pyval) : series_len (broadcast (F := F) n v) = n.
Proof. destruct v; simpl; by rewrite ?length_replicate. Qed.

Lemma astype_int_Ok s s' :
  astype_int s = Ok s' →
  ∃ zs, s' = Int64 zs ∧ length zs = series_len s ∧
        match s with
        | Float64 xs | Float32 xs => Forall2 (fun x z => to_int x = Some z) xs zs
        | Int64 xs => zs = xs
        | Bool_ xs => zs = Z.b2z <$> xs
        end.
Proof.
  destruct s as [xs|xs|xs|xs]; simpl.
  - intros (zs & Hm%mapR_Ok & ->)%fmap_Ok. exists zs.
    split_and!; [done|symmetry; by eapply Forall2_length|].
    eapply Forall2_impl; [done|]. intros x z Hx. simpl in Hx.
    by destruct (to_int x); simplify_eq.
  - intros (zs & Hm%mapR_Ok & ->)%fmap_Ok. exists zs.
    split_and!; [done|symmetry; by eapply Forall2_length|].
    eapply Forall2_impl; [done|]. intros x z Hx. simpl in Hx.
    by destruct (to_int x); simplify_eq.
  - intros [= <-]. by exists xs.
  - intros [= <-]. exists (Z.b2z <$> xs). by rewrite length_fmap.
Qed.

Lemma Forall_dict_set {V} (P : string * V → Prop) k v (dd : dict V) :
  Forall P dd → P (k, v) → Forall P (dict_set k v dd).
Proof.
  intros Hd Hk. induction Hd as [|[k' v'] dd Hp Hd IH]; simpl.
  - by constructor.
  - destruct (decide (k = k')); constructor; done.
Qed.

Lemma rectangular_concat (frames : list (DataFrame F)) df :
  concat frames = Ok df → rectangular df.
Proof.
  unfold concat, rectangular. destruct frames as [|f frames]; [done|].
  intros [= <-]. simpl. apply Forall_fmap, Forall_forall. intros [k s] _.
  apply series_len_reindex.
Qed.

Lemma rectangular_smooth df t : rectangular df → smooth df = Ok t → rectangular t.
Proof.
  intros Hr (rc & rp & Hc & Hp & Hn & Hcols & _)%smooth_Ok.
  unfold rectangular. rewrite Hcols, Hn. rewrite !Forall_app. split_and!.
  - done.
  - apply Forall_fmap. eapply Forall_impl; [by eapply smoothed_by_len|].
    by intros [??].
  - apply Forall_fmap. eapply Forall_impl; [by eapply smoothed_by_len|].
    by intros [??].
Qed.

Lemma rectangular_set_column name s df df' :
  rectangular df → set_column name s df = Ok df' → rectangular df'.
Proof.
  intros Hr (Hs & Hn & Hc)%set_column_Ok. unfold rectangular.
  rewrite Hc, Hn. by apply Forall_dict_set.
Qed.

Lemma rectangular_add_temporal times df df' :
  rectangular df → add_temporal times df = Ok df' → rectangular df'.
Proof.
  unfold add_temporal. intros Hr Ht. inv_all.
  eapply rectangular_set_column; [|done]. by eapply rectangular_set_column.
Qed.

Lemma rectangular_add_metadata d df : rectangular df → rectangular (add_metadata d df).
Proof.
  unfold add_metadata. revert df.
  induction d as [|[k v] d IH]; intros df Hr; [done|]. simpl. apply IH.
  unfold rectangular, set_scalar. simpl. apply Forall_dict_set; [done|].
  apply series_len_broadcast.
Qed.

(** The columns of an exported table. *)
Definition exported (n : nat) (c : string * series F) : Prop :=
  series_len c.2 = n ∧ is_float64 c.2 = false.

Lemma exported_encode_int name df df' :
  Forall (exported (nrows df)) (columns df) → encode_int name df = Ok df' →
  Forall (exported (nrows df')) (columns df').
Proof.
  unfold encode_int. intros Hr He.
  destruct (get_column name df) as [s|]; [|by simplify_eq].
  inv_ok He. apply astype_int_Ok in E as (zs & -> & Hlen & _).
  apply set_column_Ok in He as (Hs & Hn & Hc). rewrite Hc, Hn.
  by apply Forall_dict_set.
Qed.

Lemma exported_export df t :
  rectangular df → export df = Ok t → Forall (exported (nrows t)) (columns t).
Proof.
  unfold export. intros Hr He. inv_all. simplify_eq.
  assert (Forall (exported (nrows (downcast df))) (columns (downcast df))) as Hd.
  { unfold downcast. simpl. apply Forall_fmap.
    eapply Forall_impl; [exact Hr|]. intros [k s] Hs. split; simpl.
    - by rewrite series_len_downcast.
    - apply is_float64_downcast. }
  pose proof (exported_encode_int _ _ _ Hd E) as Ha.
  pose proof (exported_encode_int _ _ _ Ha E0) as Hm.
  unfold sort_index. simpl. by rewrite merge_sort_Permutation.
Qed.

(** The table a [fit] that returned has cached. *)
Lemma fit_cached (w w' : world F) l t :
  fit w = (w', Ok tt) →
  _features (instance w') = Some l → heap w' !! l = Some (OFrame t) →
  ∃ md, metadata_of w md ∧ fit_features (instance w) md = Ok t.
Proof.
  intros (md & t0 & Hmd & Hf & ->)%fit_Ok. simpl. intros [= <-].
  rewrite lookup_app_r by done. rewrite Nat.sub_diag. simpl. intros [= <-].
  by exists md.
Qed.

(** X15. The table of [fit] is rectangular, and no column of it is of
    type float64: every column has one entry per row and is a float32,
    an integer or a boolean column. *)
Theorem X15_table_has_no_float64_column (w w' : world F) l t :
  fit w = (w', Ok tt) →
  _features (instance w') = Some l → heap w' !! l = Some (OFrame t) →
  Forall (fun c => series_len c.2 = nrows t ∧ is_float64 c.2 = false) (columns t).
Proof.
  intros Hfit Hl Ht.
  destruct (fit_cached _ _ _ _ Hfit Hl Ht) as (md & _ & Hf).
  apply fit_features_Ok in Hf
    as (pc & base & sm & tp & _ & Hcat & Hsm & (r & _ & Htp) & Hex).
  apply rectangular_concat in Hcat.
  pose proof (rectangular_smooth _ _ Hcat Hsm) as Hrs.
  pose proof (rectangular_add_temporal _ _ _ Hrs Htp) as Hrt.
  eapply exported_export; [|exact Hex].
  destruct md as [d|]; [by apply rectangular_add_metadata|done].
Qed.

(** *** The content of the table *)

Lemma channels_loop_lookup sfreq (rows : list (list F)) i0 cs rs k c :
  channels_loop sfreq rows i0 cs = Ok rs → cs !! k = Some c →
  ∃ x r, rows !! (i0 + k)%nat = Some x ∧ rs !! k = Some r ∧
         channel_features sfreq c x = Ok r.
Proof.
  revert i0 rs k. induction cs as [|c0 cs IH]; intros i0 rs k Hl Hk; [done|].
  simpl in Hl. inv_all. simplify_eq.
  destruct k as [|k]; simpl in Hk.
  - simplify_eq. exists a, a0. rewrite Nat.add_0_r. split_and!; [|done|done].
    unfold item in E. by destruct (rows !! i0); simplify_eq.
  - destruct (IH _ _ _ E1 Hk) as (x & r & Hx & Hr & Hc).
    exists x, r. split_and!; [|done|done].
    by replace (i0 + S k)%nat with (S i0 + k)%nat by lia.
Qed.

Lemma get_column_concat (frames : list (DataFrame F)) base df k s :
  concat frames = Ok base → NoDup (frames ≫= column_names) →
  df ∈ frames → get_column k df = Some s →
  get_column k base = Some (reindex (nrows base) s).
Proof.
  intros Hc Hnd Hin Hg.
  assert (columns base
          = prod_map id (reindex (nrows base)) <$> (frames ≫= columns)) as Hcols.
  { unfold concat in Hc. destruct frames; [done|]. by injection Hc as <-. }
  unfold get_column. rewrite Hcols.
  apply dict_get_NoDup.
  - unfold dict_keys. by rewrite prod_map_fst, bind_column_names.
  - apply list_elem_of_fmap. exists (k, s). split; [done|].
    apply list_elem_of_bind. exists df. split; [|done].
    by apply dict_get_Some_elem.
Qed.

Lemma channel_columns_reserved (c : ch_type) (k : string) :
  k ∈ channel_columns c → k ∉ ["time_hour"; "time_norm"; "age"; "male"].
Proof.
  revert k. apply Forall_forall.
  destruct c; apply (bool_decide_unpack _); by vm_compute.
Qed.

(** The stages of [fit_features], with what is known of the column
    names at each. *)
Lemma fit_features_stages (self : SleepStaging F) md t :
  fit_features self md = Ok t → NoDup (ch_types self) →
  ∃ per_channel base smoothed temporal times,
    channels_loop (sf self) (data self) 0 (ch_types self) = Ok per_channel ∧
    concat per_channel.*2 = Ok base ∧
    smooth base = Ok smoothed ∧
    (∃ r, last per_channel = Some r ∧ r.1 = times) ∧
    add_temporal times smoothed = Ok temporal ∧
    export (match md with
            | Some d => add_metadata d temporal
            | None => temporal
            end) = Ok t ∧
    column_names base = ch_types self ≫= channel_columns ∧
    NoDup (column_names base) ∧
    NoDup (column_names smoothed) ∧
    NoDup (column_names temporal) ∧
    NoDup (column_names (match md with
                         | Some d => add_metadata d temporal
                         | None => temporal
                         end)).
Proof.
  intros (pc & base & sm & tp & Hloop & Hcat & Hsm & (r & Hlast & Htp) & Hex)%fit_features_Ok
    Hnd.
  exists pc, base, sm, tp, r.1. split_and!; try done; [by exists r|..].
  all: pose proof (channels_loop_columns _ _ _ _ _ Hloop) as Hcols.
  all: pose proof (concat_Ok _ _ Hcat) as (_ & Hbase & _); rewrite Hcols in Hbase.
  all: try done.
  all: pose proof (base_columns_NoDup _ Hnd) as Hndb.
  all: try (by rewrite Hbase).
  all: pose proof (smooth_columns _ _ Hsm) as Hsmn.
  all: pose proof (smooth_Ok _ _ Hsm) as (_ & _ & _ & _ & _ & _ & Hd1 & Hd2).
  all: rewrite Hbase in Hsmn, Hd1, Hd2.
  all: assert (NoDup (column_names sm)) as Hnds
         by (rewrite Hsmn; by apply smoothed_columns_NoDup).
  all: try done.
  all: pose proof (add_temporal_Ok _ _ _ Htp) as [_ Htpn].
  all: assert (NoDup (column_names tp)) as Hndt
         by (rewrite Htpn; by do 2 apply key_set_NoDup).
  all: try done.
  destruct md as [d|]; [|done].
  rewrite add_metadata_names. by apply foldl_key_set_NoDup.
Qed.

Lemma get_column_smooth df t k s :
  smooth df = Ok t → NoDup (column_names t) →
  get_column k df = Some s → get_column k t = Some s.
Proof.
  intros (rc & rp & _ & _ & _ & Hcols & _)%smooth_Ok Hnd Hg.
  unfold get_column. apply dict_get_NoDup; [done|].
  rewrite Hcols. apply elem_of_app. left. by apply dict_get_Some_elem.
Qed.

Lemma get_column_add_temporal times df df' k :
  add_temporal times df = Ok df' → k ≠ "time_hour" → k ≠ "time_norm" →
  get_column k df' = get_column k df.
Proof.
  unfold add_temporal. intros Ht H1 H2. inv_all.
  apply set_column_Ok in E as (_ & _ & Hc1).
  apply set_column_Ok in Ht as (_ & _ & Hc2).
  unfold get_column. rewrite Hc2, dict_get_set_ne, Hc1, dict_get_set_ne; done.
Qed.

(** The features of the channel at position [i], from its row of the
    data to the table. *)
Lemma fit_features_channel (self : SleepStaging F) md t i c :
  fit_features self md = Ok t →
  NoDup (ch_types self) → ch_types self !! i = Some c →
  ∃ x dt times epochs df,
    data self !! i = Some x ∧
    filter_data x (sf self) (4 # 10) 30 = Ok dt ∧
    sliding_window dt (sf self) 30 = Ok (times, epochs) ∧
    epoch_features (sf self) c epochs = Ok df ∧
    column_names df = channel_columns c ∧
    ∀ k s, get_column k df = Some s →
           k ∉ default [] (dict_keys <$> md) →
           get_column k t = Some (downcast_series (reindex (nrows t) s)) ∧
           (length epochs = nrows t → get_column k t = Some (downcast_series s)).
Proof.
  intros Hf Hnd Hc.
  destruct (fit_features_stages _ _ _ Hf Hnd)
    as (pc & base & sm & tp & times & Hloop & Hcat & Hsm & _ & Htp & Hex
        & Hbase & Hndb & Hnds & Hndt & Hndp).
  destruct (channels_loop_lookup _ _ _ _ _ _ _ Hloop Hc)
    as (x & [times_c df] & Hx & Hr & Hcf).
  destruct (channel_features_Ok _ _ _ _ _ Hcf) as (dt & epochs & Hfi & Hsl & Hep).
  exists x, dt, times_c, epochs, df.
  pose proof (epoch_features_Ok _ _ _ _ Hep) as (Hnames & Hn & Hlen & _).
  split_and!; try done.
  intros k s Hg Hk'.
  assert (k ∈ channel_columns c) as Hk.
  { rewrite <- Hnames. apply dict_get_Some_elem in Hg.
    apply list_elem_of_fmap. by exists (k, s). }
  pose proof (channel_columns_reserved _ _ Hk) as Hres.
  rewrite !not_elem_of_cons in Hres. destruct Hres as (Hth & Htn & Hage & Hmale & _).
  assert (nrows t = nrows base) as Hrows.
  { apply export_Ok in Hex as (-> & _).
    apply smooth_Ok in Hsm as (_ & _ & _ & _ & Hn1 & _).
    apply add_temporal_Ok in Htp as [Hn2 _].
    destruct md; rewrite ?add_metadata_nrows; congruence. }
  assert (get_column k t = Some (downcast_series (reindex (nrows t) s))) as Hget.
  { apply export_Ok in Hex as (_ & _ & Hgx).
    rewrite (Hgx Hndp k Hage Hmale).
    assert (get_column k tp = Some (reindex (nrows t) s)) as Htpk.
    { rewrite (get_column_add_temporal _ _ _ _ Htp Hth Htn).
      apply (get_column_smooth _ _ _ _ Hsm Hnds).
      rewrite Hrows.
      apply (get_column_concat pc.*2 base df); [done| |  |done].
      - rewrite (channels_loop_columns _ _ _ _ _ Hloop). by apply base_columns_NoDup.
      - apply list_elem_of_fmap. exists (times_c, df). split; [done|].
        by eapply list_elem_of_lookup_2. }
    destruct md as [d|]; simpl in *.
    - by rewrite add_metadata_get_other, Htpk.
    - by rewrite Htpk. }
  split; [done|]. intros Hsame. rewrite Hget. do 2 f_equal.
  apply reindex_id. rewrite <- Hsame, <- Hn.
  apply dict_get_Some_elem in Hg.
  by apply (proj1 (Forall_forall _ _) Hlen (k, s)).
Qed.

(** X17. Where the base features of the table come from. For the
    channel at position [i] of the instance, the row [i] of the data is
    band-pass filtered between 0.4 and 30 Hz and cut into windows of 30
    seconds; every feature computed from these windows is found in the
    table of [fit] under its name, converted to float32 where it is
    float64 and otherwise unchanged by the later steps (smoothing, temporal columns, metadata,
    sorting), unless a metadata key has taken the name. *)
Theorem X17_base_features_of_a_channel (w w' : world F) l t i c :
  fit w = (w', Ok tt) →
  _features (instance w') = Some l → heap w' !! l = Some (OFrame t) →
  NoDup (ch_types (instance w)) → ch_types (instance w) !! i = Some c →
  ∃ x dt times epochs df,
    data (instance w) !! i = Some x ∧
    filter_data x (sf (instance w)) (4 # 10) 30 = Ok dt ∧
    sliding_window dt (sf (instance w)) 30 = Ok (times, epochs) ∧
    epoch_features (sf (instance w)) c epochs = Ok df ∧
    column_names df = channel_columns c ∧
    ∀ k s, get_column k df = Some s →
           (∀ md, metadata_of w md → k ∉ default [] (dict_keys <$> md)) →
           get_column k t = Some (downcast_series (reindex (nrows t) s)) ∧
           (length epochs = nrows t → get_column k t = Some (downcast_series s)).
Proof.
  intros Hfit Hl Ht Hnd Hc.
  destruct (fit_cached _ _ _ _ Hfit Hl Ht) as (md & Hmd & Hf).
  destruct (fit_features_channel _ _ _ _ _ Hf Hnd Hc)
    as (x & dt & times & epochs & df & Hx & Hfi & Hsl & Hep & Hnames & Hcols).
  exists x, dt, times, epochs, df. split_and!; try done.
  intros k s Hg Hkey. apply Hcols; [done|]. by apply Hkey.
Qed.

Lemma metadata_of_dict (w : world F) lm d md :
  metadata (instance w) = Some lm → heap w !! lm = Some (ODict d) →
  metadata_of w md → md = Some d.
Proof.
  unfold metadata_of. intros -> Hl (d' & Hl' & ->). congruence.
Qed.

(** X18. The two temporal columns are computed from the window starts
    of the last channel of the instance: ['time_hour'] is the start in
    hours and ['time_norm'] the start divided by the last start, both
    as float32; and the table has one row per window. *)
Theorem X18_time_columns (w w' : world F) l t :
  fit w = (w', Ok tt) →
  _features (instance w') = Some l → heap w' !! l = Some (OFrame t) →
  NoDup (ch_types (instance w)) →
  ∃ c x dt times epochs t_last,
    last (ch_types (instance w)) = Some c ∧
    data (instance w) !! (length (ch_types (instance w)) - 1)%nat = Some x ∧
    filter_data x (sf (instance w)) (4 # 10) 30 = Ok dt ∧
    sliding_window dt (sf (instance w)) 30 = Ok (times, epochs) ∧
    last times = Some t_last ∧
    nrows t = length times ∧
    ((∀ md, metadata_of w md → "time_hour" ∉ default [] (dict_keys <$> md)) →
     get_column "time_hour" t
     = Some (Float32 (to_float32 <$> ((fun x => fdiv x (of_Z 3600)) <$> times)))) ∧
    ((∀ md, metadata_of w md → "time_norm" ∉ default [] (dict_keys <$> md)) →
     get_column "time_norm" t
     = Some (Float32 (to_float32 <$> ((fun x => fdiv x t_last) <$> times)))).
Proof.
  intros Hfit Hl Ht Hnd.
  destruct (fit_cached _ _ _ _ Hfit Hl Ht) as (md & Hmd & Hf).
  destruct (fit_features_stages _ _ _ Hf Hnd)
    as (pc & base & sm & tp & times & Hloop & Hcat & Hsm & (r & Hlast & Hr) & Htp & Hex
        & Hbase & Hndb & Hnds & Hndt & Hndp).
  pose proof (channels_loop_Ok _ _ _ _ _ Hloop) as Hlen%Forall2_length.
  rewrite last_lookup in Hlast.
  assert (is_Some (ch_types (instance w) !! pred (length pc))) as [c Hc].
  { apply lookup_lt_is_Some. rewrite Hlen.
    apply lookup_lt_Some in Hlast. lia. }
  destruct (channels_loop_lookup _ _ _ _ _ _ _ Hloop Hc)
    as (x & [times_c df] & Hx & Hr' & Hcf).
  rewrite Hlast in Hr'. injection Hr' as ->. simpl in Hr. subst times_c.
  destruct (channel_features_Ok _ _ _ _ _ Hcf) as (dt & epochs & Hfi & Hsl & _).
  unfold add_temporal in Htp.
  apply bind_Ok in Htp as (f1 & Hs1 & Htp).
  apply bind_Ok in Htp as (t_last & Hlt & Hs2).
  destruct (last times) as [t_last'|] eqn:Elast; [|done]. injection Hlt as ->.
  apply set_column_Ok in Hs1 as (Hlen1 & Hn1 & Hc1).
  apply set_column_Ok in Hs2 as (Hlen2 & Hn2 & Hc2).
  simpl in Hlen1. rewrite length_fmap in Hlen1.
  assert (nrows t = nrows tp) as Hrows.
  { apply export_Ok in Hex as (-> & _).
    destruct md; by rewrite ?add_metadata_nrows. }
  pose proof (proj2 (proj2 (export_Ok _ _ Hex)) Hndp) as Hgx.
  exists c, x, dt, times, epochs, t_last.
  split_and!; try done.
  - by rewrite last_lookup, Hlen.
  - rewrite Hlen. by replace (length pc - 1)%nat with (pred (length pc)) by lia.
  - rewrite Hrows, Hn2, Hn1. apply smooth_Ok in Hsm as (_ & _ & _ & _ & Hn & _).
    by rewrite Hlen1.
  - intros Hkey. pose proof (Hkey md Hmd) as Hk.
    rewrite Hgx by done.
    assert (get_column "time_hour" tp
            = Some (Float64 ((fun x => fdiv x (of_Z 3600)) <$> times))) as Hg.
    { unfold get_column. rewrite Hc2, dict_get_set_ne by done.
      rewrite Hc1. apply dict_get_set_eq. }
    destruct md as [d|]; simpl in *.
    + by rewrite add_metadata_get_other, Hg.
    + by rewrite Hg.
  - intros Hkey. pose proof (Hkey md Hmd) as Hk.
    rewrite Hgx by done.
    assert (get_column "time_norm" tp
            = Some (Float64 ((fun x => fdiv x t_last) <$> times))) as Hg.
    { unfold get_column. rewrite Hc2. apply dict_get_set_eq. }
    destruct md as [d|]; simpl in *.
    + by rewrite add_metadata_get_other, Hg.
    + by rewrite Hg.
Qed.

(** The integer a metadata value is stored as: [astype(int)] on the
    column it was broadcast to (a float has been made a float32 before). *)
Definition int_of (v : pyval) (z : Z) : Prop :=
  match v with
  | PBool b => z = Z.b2z b
  | PInt z0 => z = z0
  | PFloat q => to_int (to_float32 (of_Q q)) = Some z
  end.

Lemma astype_int_broadcast n (v : pyval) s' :
  astype_int (downcast_series (broadcast n v)) = Ok s' →
  ∃ zs, s' = Int64 zs ∧ length zs = n ∧ Forall (int_of v) zs.
Proof.
  intros (zs & -> & Hlen & Hzs)%astype_int_Ok. exists zs.
  rewrite series_len_downcast, series_len_broadcast in Hlen.
  split_and!; [done|done|].
  destruct v as [b|z|q]; simpl in Hzs.
  - subst zs. apply Forall_fmap, Forall_forall.
    by intros b' ->%elem_of_replicate_inv.
  - subst zs. apply Forall_forall. by intros z' ->%elem_of_replicate_inv.
  - rewrite fmap_replicate in Hzs. apply Forall_forall. intros z Hz.
    apply list_elem_of_lookup in Hz as [j Hj].
    destruct (Forall2_lookup_r _ _ _ _ _ Hzs Hj) as (x & Hx & Hxz).
    apply lookup_replicate in Hx as [-> _]. exact Hxz.
Qed.

Lemma encode_int_get name df df' s :
  encode_int name df = Ok df' → get_column name df = Some s →
  ∃ s', astype_int s = Ok s' ∧ get_column name df' = Some s'.
Proof.
  unfold encode_int. intros He Hg. rewrite Hg in He.
  apply bind_Ok in He as (s' & Ha & Hs).
  exists s'. split; [done|]. apply set_column_Ok in Hs as (_ & _ & Hc).
  unfold get_column. rewrite Hc. apply dict_get_set_eq.
Qed.

(** X16. The metadata keys ['age'] and ['male'] become integer columns:
    the table holds, at every epoch, [int] of the value the dict has
    when [fit] runs. *)
Theorem X16_age_and_male_are_integer_columns (w w' : world F) l t lm d k v :
  fit w = (w', Ok tt) →
  _features (instance w') = Some l → heap w' !! l = Some (OFrame t) →
  NoDup (ch_types (instance w)) →
  metadata (instance w) = Some lm → heap w !! lm = Some (ODict d) →
  NoDup (dict_keys d) →
  k ∈ ["age"; "male"] → dict_get k d = Some v →
  ∃ zs, get_column k t = Some (Int64 zs) ∧ length zs = nrows t ∧
        Forall (int_of v) zs.
Proof.
  intros Hfit Hl Ht Hnd Hlm Hd Hkeys Hk Hv.
  destruct (fit_cached _ _ _ _ Hfit Hl Ht) as (md & Hmd & Hf).
  pose proof (metadata_of_dict _ _ _ _ Hlm Hd Hmd) as ->.
  destruct (fit_features_stages _ _ _ Hf Hnd)
    as (pc & base & sm & tp & times & _ & _ & _ & _ & _ & Hex & _ & _ & _ & _ & Hndp).
  assert (nrows t = nrows tp) as Hrows.
  { apply export_Ok in Hex as (-> & _). by rewrite add_metadata_nrows. }
  unfold export in Hex.
  apply bind_Ok in Hex as (a & Hage & Hex).
  apply bind_Ok in Hex as (m & Hmale & [= <-]).
  pose proof (encode_int_Ok _ _ _ Hage) as (_ & Hna & Hga).
  pose proof (encode_int_Ok _ _ _ Hmale) as (_ & Hnm & Hgm).
  assert (get_column k (downcast (add_metadata d tp))
          = Some (downcast_series (broadcast (nrows tp) v))) as Hg
    by (by rewrite get_column_downcast, (add_metadata_get _ _ _ _ Hkeys Hv)).
  rewrite get_column_sort_index by (by rewrite Hnm, Hna, dict_keys_downcast).
  rewrite Hrows.
  apply elem_of_cons in Hk as [->|Hk]; [|apply list_elem_of_singleton in Hk as ->].
  - destruct (encode_int_get _ _ _ _ Hage Hg) as (s' & Has & Hgs).
    rewrite Hgm, Hgs by done.
    apply astype_int_broadcast in Has as (zs & -> & Hlen & Hzs). by exists zs.
  - rewrite <- Hga in Hg by done.
    destruct (encode_int_get _ _ _ _ Hmale Hg) as (s' & Has & Hgs).
    rewrite Hgs.
    apply astype_int_broadcast in Has as (zs & -> & Hlen & Hzs). by exists zs.
Qed.

(** *** Zero crossings *)

Lemma sum_b2n_le {A} (g : A → bool) (xs : list A) :
  (sum_list_with (fun a => Nat.b2n (g a)) xs ≤ length xs)%nat.
Proof. induction xs as [|a xs IH]; simpl; [done|]. destruct (g a); simpl; lia. Qed.

(** X14. The number of zero crossings of an epoch is never negative
    and at most the number of its samples less one. *)
Theorem X14_nzc_bounds (x : list (list F)) :
  Forall2 (fun r k => (0 ≤ k ≤ Z.of_nat (length r - 1))%Z) x (nzc x).
Proof.
  unfold nzc. apply Forall2_fmap_r, Forall_Forall2_diag, Forall_forall.
  intros r _. unfold nzc_row, compose.
  pose proof (sum_b2n_le (fun p => fltb p (of_Z 0))
                (zip_with fmul (but_last r) (but_first r))) as Hle.
  assert (length (zip_with fmul (but_last r) (but_first r)) ≤ length r - 1)%nat
    as Hlen.
  { rewrite length_zip_with. unfold but_last, but_first.
    rewrite length_take, length_drop. lia. }
  simpl in Hle. lia.
Qed.
End Table.

(** ** The table theorems at the example recording *)

(** The example instance with the metadata dict of the caller. *)
Definition example_world : world xfloat :=
  mkWorld [ODict caller_metadata] (example_instance (Some 0%nat)).

Lemma example_fit_returns : is_ok (fit example_world).2 = true.
Proof. vm_compute. reflexivity. Qed.

Lemma example_channels_NoDup : NoDup (ch_types (instance example_world)).
Proof. apply (bool_decide_unpack _). vm_compute. reflexivity. Qed.

Lemma example_keys_NoDup : NoDup (dict_keys caller_metadata).
Proof. apply (bool_decide_unpack _). vm_compute. reflexivity. Qed.

(** No key of the caller's dict is the name of a feature. *)
Lemma example_keys_free (k : string) :
  k ∉ dict_keys caller_metadata →
  ∀ md, metadata_of example_world md → k ∉ default [] (dict_keys <$> md).
Proof. intros Hk md (d & [= <-] & ->). exact Hk. Qed.

Lemma X15_table_has_no_float64_column_witness :
  ∃ w' t,
    fit example_world = (w', Ok tt) ∧
    heap w' !! 1%nat = Some (OFrame t) ∧
    Forall (fun c => series_len c.2 = nrows t ∧ is_float64 c.2 = false) (columns t).
Proof.
  destruct (fit example_world) as [w' [[]|e]] eqn:E.
  - destruct (fit_Ok _ _ E) as (md & t & _ & _ & ->).
    exists (mkWorld (heap example_world ++ [OFrame t])
              (set__features (length (heap example_world)) (column_names t)
                 (instance example_world))), t.
    split_and!; [reflexivity|reflexivity|].
    exact (X15_table_has_no_float64_column example_world _ 1%nat t E eq_refl eq_refl).
  - exfalso. pose proof example_fit_returns as Hok.
    rewrite E in Hok. discriminate Hok.
Defined.

Lemma X16_age_and_male_are_integer_columns_witness :
  ∃ w' t zs,
    fit example_world = (w', Ok tt) ∧
    heap w' !! 1%nat = Some (OFrame t) ∧
    get_column "age" t = Some (Int64 zs) ∧ length zs = nrows t ∧
    Forall (int_of (PFloat (18 # 10))) zs.
Proof.
  destruct (fit example_world) as [w' [[]|e]] eqn:E.
  - destruct (fit_Ok _ _ E) as (md & t & _ & _ & ->).
    destruct (X16_age_and_male_are_integer_columns example_world _ 1%nat t 0%nat
                caller_metadata "age" (PFloat (18 # 10)) E eq_refl eq_refl
                example_channels_NoDup eq_refl eq_refl example_keys_NoDup
                ltac:(left) eq_refl) as (zs & Hg & Hlen & Hzs).
    eexists _, t, zs. split_and!; [reflexivity|reflexivity|exact Hg|exact Hlen|exact Hzs].
  - exfalso. pose proof example_fit_returns as Hok.
    rewrite E in Hok. discriminate Hok.
Defined.

Lemma X17_base_features_of_a_channel_witness :
  ∃ w' t dt times epochs df,
    fit example_world = (w', Ok tt) ∧
    heap w' !! 1%nat = Some (OFrame t) ∧
    filter_data example_eeg 1 (4 # 10) 30 = Ok dt ∧
    sliding_window dt 1 30 = Ok (times, epochs) ∧
    epoch_features 1 eeg epochs = Ok df ∧
    ∀ s, get_column "eeg_std" df = Some s →
         get_column "eeg_std" t = Some (downcast_series (reindex (nrows t) s)).
Proof.
  destruct (fit example_world) as [w' [[]|e]] eqn:E.
  - destruct (fit_Ok _ _ E) as (md & t & _ & _ & ->).
    destruct (X17_base_features_of_a_channel example_world _ 1%nat t 0%nat eeg
                E eq_refl eq_refl example_channels_NoDup eq_refl)
      as (x & dt & times & epochs & df & [= <-] & Hfi & Hsl & Hep & _ & Hcols).
    eexists _, t, dt, times, epochs, df.
    split_and!; [reflexivity|reflexivity|exact Hfi|exact Hsl|exact Hep|].
    intros s Hs. refine (proj1 (Hcols "eeg_std" s Hs (example_keys_free _ _))).
    apply (bool_decide_unpack _). vm_compute. reflexivity.
  - exfalso. pose proof example_fit_returns as Hok.
    rewrite E in Hok. discriminate Hok.
Defined.

Lemma X18_time_columns_witness :
  ∃ w' t dt times epochs,
    fit example_world = (w', Ok tt) ∧
    heap w' !! 1%nat = Some (OFrame t) ∧
    filter_data example_eog 1 (4 # 10) 30 = Ok dt ∧
    sliding_window dt 1 30 = Ok (times, epochs) ∧
    nrows t = length times ∧
    get_column "time_hour" t
    = Some (Float32 (to_float32 <$> ((fun x => fdiv x (of_Z 3600)) <$> times))).
Proof.
  destruct (fit example_world) as [w' [[]|e]] eqn:E.
  - destruct (fit_Ok _ _ E) as (md & t & _ & _ & ->).
    destruct (X18_time_columns example_world _ 1%nat t
                E eq_refl eq_refl example_channels_NoDup)
      as (c & x & dt & times & epochs & t_last & _ & [= <-] & Hfi & Hsl & _ & Hn & Hh & _).
    eexists _, t, dt, times, epochs.
    split_and!; [reflexivity|reflexivity|exact Hfi|exact Hsl|exact Hn|].
    apply Hh. apply example_keys_free.
    apply (bool_decide_unpack _). vm_compute. reflexivity.
  - exfalso. pose proof example_fit_returns as Hok.
    rewrite E in Hok. discriminate Hok.
Defined.

(** ** The plot theorems at an example *)

(** The largest value of a row, and the comparison of two values, for
    the reference numbers: a missing value is skipped by the first and
    equal to nothing for the second. *)
Definition xmax (r : list xfloat) : xfloat :=
  foldr (fun x m : xfloat =>
           match x, m with
           | Some a, Some b => if Qle_bool (this b) (this a) then Some a else Some b
           | Some a, None => Some a
           | None, _ => m
           end) None r.

Definition xeqb (x y : xfloat) : bool :=
  match x, y with
  | Some a, Some b => Qeq_bool (this a) (this b)
  | _, _ => false
  end.

(** An instance that is fitted and has predicted: the feature table and
    the table of probabilities. *)
Definition example_plotted : world xfloat :=
  mkWorld [OFrame example_base_table; OFrame example_proba]
    (set__proba 1 (instance example_fitted)).

Lemma X12_plot_guard_tests_the_features_witness :
  plot_predict_proba xmax xeqb None true example_fitted
  = (example_fitted, Raise (AttributeError "_proba")) ∧
  plot_predict_proba xmax xeqb None true (mkWorld [] (example_instance None))
  = (mkWorld [] (example_instance None),
     Raise (ValueError "Must call .predict_proba before this function" [])).
Proof.
  split.
  - exact (X12_plot_guard_tests_the_features xmax xeqb example_fitted true eq_refl).
  - exact (X12_plot_guard_tests_the_features xmax xeqb
             (mkWorld [] (example_instance None)) true eq_refl).
Defined.

Lemma X13_plot_draws_a_copy_witness :
  plot_predict_proba xmax xeqb (Some 1%nat) true example_plotted
  = (example_plotted, Ok (shown xmax xeqb true example_proba)) ∧
  plot_predict_proba xmax xeqb None true example_plotted
  = (mkWorld (heap example_plotted ++ [OFrame example_proba]) (instance example_plotted),
     Ok (shown xmax xeqb true example_proba)) ∧
  column_names (shown xmax xeqb true example_proba) = ["N2"; "W"].
Proof.
  destruct (X13_plot_draws_a_copy xmax xeqb example_plotted 1%nat example_proba true
              eq_refl) as (Hgiven & Hcached & Hnames & _).
  split_and!; [exact Hgiven| |exact Hnames].
  apply Hcached; [reflexivity|]. exists 0%nat. reflexivity.
Defined.

(** * The filtered signal is not examined *)

Section FilterOutput.
Context {F : Type} {num : Numeric F} {lib : Lib F}.
Implicit Types (w : world F) (md : option (dict pyval)).

(** An exception in the body of the loop, at the channel at position
    [i], leaves the loop when the channels before it have been
    processed. *)
Lemma channels_loop_Raise sfreq (rows : list (list F)) i0 cs i c x e :
  cs !! i = Some c → rows !! (i0 + i)%nat = Some x →
  (∀ j c', (j < i)%nat → cs !! j = Some c' →
     ∃ x' r, rows !! (i0 + j)%nat = Some x' ∧ channel_features sfreq c' x' = Ok r) →
  channel_features sfreq c x = Raise e →
  channels_loop sfreq rows i0 cs = Raise e.
Proof.
  revert i0 i. induction cs as [|c0 cs IH]; intros i0 i Hc Hx Hbefore He; [done|].
  destruct i as [|i]; simpl in Hc.
  - injection Hc as ->. rewrite Nat.add_0_r in Hx.
    simpl. unfold item. rewrite Hx. simpl. by rewrite He.
  - destruct (Hbefore 0%nat c0 ltac:(lia) eq_refl) as (x0 & r0 & Hx0 & Hr0).
    rewrite Nat.add_0_r in Hx0.
    simpl. unfold item. rewrite Hx0. simpl. rewrite Hr0. simpl.
    rewrite (IH (S i0) i); [done|done| | |done].
    + by replace (S i0 + i)%nat with (i0 + S i)%nat by lia.
    + intros j c' Hj Hc'. destruct (Hbefore (S j) c' ltac:(lia) Hc') as (x' & r & Hx' & Hr).
      exists x', r. split; [|done].
      by replace (S i0 + j)%nat with (i0 + S j)%nat by lia.
Qed.

(** The dict [fit] reads. *)
Lemma read_metadata w md :
  metadata_of w md →
  (match metadata (instance w) with
   | Some l => d ← on_heap (load_dict l); mret (Some d)
   | None => mret None
   end) w = (w, Ok md).
Proof.
  unfold metadata_of. destruct (metadata (instance w)) as [l|].
  - intros (d & Hd & ->).
    unfold mbind, M_bind, on_heap, load_dict, mret, M_ret. rewrite Hd.
    by rewrite world_eta.
  - by intros ->.
Qed.

(** [fit] as a function of the table it computes. *)
Lemma fit_run w md :
  metadata_of w md →
  fit w = match fit_features (instance w) md with
          | Ok t => (mkWorld (heap w ++ [OFrame t])
                       (set__features (length (heap w)) (column_names t) (instance w)),
                     Ok tt)
          | Raise e => (w, Raise e)
          end.
Proof.
  intros Hmd. unfold fit.
  unfold mbind at 1, M_bind at 1, gets at 1.
  unfold mbind at 1, M_bind at 1. rewrite (read_metadata _ _ Hmd).
  unfold mbind at 1, M_bind at 1, lift at 1.
  by destruct (fit_features (instance w) md) as [t|e].
Qed.

(** C5 (as the code has it). An exception of the filtering call of a
    channel leaves the body of the loop unchanged and, the channels
    before it having been processed, leaves [fit] unchanged, the
    instance and every object being as they were. When the call
    returns, its output, whatever its values, is cut into epochs as it
    is and the features are computed from these epochs as they are: the
    columns computed by the source's own helpers are the helpers applied
    to them. When [fit] returns, the table it caches holds these
    columns, converted to float32 where they are float64, unless a
    metadata key has taken the name. *)
Theorem C5_filter_output_is_not_examined w md i c x :
  metadata_of w md →
  ch_types (instance w) !! i = Some c → data (instance w) !! i = Some x →
  (∀ e,
     filter_data x (sf (instance w)) freq_broad.1 freq_broad.2 = Raise e →
     channel_features (sf (instance w)) c x = Raise e ∧
     ((∀ j c', (j < i)%nat → ch_types (instance w) !! j = Some c' →
         ∃ x' r, data (instance w) !! j = Some x' ∧
                 channel_features (sf (instance w)) c' x' = Ok r) →
      fit w = (w, Raise e))) ∧
  (∀ dt times epochs,
     filter_data x (sf (instance w)) freq_broad.1 freq_broad.2 = Ok dt →
     sliding_window dt (sf (instance w)) 30 = Ok (times, epochs) →
     (∀ df, epoch_features (sf (instance w)) c epochs = Ok df →
        channel_features (sf (instance w)) c x = Ok (times, df) ∧
        nrows df = length epochs ∧
        get_column (column_of c "std") df = Some (Float64 (fstd 1 <$> epochs)) ∧
        get_column (column_of c "nzc") df = Some (Int64 (nzc epochs)) ∧
        get_column (column_of c "hmob") df = Some (Float64 (mobility epochs)) ∧
        get_column (column_of c "petrosian") df
        = Some (Float64 (petrosian epochs))) ∧
     (∀ w', NoDup (ch_types (instance w)) → fit w = (w', Ok tt) →
        ∃ df t,
          epoch_features (sf (instance w)) c epochs = Ok df ∧
          heap w' = heap w ++ [OFrame t] ∧
          _features (instance w') = Some (length (heap w)) ∧
          ∀ k s, get_column k df = Some s →
                 k ∉ default [] (dict_keys <$> md) →
                 get_column k t = Some (downcast_series (reindex (nrows t) s)))).
Proof.
  intros Hmd Hc Hx. split.
  - intros e He.
    assert (channel_features (sf (instance w)) c x = Raise e) as Hcf
      by (unfold channel_features; by rewrite He).
    split; [done|]. intros Hbefore.
    rewrite (fit_run _ _ Hmd). unfold fit_features.
    by rewrite (channels_loop_Raise _ _ 0 _ i c x e Hc Hx Hbefore Hcf).
  - intros dt times epochs Hfi Hsl. split.
    + intros df He. split.
      * unfold channel_features. rewrite Hfi. simpl. rewrite Hsl. simpl.
        by rewrite He.
      * apply epoch_features_Ok in He as (_ & Hn & _ & Hstd & Hnzc & Hm & _ & Hp).
        by split_and!.
    + intros w' Hnd Hfit. rewrite (fit_run _ _ Hmd) in Hfit.
      destruct (fit_features (instance w) md) as [t|e] eqn:Hf; [|done].
      injection Hfit as <-.
      destruct (fit_features_channel _ _ _ _ _ Hf Hnd Hc)
        as (x' & dt' & times' & epochs' & df & Hx' & Hfi' & Hsl' & Hep & _ & Hcols).
      rewrite Hx in Hx'. injection Hx' as <-.
      change (4 # 10)%Q with (freq_broad.1) in Hfi'.
      change 30%Q with (freq_broad.2) in Hfi' at 1.
      rewrite Hfi in Hfi'. injection Hfi' as <-.
      rewrite Hsl in Hsl'. injection Hsl' as <- <-.
      exists df, t. split_and!; [done|done|done|].
      intros k s Hg Hk. by destruct (Hcols k s Hg Hk) as [Hget _].
Qed.
End FilterOutput.

(** ** The theorem at the example recording *)

(** The example's signals with a missing value. *)
Definition example_nan_eeg : list xfloat := <[40%nat := None]> example_eeg.
Definition example_nan_eog : list xfloat := <[40%nat := None]> example_eog.

(** The example recording with a missing value in the EOG channel. *)
Definition example_nan_eog_instance : SleepStaging xfloat :=
  mkSleepStaging 1 ["C4"; "LOC"] [eeg; eog] [example_eeg; example_nan_eog]
    None None None None None.

Lemma C5_filter_output_is_not_examined_witness :
  (fit (lib := reference_lib_with filter_checked [])
     (mkWorld [] example_nan_eog_instance)
   = (mkWorld [] example_nan_eog_instance, Raise (LibraryError "filter_data"))) ∧
  ∃ w' times epochs df t,
    fit (mkWorld [] example_nan_instance) = (w', Ok tt) ∧
    filter_data example_nan_eeg 1 freq_broad.1 freq_broad.2 = Ok example_nan_eeg ∧
    sliding_window example_nan_eeg 1 30 = Ok (times, epochs) ∧
    epoch_features 1 eeg epochs = Ok df ∧
    get_column (column_of eeg "hmob") df = Some (Float64 (mobility epochs)) ∧
    heap w' = [OFrame t] ∧
    get_column (column_of eeg "hmob") t
    = Some (downcast_series (reindex (nrows t) (Float64 (mobility epochs)))).
Proof.
  split.
  - destruct (C5_filter_output_is_not_examined
                (lib := reference_lib_with filter_checked [])
                (mkWorld [] example_nan_eog_instance) None 1%nat eog example_nan_eog
                eq_refl eq_refl eq_refl) as [Hraise _].
    destruct (Hraise (LibraryError "filter_data")) as [_ Hfit];
      [vm_compute; reflexivity|].
    apply Hfit. intros j c' Hj Hc'.
    destruct j as [|j]; [|lia]. injection Hc' as <-.
    destruct (channel_features (lib := reference_lib_with filter_checked [])
                1 eeg example_eeg) as [r|e] eqn:E.
    + exists example_eeg, r. split; [reflexivity|exact E].
    + exfalso.
      assert (is_ok (channel_features (lib := reference_lib_with filter_checked [])
                       1 eeg example_eeg) = true) as Hok
        by (vm_compute; reflexivity).
      rewrite E in Hok. discriminate Hok.
  - destruct (C5_filter_output_is_not_examined (mkWorld [] example_nan_instance)
                None 0%nat eeg example_nan_eeg eq_refl eq_refl eq_refl) as [_ Hret].
    destruct (sliding_window example_nan_eeg 1 30) as [[times epochs]|e] eqn:Es.
    + destruct (Hret example_nan_eeg times epochs eq_refl Es) as [Hchan Htable].
      destruct (fit (mkWorld [] example_nan_instance)) as [w' [[]|e]] eqn:E.
      * assert (NoDup (ch_types (instance (mkWorld [] example_nan_instance)))) as Hnd
          by (apply (bool_decide_unpack _); vm_compute; reflexivity).
        destruct (Htable w' Hnd eq_refl) as (df & t & Hep & Hh & _ & Hcols).
        destruct (Hchan df Hep) as (_ & _ & _ & _ & Hm & _).
        exists w', times, epochs, df, t.
        split_and!; [reflexivity|reflexivity|reflexivity|exact Hep|exact Hm|exact Hh|].
        refine (Hcols _ _ Hm _). apply not_elem_of_nil.
      * exfalso.
        assert (is_ok (fit (mkWorld [] example_nan_instance)).2 = true) as Hok
          by (vm_compute; reflexivity).
        rewrite E in Hok. discriminate Hok.
    + exfalso.
      assert (is_ok (sliding_window example_nan_eeg 1 30) = true) as Hok
        by (vm_compute; reflexivity).
      rewrite Es in Hok. discriminate Hok.
Defined.

(** C5 (as stated) fails: the filtered EEG signal of this recording has a
    missing value, and [fit] returns a table. *)
Lemma C5_counterexample :
  ¬ (∀ (self : SleepStaging xfloat) md x rows dt,
       data self = x :: rows →
       filter_data x (sf self) freq_broad.1 freq_broad.2 = Ok dt →
       fnan ∈ dt →
       ∃ e, fit_features self md = Raise e).
Proof.
  intros Hclaim.
  destruct (Hclaim example_nan_instance None example_nan_eeg [example_eog]
              example_nan_eeg eq_refl eq_refl) as [e He].
  - apply list_elem_of_lookup. exists 40%nat. vm_compute. reflexivity.
  - assert (is_ok (fit_features example_nan_instance None) = true) as Hok
      by (vm_compute; reflexivity).
    rewrite He in Hok. discriminate Hok.
Qed.

(** In that table the Hjorth mobility of the second epoch is missing. *)
Example nan_reaches_the_features :
  match fit_features example_nan_instance None with
  | Ok t => match get_column "eeg_hmob" t with
            | Some (Float32 [Some _; None; Some _]) => True
            | _ => False
            end
  | Raise _ => False
  end.
Proof. vm_compute. exact I. Qed.
